(** * sync-manager agent: a shallow embedding of the sync engine

    The development follows the Go packages of the agent:
    - [Chan]      buffered channels,
    - [Uploader]  agent/internal/uploader/uploader.go,
    - [Filepath]  the walk of a directory tree,
    - [Watcher]   agent/internal/watcher/watcher.go,
    - [Config]    agent/internal/config/config.go,
    - [Sync]      agent/internal/sync/manager.go.
    The properties of the sync engine follow the definitions.

    Functions of the Go standard library (path/filepath, os, time, crypto) and
    the storage backend are not part of the repository: they enter as section
    variables or as fields of an environment record, and the general
    theorems hold for all of them. The examples fix small stand-ins. *)

From Stdlib Require Import ZArith List Lia Bool Ascii String.
From stdpp Require Import gmap strings list fin_maps.
From Equations Require Import Equations.
From Equations.Prop Require Import Logic.
Import ListNotations.

Set Warnings "-register-all".

(** ** Results of fallible calls *)

(** A Go call returning [(value, error)]. *)
Inductive io (A : Type) : Type :=
| Ok (a : A)
| Err (msg : string).
Arguments Ok {A} a.
Arguments Err {A} msg.

(** How a call ends: it returns, it parks the goroutine, or it panics. *)
Inductive outcome (A : Type) : Type :=
| Returned (a : A)
| Blocked
| Panicked (msg : string).
Arguments Returned {A} a.
Arguments Blocked {A}.
Arguments Panicked {A} msg.


(** ** Buffered channels *)
Module Chan.

Record chan (A : Type) : Type := mk {
  buf : list A;       (* queued elements, oldest first *)
  cap : nat;          (* make(chan A, cap) *)
  closed : bool       (* close(ch) was called *)
}.
Arguments mk {A} buf cap closed.
Arguments buf {A} c.
Arguments cap {A} c.
Arguments closed {A} c.

Definition make {A} (n : nat) : chan A := mk [] n false.

(** [close(ch)]: closing a channel that is closed already panics
    ([None]). *)
Definition close {A} (c : chan A) : option (chan A) :=
  if closed c then None else Some (mk (buf c) (cap c) true).

(** What the runtime does with [ch <- v] when the statement is reached:
    a send on a closed channel panics, a send with room in the buffer
    proceeds, and any other send has to wait. *)
Inductive send_result (A : Type) : Type :=
| Sent (c : chan A)
| WouldBlock
| SendOnClosed.
Arguments Sent {A} c.
Arguments WouldBlock {A}.
Arguments SendOnClosed {A}.

Definition try_send {A} (c : chan A) (v : A) : send_result A :=
  if closed c then SendOnClosed
  else if length (buf c) <? cap c then Sent (mk (buf c ++ [v]) (cap c) false)
  else WouldBlock.

(** A channel never holds more than its capacity. *)
Definition wf {A} (c : chan A) : Prop := length (buf c) ≤ cap c.

End Chan.

(** ** agent/internal/uploader *)
Module Uploader.
Import Chan.

(** [UploadTask]. [Metadata] is a Go map, [None] is the nil map. Times are
    nanoseconds of the process clock. *)
Record UploadTask : Type := mkTask {
  FilePath : string;
  Key : string;
  FolderID : string;
  Priority : Z;
  Metadata : option (gmap string string);
  RetryCount : Z;
  LastAttempt : Z
}.

Record UploadResult : Type := mkResult {
  Task : UploadTask;
  Success : bool;
  Error : option string;
  VersionID : string;
  Hash : string;
  Size : Z
}.

(** [Uploader]: the two channels, the settings, the cancellation flag of
    [ctx] and [running]. The store is part of the environment. *)
Record Uploader : Type := mkUploader {
  taskQueue : chan UploadTask;
  resultChan : chan UploadResult;
  maxConcurrency : Z;
  throttleBytes : Z;
  ctxDone : bool;
  running : bool
}.

(** The dynamic type of [cfg interface{}] in [NewUploader]. *)
Inductive UploaderCfg : Type :=
| CommonConfig (MaxConcurrency ThrottleBytes : Z)
| AgentConfig
| OtherConfig.

Definition NewUploader (cfg : UploaderCfg) : Uploader :=
  let '(maxConcurrency, throttleBytes) :=
    match cfg with
    | CommonConfig mc tb => (mc, tb)
    | AgentConfig | OtherConfig => (4%Z, 0%Z)
    end in
  {| taskQueue := Chan.make 1000;
     resultChan := Chan.make 100;
     maxConcurrency := maxConcurrency;
     throttleBytes := throttleBytes;
     ctxDone := false;
     running := false |}.

Definition set_taskQueue (u : Uploader) (q : chan UploadTask) : Uploader :=
  {| taskQueue := q; resultChan := resultChan u;
     maxConcurrency := maxConcurrency u; throttleBytes := throttleBytes u;
     ctxDone := ctxDone u; running := running u |}.

(** [Start]: marks the uploader running (the workers are the subject of
    [worker_iteration] below). *)
Definition Start (u : Uploader) : Uploader :=
  if running u then u
  else {| taskQueue := taskQueue u; resultChan := resultChan u;
          maxConcurrency := maxConcurrency u; throttleBytes := throttleBytes u;
          ctxDone := ctxDone u; running := true |}.

(** [Stop]: cancels the context, closes the task queue, waits for the
    workers, closes the result channel and clears [running]. A [close] of
    a channel closed before panics and leaves what follows it undone:
    [running] stays set. (The workers leave once the context is
    cancelled, so the wait ends.) *)
Definition Stop (u : Uploader) : Uploader * outcome unit :=
  if negb (running u) then (u, Returned tt)
  else
    (* u.cancel() *)
    let u := {| taskQueue := taskQueue u; resultChan := resultChan u;
                maxConcurrency := maxConcurrency u;
                throttleBytes := throttleBytes u;
                ctxDone := true; running := running u |} in
    match Chan.close (taskQueue u) with
    | None => (u, Panicked "close of closed channel")
    | Some q =>
        let u := set_taskQueue u q in
        match Chan.close (resultChan u) with
        | None => (u, Panicked "close of closed channel")
        | Some r =>
            ({| taskQueue := taskQueue u; resultChan := r;
                maxConcurrency := maxConcurrency u;
                throttleBytes := throttleBytes u;
                ctxDone := true; running := false |}, Returned tt)
        end
    end.

(** [QueueUpload]: [select { case u.taskQueue <- task: return nil;
    default: return error }]. *)
Definition QueueUpload (u : Uploader) (task : UploadTask)
  : Uploader * outcome (option string) :=
  match try_send (taskQueue u) task with
  | Sent q => (set_taskQueue u q, Returned None)
  | WouldBlock => (u, Returned (Some "upload queue is full"))
  | SendOnClosed => (u, Panicked "send on closed channel")
  end.

(** *** QueueFile *)

Section QueueFile.

(** [filepath.Separator] of the host and [filepath.Rel] (standard library). *)
Variable Separator : ascii.
Variable Rel : string → string → io string.

(** [filepath.ToSlash]: every separator becomes a slash. *)
Fixpoint ToSlash (path : string) : string :=
  match path with
  | EmptyString => EmptyString
  | String c rest =>
      String (if Ascii.eqb c Separator then "/"%char else c) (ToSlash rest)
  end.

(** [QueueFile filePath folderPath]; [upload_time] is
    [time.Now().Format(time.RFC3339)]. *)
Definition QueueFile (u : Uploader) (upload_time : string)
    (filePath folderPath : string) : Uploader * outcome (option string) :=
  if negb (running u) then (u, Returned (Some "uploader is not running"))
  else
    match Rel folderPath filePath with
    | Err msg => (u, Returned (Some ("failed to get relative path: " +:+ msg)))
    | Ok relPath =>
        let storageKey := ToSlash relPath in
        let task :=
          {| FilePath := filePath;
             Key := storageKey;
             FolderID := "";
             Priority := 1;
             Metadata := Some (<["upload_time" := upload_time]>
                              (<["source_folder" := folderPath]> ∅));
             RetryCount := 0;
             LastAttempt := 0 |} in
        QueueUpload u task
    end.

End QueueFile.

(** *** processUpload *)

Record FileInfo : Type := mkFileInfo {
  IsDir : bool;
  FileSize : Z;
  ModTime : Z
}.

(** An [*os.File] as [processUpload] uses it: [Stat], the bytes [io.Copy]
    reads (or its error), and the error of [Seek(0, io.SeekStart)]. *)
Record File : Type := mkFile {
  file_Stat : io FileInfo;
  file_body : io string;
  file_Seek : option string
}.

(** What one upload attempt sees of the outside world. *)
Record UploadEnv : Type := mkUploadEnv {
  os_Open : string → io File;
  sha256_hex : string → string;
  format_int : Z → string;
  format_rfc3339_utc : Z → string;
  store_UploadFile : string → string → gmap string string → io string
}.

Section DetectContentType.

Variable IsPathSeparator : ascii → bool.

Fixpoint has_separator (s : string) : bool :=
  match s with
  | EmptyString => false
  | String c rest => IsPathSeparator c || has_separator rest
  end.

(** [filepath.Ext]: the suffix starting at the last dot of the last path
    element, empty when there is none. *)
Fixpoint Ext (path : string) : string :=
  match path with
  | EmptyString => EmptyString
  | String c rest =>
      match Ext rest with
      | EmptyString =>
          if IsPathSeparator c || has_separator rest then EmptyString
          else if Ascii.eqb c "."%char then path else EmptyString
      | ext => ext
      end
  end.

Definition one_of (s : string) (l : list string) : bool :=
  existsb (String.eqb s) l.

Definition detectContentType (filePath : string) : string :=
  let ext := Ext filePath in
  if one_of ext [".jpg"; ".jpeg"] then "image/jpeg"
  else if one_of ext [".png"] then "image/png"
  else if one_of ext [".gif"] then "image/gif"
  else if one_of ext [".pdf"] then "application/pdf"
  else if one_of ext [".txt"] then "text/plain"
  else if one_of ext [".html"; ".htm"] then "text/html"
  else if one_of ext [".css"] then "text/css"
  else if one_of ext [".js"] then "application/javascript"
  else if one_of ext [".json"] then "application/json"
  else if one_of ext [".xml"] then "application/xml"
  else if one_of ext [".zip"] then "application/zip"
  else if one_of ext [".doc"; ".docx"] then "application/msword"
  else if one_of ext [".xls"; ".xlsx"] then "application/vnd.ms-excel"
  else if one_of ext [".ppt"; ".pptx"] then "application/vnd.ms-powerpoint"
  else "application/octet-stream".

Definition failed (task : UploadTask) (hash : string) (size : Z)
    (msg : string) : UploadResult :=
  {| Task := task; Success := false; Error := Some msg;
     VersionID := ""; Hash := hash; Size := size |}.

Definition set_Metadata (task : UploadTask)
    (md : option (gmap string string)) : UploadTask :=
  {| FilePath := FilePath task; Key := Key task; FolderID := FolderID task;
     Priority := Priority task; Metadata := md;
     RetryCount := RetryCount task; LastAttempt := LastAttempt task |}.

(** [processUpload]. The metadata map is shared between the task of the
    caller, the task inside the result and the local copy: when it is not
    nil, the four entries written before the transfer are seen through all of
    them, so [Task] of the result is also the caller's task after the call.
    The throttled reader delays the transfer and leaves the bytes as they
    are (see [throttled_Read]). *)
Definition processUpload (e : UploadEnv) (task : UploadTask) : UploadResult :=
  match os_Open e (FilePath task) with
  | Err msg => failed task "" 0 ("failed to open file: " +:+ msg)
  | Ok file =>
  match file_Stat file with
  | Err msg => failed task "" 0 ("failed to get file info: " +:+ msg)
  | Ok fileInfo =>
  if IsDir fileInfo then failed task "" 0 "cannot upload directory"
  else
  match file_body file with
  | Err msg => failed task "" 0 ("failed to calculate hash: " +:+ msg)
  | Ok body =>
  let hash := sha256_hex e body in
  match file_Seek file with
  | Some msg => failed task hash 0 ("failed to reset file position: " +:+ msg)
  | None =>
  let fileSize := FileSize fileInfo in
  let metadata :=
    <["modified_time" := format_rfc3339_utc e (ModTime fileInfo)]>
    (<["size" := format_int e fileSize]>
    (<["hash_sha256" := hash]>
    (<["content_type" := detectContentType (FilePath task)]>
    (default ∅ (Metadata task))))) in
  let task' :=
    match Metadata task with
    | Some _ => set_Metadata task (Some metadata)
    | None => task
    end in
  match store_UploadFile e (Key task) body metadata with
  | Err msg => failed task' hash fileSize ("failed to upload file: " +:+ msg)
  | Ok versionID =>
      {| Task := task'; Success := true; Error := None;
         VersionID := versionID; Hash := hash; Size := fileSize |}
  end end end end end.

End DetectContentType.

(** *** worker *)

Definition Second : Z := 1000000000.

(** What a [select] between a send and [<-u.ctx.Done()] comes to. The
    send is taken when the buffer has room or a receiver takes the value;
    when the channel stays full, nobody receives and the context is never
    cancelled, neither case is ever ready and the goroutine waits in the
    [select] for ever. A send on a closed channel counts as ready and
    panics when it is the case taken. *)
Inductive SendCase : Type :=
| SendTaken       (* the send completes *)
| DoneTaken       (* <-u.ctx.Done() is taken *)
| NeverReady      (* no case is ever ready: the worker is parked *)
| ClosedTaken.    (* the send on the closed channel is taken: panic *)

(** The cases such a [select] can come to when, from then on, no other
    goroutine receives from the channel, closes it or cancels the
    context. With both cases ready it picks either. *)
Inductive select_send {A} (c : chan A) (ctxDone : bool) : SendCase → Prop :=
| select_closed :
    closed c = true → select_send c ctxDone ClosedTaken
| select_room :
    closed c = false → length (buf c) < cap c →
    select_send c ctxDone SendTaken
| select_done :
    ctxDone = true → select_send c ctxDone DoneTaken
| select_parks :
    closed c = false → cap c ≤ length (buf c) → ctxDone = false →
    select_send c ctxDone NeverReady.

(** What one iteration of the worker loop observes besides the upload
    itself: whether [ctx.Done()] is the case taken at the pickup and
    during the backoff, what the [select] of each of the two sends comes
    to, and the reading of [time.Now()]. *)
Record AttemptEnv : Type := mkAttemptEnv {
  upload_env : UploadEnv;
  done_at_pickup : bool;
  publish : SendCase;           (* u.resultChan <- result *)
  time_Now : Z;
  done_at_backoff : bool;
  requeue : SendCase            (* u.taskQueue <- task *)
}.

(** The observable steps of a worker. A send that has to wait and then
    completes is recorded when it completes. *)
Inductive Event : Type :=
| EvAttempt (task : UploadTask)       (* processUpload(task) is called *)
| EvResult (result : UploadResult)    (* u.resultChan <- result *)
| EvBackoff (d : Z)                   (* <-time.After(d) *)
| EvRequeue (task : UploadTask)       (* u.taskQueue <- task *)
| EvExit                              (* return on <-u.ctx.Done() *)
| EvParked                            (* waits in a select for ever *)
| EvPanic (msg : string).

Definition set_retry (task : UploadTask) (retryCount lastAttempt : Z)
  : UploadTask :=
  {| FilePath := FilePath task; Key := Key task; FolderID := FolderID task;
     Priority := Priority task; Metadata := Metadata task;
     RetryCount := retryCount; LastAttempt := lastAttempt |}.

Section Worker.

Variable IsPathSeparator : ascii → bool.

(** The body of [for task := range u.taskQueue] for one task: the events of
    the iteration and the task sent back to the queue, if any. The shift
    [1<<task.RetryCount] panics on a negative count; below 3 it cannot
    overflow. *)
Definition worker_iteration (e : AttemptEnv) (task : UploadTask)
  : list Event * option UploadTask :=
  if done_at_pickup e then ([EvExit], None)
  else
    let attempt := EvAttempt task in
    let result := processUpload IsPathSeparator (upload_env e) task in
    let task := Task result in
    (* Send result *)
    match publish e with
    | DoneTaken => ([attempt; EvExit], None)
    | NeverReady => ([attempt; EvParked], None)
    | ClosedTaken => ([attempt; EvPanic "send on closed channel"], None)
    | SendTaken =>
      let published := [attempt; EvResult result] in
      if negb (Success result) && (RetryCount task <? 3)%Z then
        if (RetryCount task <? 0)%Z
        then (published ++ [EvPanic "negative shift amount"], None)
        else
          let backoff := (Z.shiftl 1 (RetryCount task) * Second)%Z in
          let task := set_retry task (RetryCount task + 1) (time_Now e) in
          if done_at_backoff e then (published ++ [EvExit], None)
          else
            (* Try again *)
            match requeue e with
            | DoneTaken => (published ++ [EvBackoff backoff; EvExit], None)
            | NeverReady => (published ++ [EvBackoff backoff; EvParked], None)
            | ClosedTaken =>
                (published
                   ++ [EvBackoff backoff; EvPanic "send on closed channel"],
                 None)
            | SendTaken =>
                (published ++ [EvBackoff backoff; EvRequeue task], Some task)
            end
      else (published, None)
    end.

End Worker.

Lemma processUpload_RetryCount isSep e task :
  RetryCount (Task (processUpload isSep e task)) = RetryCount task.
Proof.
  unfold processUpload.
  repeat (case_match; simpl; try reflexivity).
Qed.

Lemma worker_iteration_requeue isSep e task evs task' :
  worker_iteration isSep e task = (evs, Some task') →
  (0 ≤ RetryCount task < 3)%Z ∧ RetryCount task' = (RetryCount task + 1)%Z.
Proof.
  unfold worker_iteration.
  repeat (case_match; try discriminate).
  intros [= _ <-]. simpl.
  rewrite processUpload_RetryCount in *. lia.
Qed.

Section Lifecycle.

Variable IsPathSeparator : ascii → bool.

(** The attempts of one task: the worker that takes it from the queue runs
    [worker_iteration]; a task sent back to the queue is taken again, by
    this or another worker, which sees the environment of the next attempt.
    [envs n] is what attempt [n] observes. *)
Equations? task_lifecycle (envs : nat → AttemptEnv) (n : nat)
    (task : UploadTask) : list Event
    by wf (Z.to_nat (3 - RetryCount task)) lt :=
  task_lifecycle envs n task
    with inspect (worker_iteration IsPathSeparator (envs n) task) := {
    | @exist _ _ (pair evs None) _ => evs
    | @exist _ _ (pair evs (Some task')) Hiter =>
        evs ++ task_lifecycle envs (S n) task' }.
Proof.
  apply worker_iteration_requeue in Hiter. lia.
Qed.

End Lifecycle.

(** *** throttledReader *)

(** [io.Reader]: [Read(p)] with [len(p) = k] delivers at most [k] bytes,
    with or without an error. *)
Class Reader (R : Type) : Type := {
  reader_Read : R → nat → R * (string * option string);
  reader_Read_le : ∀ r k, String.length (reader_Read r k).2.1 ≤ k
}.

(** 64-bit integers: [int64] arithmetic wraps, [Time.Sub] saturates. *)
Definition MinInt64 : Z := - 2 ^ 63.
Definition MaxInt64 : Z := 2 ^ 63 - 1.
Definition wrap64 (z : Z) : Z := ((z + 2 ^ 63) mod 2 ^ 64 - 2 ^ 63)%Z.
Definition sat64 (z : Z) : Z := Z.max MinInt64 (Z.min MaxInt64 z).

Record throttledReader (R : Type) : Type := mkThrottled {
  reader : R;
  bytesPerSec : Z;
  bytesThisSec : Z;
  lastTimestamp : Z
}.
Arguments mkThrottled {R} reader bytesPerSec bytesThisSec lastTimestamp.
Arguments reader {R} _.
Arguments bytesPerSec {R} _.
Arguments bytesThisSec {R} _.
Arguments lastTimestamp {R} _.

(** [newThrottledReader]; [now] is the reading of [time.Now()]. *)
Definition newThrottledReader {R} (r : R) (bytesPerSec now : Z)
  : throttledReader R :=
  mkThrottled r bytesPerSec 0 now.

(** One call of [Read]: the length of [p] and the two advances of the
    monotonic clock, up to [now := time.Now()] and beyond the requested
    sleep up to the second [time.Now()]. *)
Record ReadCall : Type := mkReadCall {
  buf_len : nat;
  tick_entry : N;
  tick_wake : N
}.

(** What a call of [Read] did. [step_reset] says that the call set the
    counter to zero and started a new window. *)
Record ReadStep (R : Type) : Type := mkReadStep {
  step_clock : Z;
  step_reader : throttledReader R;
  step_reset : bool;
  step_slept : Z;
  step_quota : Z;
  step_result : outcome (string * option string)
}.
Arguments mkReadStep {R} _ _ _ _ _ _.
Arguments step_clock {R} _.
Arguments step_reader {R} _.
Arguments step_reset {R} _.
Arguments step_slept {R} _.
Arguments step_quota {R} _.
Arguments step_result {R} _.

Definition delivered {R} (s : ReadStep R) : Z :=
  match step_result s with
  | Returned (data, _) => Z.of_nat (String.length data)
  | _ => 0
  end.

(** [throttledReader.Read]. [clock] is the previous reading of the
    monotonic clock; [step_quota] is [maxBytes]. *)
Definition throttled_Read {R} `{Reader R} (clock : Z) (t : throttledReader R)
    (c : ReadCall) : ReadStep R :=
  let now := (clock + Z.of_N (tick_entry c))%Z in
  let elapsed := sat64 (now - lastTimestamp t) in
  (* Reset counter if more than a second has passed *)
  let window_over := (Second <=? elapsed)%Z in
  let count := if window_over then 0%Z else bytesThisSec t in
  let last := if window_over then now else lastTimestamp t in
  (* If we've read our quota for this interval, sleep *)
  let timeToSleep := wrap64 (Second - elapsed) in
  let sleeps := (bytesPerSec t <=? count)%Z && (0 <? timeToSleep)%Z in
  let wake := (now + timeToSleep + Z.of_N (tick_wake c))%Z in
  let count := if sleeps then 0%Z else count in
  let last := if sleeps then wake else last in
  let clock' := if sleeps then wake else now in
  (* Calculate how many bytes we can read without exceeding the limit *)
  let maxBytes := wrap64 (bytesPerSec t - count) in
  let maxBytes := if (maxBytes <=? 0)%Z then bytesPerSec t else maxBytes in
  (* Don't read more than maxBytes or the buffer size *)
  let toRead :=
    if (maxBytes <? Z.of_nat (buf_len c))%Z then maxBytes
    else Z.of_nat (buf_len c) in
  if (toRead <? 0)%Z then
    mkReadStep clock' (mkThrottled (reader t) (bytesPerSec t) count last)
      (window_over || sleeps) (if sleeps then timeToSleep else 0%Z) maxBytes
      (Panicked "slice bounds out of range")
  else
    let '(r', (data, err)) := reader_Read (reader t) (Z.to_nat toRead) in
    let count := wrap64 (count + Z.of_nat (String.length data)) in
    mkReadStep clock' (mkThrottled r' (bytesPerSec t) count last)
      (window_over || sleeps) (if sleeps then timeToSleep else 0%Z) maxBytes
      (Returned (data, err)).

(** A sequence of [Read] calls on one reader, oldest first. *)
Fixpoint throttled_run {R} `{Reader R} (clock : Z) (t : throttledReader R)
    (calls : list ReadCall) : list (ReadStep R) :=
  match calls with
  | [] => []
  | c :: rest =>
      let s := throttled_Read clock t c in
      s :: throttled_run (step_clock s) (step_reader s) rest
  end.

(** The bytes delivered in each tracked window: a window ends where a call
    resets the counter. [cur] is what the open window has delivered. *)
Fixpoint window_totals {R} (cur : Z) (log : list (ReadStep R)) : list Z :=
  match log with
  | [] => [cur]
  | s :: rest =>
      if step_reset s then cur :: window_totals (delivered s) rest
      else window_totals (cur + delivered s)%Z rest
  end.

(** The file [processUpload] wraps: the bytes not yet read. *)
Record FileReader : Type := mkFileReader { unread : string }.

Fixpoint take_bytes (k : nat) (s : string) : string * string :=
  match k, s with
  | S k', String c rest =>
      let '(front, back) := take_bytes k' rest in (String c front, back)
  | _, _ => (EmptyString, s)
  end.

Definition file_Read (f : FileReader) (k : nat)
  : FileReader * (string * option string) :=
  match k, unread f with
  | O, _ => (f, (EmptyString, None))
  | _, EmptyString => (f, (EmptyString, Some "EOF"))
  | _, _ =>
      let '(front, back) := take_bytes k (unread f) in
      (mkFileReader back, (front, None))
  end.

Lemma take_bytes_length k s : String.length (take_bytes k s).1 ≤ k.
Proof.
  revert s. induction k as [|k IH]; intros [|c rest]; simpl; try lia.
  specialize (IH rest). destruct (take_bytes k rest). simpl in *. lia.
Qed.

Lemma file_Read_le f k : String.length (file_Read f k).2.1 ≤ k.
Proof.
  unfold file_Read. destruct k as [|k]; [simpl; lia|].
  destruct (unread f) as [|c rest] eqn:E; [simpl; lia|].
  pose proof (take_bytes_length (S k) (String c rest)) as Hle.
  destruct (take_bytes (S k) (String c rest)). simpl in *. lia.
Qed.

#[export] Instance FileReader_Reader : Reader FileReader :=
  {| reader_Read := file_Read; reader_Read_le := file_Read_le |}.

(** The reader [processUpload] hands to the store: the file itself, or the
    file behind a throttled reader when a rate is configured. *)
Inductive UploadReader : Type :=
| Direct (file : FileReader)
| Throttled (t : throttledReader FileReader).

Definition upload_reader (throttleBytes now : Z) (file : FileReader)
  : UploadReader :=
  if (0 <? throttleBytes)%Z
  then Throttled (newThrottledReader file throttleBytes now)
  else Direct file.

End Uploader.

(** ** path/filepath.Walk over a directory tree *)
Module Filepath.
Import Uploader.

(** The tree [filepath.Walk] finds below a root, entries in the order
    [readDirNames] gives them. Every node carries its full path. *)
Inductive Tree : Type :=
| FileNode (path : string) (size modTime : Z)       (* lstat: not a directory *)
| BrokenNode (path : string) (err : string)         (* lstat failed *)
| DirNode (path : string) (modTime : Z)
    (readErr : option string)                       (* readDirNames failed *)
    (entries : list Tree).

(** What a [WalkFunc] returns: nil, [filepath.SkipDir] or another error. *)
Inductive Verdict : Type :=
| Continue
| SkipDir
| Abort (err : string).

Section Walk.

Context {S : Type}.

(** The [WalkFunc], with the state it closes over: path, info (nil when
    lstat failed) and the error handed in. *)
Variable fn : S → string → option FileInfo → option string → S * Verdict.

Fixpoint walk (t : Tree) (s : S) : S * Verdict :=
  match t with
  | FileNode path size modTime =>
      fn s path (Some (mkFileInfo false size modTime)) None
  | BrokenNode path err => fn s path None (Some err)
  | DirNode path modTime readErr entries =>
      let '(s, v) := fn s path (Some (mkFileInfo true 0 modTime)) readErr in
      match readErr, v with
      | None, Continue =>
          (fix walk_entries (l : list Tree) (s : S) : S * Verdict :=
             match l with
             | [] => (s, Continue)
             | child :: rest =>
                 let '(s, v) := walk child s in
                 match child, v with
                 | _, Continue => walk_entries rest s
                 | (BrokenNode _ _ | DirNode _ _ _ _), SkipDir =>
                     walk_entries rest s
                 | _, _ => (s, v)
                 end
             end) entries s
      | _, _ => (s, v)
      end
  end.

(** [filepath.Walk root fn], [t] being the tree at [root]: the final state
    and the error returned. *)
Definition Walk (t : Tree) (s : S) : S * option string :=
  let '(s, v) := walk t s in
  (s, match v with Abort err => Some err | _ => None end).

End Walk.

(** [strings.TrimPrefix]. *)
Fixpoint strip_prefix (prefix s : string) : option string :=
  match prefix, s with
  | EmptyString, _ => Some s
  | String a prefix', String b s' =>
      if Ascii.eqb a b then strip_prefix prefix' s' else None
  | String _ _, EmptyString => None
  end.

Definition TrimPrefix (s prefix : string) : string :=
  default s (strip_prefix prefix s).

End Filepath.

(** ** github.com/fsnotify/fsnotify: events *)
Module Fsnotify.

(** The operations of an event, one bit each. *)
Definition Create : Z := 1.
Definition Write : Z := 2.
Definition Remove : Z := 4.
Definition Rename : Z := 8.
Definition Chmod : Z := 16.

Record Event : Type := mkEvent {
  Name : string;
  Op : Z
}.

End Fsnotify.

(** ** agent/internal/watcher *)
Module Watcher.
Import Uploader Filepath.

Inductive EventType : Type :=
| EventCreate
| EventUpdate
| EventDelete
| EventRename.

Section ShouldExclude.

(** [filepath.Match pattern name]: the pair [(matched, err)]. *)
Variable Match : string → string → bool * option string.

(** The loop of [ShouldExclude] over the patterns. *)
Fixpoint exclude_loop (path : string) (patterns : list string) : bool :=
  match patterns with
  | [] => false
  | pattern :: rest =>
      match Match pattern path with
      | (_, Some _) => exclude_loop path rest       (* invalid: continue *)
      | (true, None) => true
      | (false, None) => exclude_loop path rest
      end
  end.

Definition ShouldExclude (path : string) (patterns : list string) : bool :=
  if length patterns =? 0 then false else exclude_loop path patterns.

End ShouldExclude.

(** *** FileWatcher *)

(** The watcher's registration set and the exclude patterns per root. *)
Record FileWatcher : Type := mkFileWatcher {
  watchedPaths : gset string;
  excludes : gmap string (list string)
}.

Definition NewFileWatcher : FileWatcher := mkFileWatcher ∅ ∅.

(** What the watcher sees of the host: [filepath.Abs], [os.Stat], the tree
    [filepath.Walk] finds at a root, and fsnotify's [Add] and [Remove]. *)
Record WatchEnv : Type := mkWatchEnv {
  filepath_Abs : string → io string;
  os_Stat : string → io FileInfo;
  tree_at : string → Tree;
  fsnotify_Add : string → option string;
  fsnotify_Remove : string → option string
}.

Section FileWatcher.

Variable Match : string → string → bool * option string.
Variable Rel : string → string → io string.
Variable IsAbs : string → bool.

Definition shouldExclude (fw : FileWatcher) (rootPath path : string) : bool :=
  match excludes fw !! rootPath with
  | Some patterns =>
      match Rel rootPath path with
      | Err _ => false
      | Ok relPath => ShouldExclude Match relPath patterns
      end
  | None => false
  end.

Definition isSubdirectory (child parent : string) : bool :=
  match Rel parent child with
  | Err _ => false
  | Ok rel => negb (String.eqb rel "..") && negb (IsAbs rel)
  end.

Definition add_watched (fw : FileWatcher) (path : string) : FileWatcher :=
  mkFileWatcher ({[path]} ∪ watchedPaths fw) (excludes fw).

(** The [WalkFunc] of [WatchPath]. *)
Definition watch_visit (env : WatchEnv) (absPath : string) (fw : FileWatcher)
    (walkPath : string) (info : option FileInfo) (err : option string)
  : FileWatcher * Verdict :=
  match err, info with
  | Some _, _ | None, None => (fw, Continue)
  | None, Some info =>
      if negb (IsDir info) then (fw, Continue)
      else if shouldExclude fw absPath walkPath then (fw, SkipDir)
      else
        match fsnotify_Add env walkPath with
        | Some _ => (fw, Continue)
        | None => (add_watched fw walkPath, Continue)
        end
  end.

Definition WatchPath (env : WatchEnv) (fw : FileWatcher) (path : string)
    (recursive : bool) (excludePatterns : list string)
  : FileWatcher * option string :=
  match filepath_Abs env path with
  | Err msg => (fw, Some ("failed to get absolute path: " +:+ msg))
  | Ok absPath =>
  match os_Stat env absPath with
  | Err msg => (fw, Some ("failed to stat path: " +:+ msg))
  | Ok fileInfo =>
      let fw :=
        if 0 <? length excludePatterns
        then mkFileWatcher (watchedPaths fw)
               (<[absPath := excludePatterns]> (excludes fw))
        else fw in
      if IsDir fileInfo && recursive then
        match Walk (watch_visit env absPath) (tree_at env absPath) fw with
        | (fw, Some msg) =>
            (fw, Some ("failed to recursively watch path: " +:+ msg))
        | (fw, None) => (fw, None)
        end
      else
        match fsnotify_Add env absPath with
        | Some msg => (fw, Some ("failed to watch path: " +:+ msg))
        | None => (add_watched fw absPath, None)
        end
  end end.

Definition RemovePath (env : WatchEnv) (fw : FileWatcher) (path : string)
  : FileWatcher * option string :=
  match filepath_Abs env path with
  | Err msg => (fw, Some ("failed to get absolute path: " +:+ msg))
  | Ok absPath =>
      let removed (watchedPath : string) : bool :=
        (String.eqb watchedPath absPath || isSubdirectory watchedPath absPath)
        && bool_decide (fsnotify_Remove env watchedPath = None) in
      (mkFileWatcher
         (filter (λ watchedPath, removed watchedPath = false) (watchedPaths fw))
         (delete absPath (excludes fw)), None)
  end.

Definition AddFolder env fw (path : string) (excludePatterns : list string) :=
  WatchPath env fw path true excludePatterns.

Definition RemoveFolder env fw (path : string) := RemovePath env fw path.

(** [WatchDirectory] and [UnwatchDirectory]. *)
Definition WatchDirectory env fw (path : string) := WatchPath env fw path true [].

Definition UnwatchDirectory env fw (path : string) := RemovePath env fw path.

(** *** The loop of [watch] *)

(** The range over [fw.excludes] for a directory just created; [roots] is
    the keys in the order the range takes them. The loop ends at the first
    root the directory is below and whose patterns do not exclude it. *)
Fixpoint watch_created (env : WatchEnv) (fw : FileWatcher) (name : string)
    (roots : list string) : FileWatcher :=
  match roots with
  | [] => fw
  | rootPath :: rest =>
      if isSubdirectory name rootPath && negb (shouldExclude fw rootPath name)
      then
        match fsnotify_Add env name with
        | None => add_watched fw name
        | Some _ => fw
        end                                             (* break *)
      else watch_created env fw name rest
  end.

Definition drop_watched (fw : FileWatcher) (name : string) : FileWatcher :=
  mkFileWatcher (watchedPaths fw ∖ {[name]}) (excludes fw).

(** One turn of the loop of [watch] on an event received from
    [fw.watcher.Events]: the watcher after it, and the type and path of the
    event handed to every handler, if one is. *)
Definition watch_event (env : WatchEnv) (roots : list string)
    (fw : FileWatcher) (event : Fsnotify.Event)
  : FileWatcher * option (EventType * string) :=
  let op := Fsnotify.Op event in
  let name := Fsnotify.Name event in
  if (Z.land op Fsnotify.Create =? Fsnotify.Create)%Z then
    (* If it's a new directory, we need to watch it too if recursive *)
    let fw :=
      match os_Stat env name with
      | Ok info => if IsDir info then watch_created env fw name roots else fw
      | Err _ => fw
      end in
    (fw, Some (EventCreate, name))
  else if (Z.land op Fsnotify.Write =? Fsnotify.Write)%Z then
    (fw, Some (EventUpdate, name))
  else if (Z.land op Fsnotify.Remove =? Fsnotify.Remove)%Z then
    (drop_watched fw name, Some (EventDelete, name))
  else if (Z.land op Fsnotify.Rename =? Fsnotify.Rename)%Z then
    (drop_watched fw name, Some (EventRename, name))
  else (fw, None).                                      (* Skip other events *)

End FileWatcher.

End Watcher.

(** ** agent/internal/config *)
Module Config.

Record SyncFolder : Type := mkSyncFolder {
  LocalPath : string;
  RemotePath : string;
  ExcludePatterns : list string;
  Enabled : bool
}.

Record Config : Type := mkConfig {
  IntervalMinutes : Z;
  AutoSync : bool;
  Folders : gmap string SyncFolder;
  filePath : string
}.

Definition DefaultConfig : Config :=
  {| IntervalMinutes := 15; AutoSync := true; Folders := ∅; filePath := "" |}.

Definition GetSyncFolder (c : Config) (id : string) : option SyncFolder :=
  Folders c !! id.

Definition SetSyncFolder (c : Config) (id : string) (folder : SyncFolder)
  : Config :=
  {| IntervalMinutes := IntervalMinutes c; AutoSync := AutoSync c;
     Folders := <[id := folder]> (Folders c); filePath := filePath c |}.

Definition RemoveSyncFolder (c : Config) (id : string) : Config :=
  {| IntervalMinutes := IntervalMinutes c; AutoSync := AutoSync c;
     Folders := delete id (Folders c); filePath := filePath c |}.

Definition GetAllFolders (c : Config) : gmap string SyncFolder := Folders c.

(** The files of the configuration: whether [os.Stat] finds the file, what
    reading and parsing it gives, and the error of writing it
    ([SaveConfigToFile]). *)
Record ConfigEnv : Type := mkConfigEnv {
  config_missing : string → bool;
  read_config : string → io Config;
  write_config : Config → string → option string
}.

Definition set_filePath (c : Config) (path : string) : Config :=
  {| IntervalMinutes := IntervalMinutes c; AutoSync := AutoSync c;
     Folders := Folders c; filePath := path |}.

Definition LoadConfig (env : ConfigEnv) (path : string) : io Config :=
  if config_missing env path then Ok (set_filePath DefaultConfig path)
  else
    match read_config env path with
    | Err msg => Err msg
    | Ok cfg => Ok (set_filePath cfg path)
    end.

Definition SaveConfig (env : ConfigEnv) (cfg : Config) : option string :=
  if String.eqb (filePath cfg) "" then Some "config file path not set"
  else write_config env cfg (filePath cfg).

End Config.

(** ** agent/internal/sync *)
Module Sync.
Import Chan Uploader Filepath Watcher.

Inductive SyncState : Type :=
| SyncStateIdle
| SyncStateScanning
| SyncStateSyncing
| SyncStateError
| SyncStatePaused.

Record SyncStats : Type := mkStats {
  TotalFiles : Z;
  FilesUploaded : Z;
  FilesDownloaded : Z;
  BytesUploaded : Z;
  BytesDownloaded : Z;
  LastSyncTime : Z;
  Errors : Z;
  StartTime : Z;
  Version : string
}.

Record FolderSync : Type := mkFolderSync {
  ID : string;
  Path : string;
  ExcludePatterns : list string;
  LastSync : Z;
  TwoWaySync : bool;
  Enabled : bool
}.

(** [SyncManager]. [folders] holds the registered folders by id; [watcher]
    is nil until [Start]. The storage backend is part of the environment. *)
Record SyncManager : Type := mkSyncManager {
  uploader : Uploader;
  watcher : option FileWatcher;
  config : Config.Config;
  stats : SyncStats;
  state : SyncState;
  deviceID : string;
  syncInterval : Z;
  folders : gmap string FolderSync
}.

Definition Minute : Z := 60 * Second.

Definition set_folders (sm : SyncManager) (fs : gmap string FolderSync) :=
  {| uploader := uploader sm; watcher := watcher sm; config := config sm;
     stats := stats sm; state := state sm; deviceID := deviceID sm;
     syncInterval := syncInterval sm; folders := fs |}.

Definition set_watcher (sm : SyncManager) (w : option FileWatcher) :=
  {| uploader := uploader sm; watcher := w; config := config sm;
     stats := stats sm; state := state sm; deviceID := deviceID sm;
     syncInterval := syncInterval sm; folders := folders sm |}.

Definition set_config (sm : SyncManager) (c : Config.Config) :=
  {| uploader := uploader sm; watcher := watcher sm; config := c;
     stats := stats sm; state := state sm; deviceID := deviceID sm;
     syncInterval := syncInterval sm; folders := folders sm |}.

Definition set_stats (sm : SyncManager) (st : SyncStats) :=
  {| uploader := uploader sm; watcher := watcher sm; config := config sm;
     stats := st; state := state sm; deviceID := deviceID sm;
     syncInterval := syncInterval sm; folders := folders sm |}.

Definition set_state (sm : SyncManager) (s : SyncState) :=
  {| uploader := uploader sm; watcher := watcher sm; config := config sm;
     stats := stats sm; state := s; deviceID := deviceID sm;
     syncInterval := syncInterval sm; folders := folders sm |}.

Definition set_uploader (sm : SyncManager) (u : Uploader) :=
  {| uploader := u; watcher := watcher sm; config := config sm;
     stats := stats sm; state := state sm; deviceID := deviceID sm;
     syncInterval := syncInterval sm; folders := folders sm |}.

Definition set_syncInterval (sm : SyncManager) (d : Z) :=
  {| uploader := uploader sm; watcher := watcher sm; config := config sm;
     stats := stats sm; state := state sm; deviceID := deviceID sm;
     syncInterval := d; folders := folders sm |}.

(** The folder entry built from a configuration entry, in
    [NewSyncManager] and in [ReloadConfiguration]. *)
Definition folder_of_config (id : string) (folder : Config.SyncFolder)
  : FolderSync :=
  {| ID := id;
     Path := Config.LocalPath folder;
     ExcludePatterns := Config.ExcludePatterns folder;
     LastSync := 0;                 (* Never synced *)
     TwoWaySync := false;           (* Default to one-way sync *)
     Enabled := Config.Enabled folder |}.

(** [NewSyncManager]; [deviceID] is [generateRandomID()] and [now] is
    [time.Now()]. *)
Definition NewSyncManager (cfg : Config.Config) (u : Uploader)
    (deviceID : string) (now : Z) : SyncManager :=
  {| uploader := u;
     watcher := None;
     config := cfg;
     stats := {| TotalFiles := 0; FilesUploaded := 0; FilesDownloaded := 0;
                 BytesUploaded := 0; BytesDownloaded := 0; LastSyncTime := 0;
                 Errors := 0; StartTime := now; Version := "1.0.0" |};
     state := SyncStateIdle;
     deviceID := deviceID;
     syncInterval := Config.IntervalMinutes cfg * Minute;
     folders := map_imap (λ id folder, Some (folder_of_config id folder))
                  (Config.GetAllFolders cfg) |}.

(** What the folder operations see of the host. [os_Stat_path] is the
    [os.Stat] of the manager itself; the watcher has its own view, read
    later. *)
Record ManagerEnv : Type := mkManagerEnv {
  os_Stat_path : string → io FileInfo;
  uuid_New : string;
  fsnotify_NewWatcher : option string;
  watch_env : WatchEnv;
  config_env : Config.ConfigEnv
}.

Definition set_ID (f : FolderSync) (id : string) : FolderSync :=
  {| ID := id; Path := Path f; ExcludePatterns := ExcludePatterns f;
     LastSync := LastSync f; TwoWaySync := TwoWaySync f;
     Enabled := Enabled f |}.

Definition set_Enabled (f : FolderSync) (b : bool) : FolderSync :=
  {| ID := ID f; Path := Path f; ExcludePatterns := ExcludePatterns f;
     LastSync := LastSync f; TwoWaySync := TwoWaySync f; Enabled := b |}.

Definition set_LastSync (f : FolderSync) (t : Z) : FolderSync :=
  {| ID := ID f; Path := Path f; ExcludePatterns := ExcludePatterns f;
     LastSync := t; TwoWaySync := TwoWaySync f; Enabled := Enabled f |}.

(** [for _, f := range sm.folders { if f.Path == folder.Path ... }]. *)
Definition path_registered (fs : gmap string FolderSync) (path : string)
  : bool :=
  existsb (λ entry, String.eqb (Path entry.2) path) (map_to_list fs).

Definition config_entry (folder : FolderSync) : Config.SyncFolder :=
  {| Config.LocalPath := Path folder;
     Config.RemotePath := ID folder;
     Config.ExcludePatterns := ExcludePatterns folder;
     Config.Enabled := Enabled folder |}.

Section FolderManagement.

Variable Match : string → string → bool * option string.
Variable Rel : string → string → io string.
Variable IsAbs : string → bool.

(** [AddFolder]. The result carries the manager, the caller's folder
    object after the call (its [ID] may have been generated) and the error
    returned. *)
Definition AddFolder (env : ManagerEnv) (sm : SyncManager)
    (folder : FolderSync) : SyncManager * FolderSync * option string :=
  (* Validate folder *)
  if String.eqb (Path folder) "" then
    (sm, folder, Some "folder path cannot be empty")
  else
  (* Check if path exists *)
  match os_Stat_path env (Path folder) with
  | Err msg => (sm, folder, Some ("folder path error: " +:+ msg))
  | Ok info =>
  if negb (IsDir info) then
    (sm, folder, Some ("path is not a directory: " +:+ Path folder))
  else
  (* Generate ID if not provided *)
  let folder :=
    if String.eqb (ID folder) "" then set_ID folder (uuid_New env)
    else folder in
  (* Check if already exists *)
  if path_registered (folders sm) (Path folder) then
    (sm, folder, Some ("folder already added with path: " +:+ Path folder))
  else
  (* Add to sync manager *)
  let sm := set_folders sm (<[ID folder := folder]> (folders sm)) in
  (* Add to watcher if enabled *)
  let watched :=
    match (if Enabled folder then watcher sm else None) with
    | Some fw =>
        let '(fw, err) := Watcher.AddFolder Match Rel (watch_env env) fw
                            (Path folder)
                            (ExcludePatterns folder) in
        (set_watcher sm (Some fw), err)
    | None => (sm, None)
    end in
  match watched with
  | (sm, Some msg) => (sm, folder, Some ("failed to watch folder: " +:+ msg))
  | (sm, None) =>
  (* Update config *)
  let cfg := Config.SetSyncFolder (config sm) (ID folder) (config_entry folder) in
  let sm := set_config sm cfg in
  match Config.SaveConfig (config_env env) cfg with
  | Some msg => (sm, folder, Some ("failed to save config: " +:+ msg))
  | None => (sm, folder, None)
  end end end.

(** [sm.watcher.RemoveFolder(path)] where the error is only logged. *)
Definition unwatch (env : ManagerEnv) (w : option FileWatcher) (path : string)
  : option FileWatcher :=
  match w with
  | Some fw => Some (Watcher.RemoveFolder Rel IsAbs (watch_env env) fw path).1
  | None => None
  end.

Definition RemoveFolder (env : ManagerEnv) (sm : SyncManager)
    (folderID : string) : SyncManager * option string :=
  match folders sm !! folderID with
  | None => (sm, Some ("folder with ID " +:+ folderID +:+ " not found"))
  | Some folder =>
      (* Remove from watcher if it's running *)
      let sm :=
        if Enabled folder then set_watcher sm (unwatch env (watcher sm) (Path folder))
        else sm in
      (* Remove from folders map *)
      let sm := set_folders sm (delete folderID (folders sm)) in
      (* Update config *)
      let cfg := Config.RemoveSyncFolder (config sm) folderID in
      let sm := set_config sm cfg in
      match Config.SaveConfig (config_env env) cfg with
      | Some msg => (sm, Some ("failed to save config: " +:+ msg))
      | None => (sm, None)
      end
  end.

(** The common end of [EnableFolder] and [DisableFolder]: the [Enabled]
    flag of the configuration entry, when there is one, and the save. *)
Definition persist_enabled (env : ManagerEnv) (sm : SyncManager)
    (folderID : string) (enabled : bool) : SyncManager * option string :=
  let cfg :=
    match Config.GetSyncFolder (config sm) folderID with
    | Some f =>
        Config.SetSyncFolder (config sm) folderID
          {| Config.LocalPath := Config.LocalPath f;
             Config.RemotePath := Config.RemotePath f;
             Config.ExcludePatterns := Config.ExcludePatterns f;
             Config.Enabled := enabled |}
    | None => config sm
    end in
  let sm := set_config sm cfg in
  match Config.SaveConfig (config_env env) cfg with
  | Some msg => (sm, Some ("failed to save config: " +:+ msg))
  | None => (sm, None)
  end.

Definition EnableFolder (env : ManagerEnv) (sm : SyncManager)
    (folderID : string) : SyncManager * option string :=
  match folders sm !! folderID with
  | None => (sm, Some ("folder with ID " +:+ folderID +:+ " not found"))
  | Some folder =>
      if Enabled folder then (sm, None)      (* Already enabled *)
      else
        let folder := set_Enabled folder true in
        let sm := set_folders sm (<[folderID := folder]> (folders sm)) in
        (* Add to watcher if it's running *)
        let watched :=
          match watcher sm with
          | Some fw =>
              let '(fw, err) := Watcher.AddFolder Match Rel (watch_env env) fw
                                  (Path folder) (ExcludePatterns folder) in
              (set_watcher sm (Some fw), err)
          | None => (sm, None)
          end in
        match watched with
        | (sm, Some msg) => (sm, Some ("failed to watch folder: " +:+ msg))
        | (sm, None) => persist_enabled env sm folderID true
        end
  end.

Definition DisableFolder (env : ManagerEnv) (sm : SyncManager)
    (folderID : string) : SyncManager * option string :=
  match folders sm !! folderID with
  | None => (sm, Some ("folder with ID " +:+ folderID +:+ " not found"))
  | Some folder =>
      if negb (Enabled folder) then (sm, None)      (* Already disabled *)
      else
        let folder := set_Enabled folder false in
        let sm := set_folders sm (<[folderID := folder]> (folders sm)) in
        (* Remove from watcher if it's running *)
        let sm := set_watcher sm (unwatch env (watcher sm) (Path folder)) in
        persist_enabled env sm folderID false
  end.

(** [UpdateFolder]. Every assignment to the registered folder is written
    back at once: the entry keeps what was assigned before an error. *)
Definition UpdateFolder (env : ManagerEnv) (sm : SyncManager)
    (folderID : string) (update : FolderSync) : SyncManager * option string :=
  match folders sm !! folderID with
  | None => (sm, Some ("folder with ID " +:+ folderID +:+ " not found"))
  | Some folder =>
      (* Remove from watcher if it was enabled *)
      let sm :=
        if Enabled folder then set_watcher sm (unwatch env (watcher sm) (Path folder))
        else sm in
      (* Update folder properties *)
      let folder :=
        {| ID := ID folder; Path := Path folder;
           ExcludePatterns := ExcludePatterns update;
           LastSync := LastSync folder;
           TwoWaySync := TwoWaySync update;
           Enabled := Enabled folder |} in
      let sm := set_folders sm (<[folderID := folder]> (folders sm)) in
      (* Only update path if it's provided and different *)
      let checked : io FolderSync :=
        if negb (String.eqb (Path update) "")
           && negb (String.eqb (Path update) (Path folder)) then
          match os_Stat_path env (Path update) with
          | Err msg => Err ("folder path error: " +:+ msg)
          | Ok info =>
              if negb (IsDir info)
              then Err ("path is not a directory: " +:+ Path update)
              else Ok {| ID := ID folder; Path := Path update;
                         ExcludePatterns := ExcludePatterns folder;
                         LastSync := LastSync folder;
                         TwoWaySync := TwoWaySync folder;
                         Enabled := Enabled folder |}
          end
        else Ok folder in
      match checked with
      | Err msg => (sm, Some msg)
      | Ok folder =>
      let sm := set_folders sm (<[folderID := folder]> (folders sm)) in
      (* Add back to watcher if enabled *)
      let watched :=
        match (if Enabled update then watcher sm else None) with
        | Some fw =>
            let '(fw, err) := Watcher.AddFolder Match Rel (watch_env env) fw
                                (Path folder) (ExcludePatterns folder) in
            (set_watcher sm (Some fw), err)
        | None => (sm, None)
        end in
      match watched with
      | (sm, Some msg) => (sm, Some ("failed to watch folder: " +:+ msg))
      | (sm, None) =>
      let folder := set_Enabled folder (Enabled update) in
      let sm := set_folders sm (<[folderID := folder]> (folders sm)) in
      (* Update config *)
      let cfg :=
        match Config.GetSyncFolder (config sm) folderID with
        | Some f =>
            Config.SetSyncFolder (config sm) folderID
              {| Config.LocalPath := Path folder;
                 Config.RemotePath := Config.RemotePath f;
                 Config.ExcludePatterns := ExcludePatterns folder;
                 Config.Enabled := Enabled folder |}
        | None => config sm
        end in
      let sm := set_config sm cfg in
      match Config.SaveConfig (config_env env) cfg with
      | Some msg => (sm, Some ("failed to save config: " +:+ msg))
      | None => (sm, None)
      end end end
  end.

(** *** ReloadConfiguration *)

(** The state the loops of [ReloadConfiguration] work on: the registry, the
    watcher and [existingFolders]. *)
Definition reload_state : Type :=
  gmap string FolderSync * option FileWatcher * gmap string FolderSync.

(** One iteration of the loop over [newCfg.GetAllFolders()]. *)
Definition reload_entry (env : ManagerEnv) (st : reload_state)
    (entry : string * Config.SyncFolder) : reload_state :=
  let '(fs, w, existingFolders) := st in
  let '(id, folderConfig) := entry in
  match existingFolders !! id with
  | Some existingFolder =>
      (* Update existing folder if needed *)
      let '(fs, w) :=
        if negb (String.eqb (Path existingFolder) (Config.LocalPath folderConfig))
           || negb (Bool.eqb (Enabled existingFolder) (Config.Enabled folderConfig))
        then
          let existingFolder :=
            {| ID := ID existingFolder;
               Path := Config.LocalPath folderConfig;
               ExcludePatterns := Config.ExcludePatterns folderConfig;
               LastSync := LastSync existingFolder;
               TwoWaySync := TwoWaySync existingFolder;
               Enabled := Config.Enabled folderConfig |} in
          let fs := <[id := existingFolder]> fs in
          (* Update watcher if needed *)
          let w :=
            match w with
            | Some fw =>
                let fw := (Watcher.RemoveFolder Rel IsAbs (watch_env env) fw
                             (Path existingFolder)).1 in
                if Enabled existingFolder then
                  Some (Watcher.AddFolder Match Rel (watch_env env) fw
                          (Config.LocalPath folderConfig)
                          (Config.ExcludePatterns folderConfig)).1
                else Some fw
            | None => None
            end in
          (fs, w)
        else (fs, w) in
      (* Remove from existing folders map *)
      (fs, w, delete id existingFolders)
  | None =>
      (* Add new folder *)
      let fs := <[id := folder_of_config id folderConfig]> fs in
      (* Add to watcher if enabled *)
      let w :=
        match (if Config.Enabled folderConfig then w else None) with
        | Some fw =>
            Some (Watcher.AddFolder Match Rel (watch_env env) fw
                    (Config.LocalPath folderConfig)
                    (Config.ExcludePatterns folderConfig)).1
        | None => w
        end in
      (fs, w, existingFolders)
  end.

(** One iteration of the loop over what is left in [existingFolders]. *)
Definition reload_drop (env : ManagerEnv)
    (st : gmap string FolderSync * option FileWatcher)
    (entry : string * FolderSync)
  : gmap string FolderSync * option FileWatcher :=
  let '(fs, w) := st in
  let '(id, folder) := entry in
  let w := if Enabled folder then unwatch env w (Path folder) else w in
  (delete id fs, w).

(** [ReloadConfiguration]. Go ranges over a map in an order of its own; the
    loops run here in the order of [map_to_list]. *)
Definition ReloadConfiguration (env : ManagerEnv) (sm : SyncManager)
  : SyncManager * option string :=
  match Config.LoadConfig (config_env env) "" with
  | Err msg => (sm, Some ("failed to reload configuration: " +:+ msg))
  | Ok newCfg =>
      let existingFolders := folders sm in
      let sm := set_config sm newCfg in
      let '(fs, w, existingFolders) :=
        foldl (reload_entry env) (folders sm, watcher sm, existingFolders)
          (map_to_list (Config.GetAllFolders newCfg)) in
      let '(fs, w) :=
        foldl (reload_drop env) (fs, w) (map_to_list existingFolders) in
      let sm := set_watcher (set_folders sm fs) w in
      (* Update sync interval if changed *)
      let newInterval := (Config.IntervalMinutes newCfg * Minute)%Z in
      let sm :=
        if negb (syncInterval sm =? newInterval)%Z
        then set_syncInterval sm newInterval else sm in
      (sm, None)
  end.

(** *** Start, PauseSync, ResumeSync *)

(** [Start]: the watcher is created and every enabled folder registered;
    a folder that cannot be watched is logged. The goroutines it starts
    ([periodicSync], the first [FullSync]) are calls of [FullSync]. *)
Definition Start (env : ManagerEnv) (sm : SyncManager)
  : SyncManager * option string :=
  match fsnotify_NewWatcher env with
  | Some msg =>
      (sm, Some ("failed to create file watcher: "
                   +:+ "failed to create file watcher: " +:+ msg))
  | None =>
      let fw :=
        foldl (λ fw (entry : string * FolderSync),
                 if Enabled entry.2
                 then (WatchPath Match Rel (watch_env env) fw (Path entry.2)
                         true (ExcludePatterns entry.2)).1
                 else fw)
          NewFileWatcher (map_to_list (folders sm)) in
      (set_watcher sm (Some fw), None)
  end.

Definition PauseSync (sm : SyncManager) : SyncManager :=
  match state sm with
  | SyncStateIdle | SyncStateSyncing | SyncStateScanning =>
      set_state sm SyncStatePaused
  | _ => sm
  end.

Definition ResumeSync (sm : SyncManager) : SyncManager :=
  match state sm with
  | SyncStatePaused => set_state sm SyncStateIdle
  | _ => sm
  end.

End FolderManagement.

(** *** syncFolder and downloadFromRemote *)

(** [storage.FileInfo]. *)
Record RemoteFile : Type := mkRemoteFile {
  RemoteKey : string;
  RemoteSize : Z;
  LastModified : Z;
  ETag : string
}.

(** What a synchronisation pass sees of the host and of the storage
    backend. The two walks of a pass read the disk at different moments and
    get a tree each. [storage_DownloadFile key] is the bytes written to the
    writer and the error returned; with no error the bytes are the content
    of the object. *)
Record SyncEnv : Type := mkSyncEnv {
  scan_tree : string → Tree;
  upload_time : string → string;
  time_now : Z;
  storage_ListFiles : string → io (list RemoteFile);
  local_tree : string → Tree;
  ctx_Done : nat → bool;
  os_MkdirAll : string → option string;
  os_Create : string → option string;
  storage_DownloadFile : string → string * option string;
  os_Chtimes : string → Z → option string
}.

(** The calls of a pass that reach the storage backend or change the
    disk, in order. A call that failed without effect is left out. *)
Inductive SyncOp : Type :=
| OpListFiles (prefix : string)
| OpMkdirAll (dir : string)
| OpCreate (path : string)
| OpDownload (key path data : string) (err : option string)
| OpChtimes (path : string) (t : Z).

Definition add_error (st : SyncStats) : SyncStats :=
  {| TotalFiles := TotalFiles st; FilesUploaded := FilesUploaded st;
     FilesDownloaded := FilesDownloaded st; BytesUploaded := BytesUploaded st;
     BytesDownloaded := BytesDownloaded st; LastSyncTime := LastSyncTime st;
     Errors := Errors st + 1; StartTime := StartTime st;
     Version := Version st |}.

Definition add_download (st : SyncStats) (size : Z) : SyncStats :=
  {| TotalFiles := TotalFiles st; FilesUploaded := FilesUploaded st;
     FilesDownloaded := FilesDownloaded st + 1;
     BytesUploaded := BytesUploaded st;
     BytesDownloaded := BytesDownloaded st + size;
     LastSyncTime := LastSyncTime st;
     Errors := Errors st; StartTime := StartTime st; Version := Version st |}.

Definition set_LastSyncTime (st : SyncStats) (t : Z) : SyncStats :=
  {| TotalFiles := TotalFiles st; FilesUploaded := FilesUploaded st;
     FilesDownloaded := FilesDownloaded st; BytesUploaded := BytesUploaded st;
     BytesDownloaded := BytesDownloaded st; LastSyncTime := t;
     Errors := Errors st; StartTime := StartTime st; Version := Version st |}.

Section Synchronisation.

Variable Separator : ascii.
Variable Match : string → string → bool * option string.
Variable Rel : string → string → io string.
Variable Join : string → string → string.
Variable Dir : string → string.
Variable Clean : string → string.
Variable IsAbs : string → bool.

(** The [WalkFunc] of [downloadFromRemote]: the table of local files, by
    folder-relative path, with their modification times. *)
Definition local_visit (folder : FolderSync) (localFiles : gmap string Z)
    (path : string) (info : option FileInfo) (err : option string)
  : gmap string Z * Verdict :=
  match err, info with
  | Some _, _ | None, None => (localFiles, Continue)
  | None, Some info =>
      if negb (IsDir info) then
        match Rel (Path folder) path with
        | Err _ => (localFiles, Continue)
        | Ok relPath =>
            (* Skip excluded files *)
            if ShouldExclude Match relPath (ExcludePatterns folder)
            then (localFiles, Continue)
            else (<[relPath := ModTime info]> localFiles, Continue)
        end
      else (localFiles, Continue)
  end.

(** [!exists || remoteFile.LastModified.After(localModTime)]. *)
Definition wants_download (localFiles : gmap string Z) (remotePath : string)
    (remoteFile : RemoteFile) : bool :=
  match localFiles !! remotePath with
  | None => true
  | Some localModTime => (localModTime <? LastModified remoteFile)%Z
  end.

(** The loop of [downloadFromRemote] over the remote files, [i] counting
    the iterations. *)
Fixpoint download_loop (env : SyncEnv) (folder : FolderSync)
    (localFiles : gmap string Z) (i : nat) (remoteFiles : list RemoteFile)
    (st : SyncStats) : SyncStats * list SyncOp * option string :=
  match remoteFiles with
  | [] => (st, [], None)
  | remoteFile :: rest =>
      if ctx_Done env i then (st, [], Some "context canceled")
      else
        let continue (st : SyncStats) (ops : list SyncOp) :=
          let '(st, ops', err) :=
            download_loop env folder localFiles (S i) rest st in
          (st, ops ++ ops', err) in
        let remotePath :=
          TrimPrefix (RemoteKey remoteFile) (ID folder +:+ "/") in
        if wants_download localFiles remotePath remoteFile then
          let localPath := Join (Path folder) remotePath in
          (* Ensure parent directory exists *)
          match os_MkdirAll env (Dir localPath) with
          | Some _ => continue st []
          | None =>
          (* Create file for writing *)
          match os_Create env localPath with
          | Some _ => continue (add_error st) [OpMkdirAll (Dir localPath)]
          | None =>
          (* Download the file *)
          let '(data, err) := storage_DownloadFile env (RemoteKey remoteFile) in
          let ops := [OpMkdirAll (Dir localPath); OpCreate localPath;
                      OpDownload (RemoteKey remoteFile) localPath data err] in
          match err with
          | Some _ => continue (add_error st) ops
          | None =>
          (* Update stats *)
          let st := add_download st (RemoteSize remoteFile) in
          (* Set file modification time to match remote *)
          match os_Chtimes env localPath (LastModified remoteFile) with
          | Some _ => continue st ops
          | None =>
              continue st (ops ++ [OpChtimes localPath (LastModified remoteFile)])
          end end end end
        else continue st []
  end.

Definition downloadFromRemote (env : SyncEnv) (folder : FolderSync)
    (st : SyncStats) : SyncStats * list SyncOp * option string :=
  (* Get remote file list for this folder *)
  match storage_ListFiles env (ID folder) with
  | Err msg =>
      (st, [OpListFiles (ID folder)],
       Some ("failed to list remote files: " +:+ msg))
  | Ok remoteFiles =>
      (* Create a map of local files with their modification times *)
      let localFiles :=
        (Walk (local_visit folder) (local_tree env (Path folder)) ∅).1 in
      (* Download files that are newer on remote or don't exist locally *)
      let '(st, ops, err) :=
        download_loop env folder localFiles 0 remoteFiles st in
      (st, OpListFiles (ID folder) :: ops, err)
  end.

(** The [WalkFunc] of [syncFolder], closing over the uploader; a panic of
    [QueueFile] ends the walk and is kept beside the uploader. *)
Definition scan_visit (env : SyncEnv) (folder : FolderSync)
    (st : Uploader * option string)
    (path : string) (info : option FileInfo) (err : option string)
  : Uploader * option string * Verdict :=
  let '(u, panic) := st in
  match err, info with
  | Some msg, _ => (st, Abort msg)
  | None, None => (st, Abort "nil FileInfo")
  | None, Some info =>
      (* Skip directories for now *)
      if IsDir info then (st, Continue)
      else
        (* Check if the path matches any exclude patterns *)
        match Rel (Path folder) path with
        | Err msg => (st, Abort msg)
        | Ok relPath =>
            if ShouldExclude Match relPath (ExcludePatterns folder)
            then (st, Continue)
            else
              (* Queue the file for upload *)
              match QueueFile Separator Rel u (upload_time env path) path
                      (Path folder) with
              | (u, Returned _) => (u, panic, Continue)   (* errors are logged *)
              | (u, Blocked) => (u, panic, Continue)
              | (u, Panicked msg) => (u, Some msg, Abort msg)
              end
        end
  end.

(** [syncFolder] for the folder registered under [id]. *)
Definition syncFolder (env : SyncEnv) (sm : SyncManager) (id : string)
    (folder : FolderSync)
  : SyncManager * list SyncOp * outcome (option string) :=
  let sm := set_state sm SyncStateSyncing in
  (* Walk through all files in the folder *)
  let '(u, panic, err) :=
    Walk (scan_visit env folder) (scan_tree env (Path folder))
      (uploader sm, None) in
  let sm := set_uploader sm u in
  match panic, err with
  | Some msg, _ => (sm, [], Panicked msg)
  | None, Some msg =>
      (sm, [], Returned (Some ("failed to walk directory: " +:+ msg)))
  | None, None =>
      (* Update last sync time *)
      let folder := set_LastSync folder (time_now env) in
      let sm := set_folders sm (<[id := folder]> (folders sm)) in
      (* If two-way sync is enabled, download files from remote *)
      if TwoWaySync folder then
        let '(st, ops, err) := downloadFromRemote env folder (stats sm) in
        let sm := set_stats sm st in
        match err with
        | Some msg =>
            (sm, ops, Returned (Some ("failed to download from remote: " +:+ msg)))
        | None => (sm, ops, Returned None)
        end
      else (sm, [], Returned None)
  end.

(** The loop of [FullSync] over the enabled folders. *)
Fixpoint sync_folders (env : string → SyncEnv) (sm : SyncManager)
    (l : list (string * FolderSync))
  : SyncManager * list SyncOp * option string :=
  match l with
  | [] => (sm, [], None)
  | (id, folder) :: rest =>
      match syncFolder (env id) sm id folder with
      | (sm, ops, Panicked msg) => (sm, ops, Some msg)
      | (sm, ops, result) =>
          let sm :=
            match result with
            | Returned (Some _) => set_stats sm (add_error (stats sm))
            | _ => sm
            end in
          let '(sm, ops', panic) := sync_folders env sm rest in
          (sm, ops ++ ops', panic)
      end
  end.

(** [FullSync]; [env id] is what the pass over folder [id] sees and [now]
    the final [time.Now()]. It returns nil unless a panic unwinds it. *)
Definition FullSync (env : string → SyncEnv) (now : Z) (sm : SyncManager)
  : SyncManager * list SyncOp * outcome (option string) :=
  let sm := set_state sm SyncStateScanning in
  let enabled :=
    filter (λ entry : string * FolderSync, Enabled entry.2 = true)
      (map_to_list (folders sm)) in
  match sync_folders env sm enabled with
  | (sm, ops, Some msg) => (set_state sm SyncStateIdle, ops, Panicked msg)
  | (sm, ops, None) =>
      let sm := set_stats sm (set_LastSyncTime (stats sm) now) in
      (set_state sm SyncStateIdle, ops, Returned None)
  end.

Definition SyncFolderByID (env : SyncEnv) (sm : SyncManager)
    (folderID : string)
  : SyncManager * list SyncOp * outcome (option string) :=
  match folders sm !! folderID with
  | None =>
      (sm, [], Returned (Some ("folder with ID " +:+ folderID +:+ " not found")))
  | Some folder => syncFolder env sm folderID folder
  end.

(** [SyncNow]: one folder, or all of them when no id is given. *)
Definition SyncNow (env : string → SyncEnv) (now : Z) (sm : SyncManager)
    (folderID : string)
  : SyncManager * list SyncOp * outcome (option string) :=
  if negb (String.eqb folderID "") then SyncFolderByID (env folderID) sm folderID
  else FullSync env now sm.

(** *** handleFileEvent *)

Inductive EventType : Type :=
| EventCreate
| EventUpdate
| EventDelete
| EventRename.

Definition isSubPath (parent child : string) : bool :=
  match Rel (Clean parent) (Clean child) with
  | Err _ => false
  | Ok relative => negb (String.eqb relative "..") && negb (IsAbs relative)
  end.

(** [handleFileEvent]: the first enabled folder that owns the path, in the
    order of the range over the registry (here [map_to_list]). *)
Definition handleFileEvent (sm : SyncManager) (now_rfc3339 : string)
    (type : EventType) (path : string)
  : SyncManager * outcome (option string) :=
  let owner :=
    find (λ entry : string * FolderSync,
            negb (String.eqb path "") && isSubPath (Path entry.2) path
            && Enabled entry.2)
      (map_to_list (folders sm)) in
  match owner with
  | None => (sm, Returned None)
  | Some (_, folder) =>
      if String.eqb (Path folder) "" then (sm, Returned None)
      else
        match type with
        | EventCreate | EventUpdate =>
            let '(u, r) := QueueFile Separator Rel (uploader sm) now_rfc3339
                             path (Path folder) in
            (set_uploader sm u, r)
        | EventDelete | EventRename => (sm, Returned None)
        end
  end.

End Synchronisation.

End Sync.

(** * Properties *)

(** ** The upload queue *)

Import Chan Uploader.




Lemma try_send_keeps {A} (c c' : chan A) v :
  try_send c v = Sent c' →
  cap c' = cap c ∧ closed c' = false ∧ buf c' = buf c ++ [v]
  ∧ length (buf c) < cap c.
Proof.
  unfold try_send. destruct (closed c); [discriminate|].
  destruct (Nat.ltb_spec (length (buf c)) (cap c)); [|discriminate].
  intros [= <-]. simpl. auto.
Qed.



(** The queue of a running uploader holding 1000 tasks, for the examples. *)
Definition example_task (n : nat) : UploadTask :=
  {| FilePath := "/data/docs/report.txt"; Key := "report.txt"; FolderID := "";
     Priority := 1; Metadata := None; RetryCount := 0;
     LastAttempt := Z.of_nat n |}.





(** ** The retries of a task *)

Lemma task_lifecycle_unfold isSep envs n task :
  task_lifecycle isSep envs n task =
  match worker_iteration isSep (envs n) task with
  | (evs, None) => evs
  | (evs, Some task') => evs ++ task_lifecycle isSep envs (S n) task'
  end.
Proof.
  funelim (task_lifecycle isSep envs n task).
  - rewrite Hiter. reflexivity.
  - match goal with E : worker_iteration _ _ _ = (_, None) |- _ => rewrite E end.
    reflexivity.
Qed.

(** The attempts, published results, waits and re-queued tasks of a
    trace, in order. *)
Definition attempts (trace : list Event) : list UploadTask :=
  omap (λ e, match e with EvAttempt t => Some t | _ => None end) trace.

Definition results (trace : list Event) : list UploadResult :=
  omap (λ e, match e with EvResult r => Some r | _ => None end) trace.

Definition backoffs (trace : list Event) : list Z :=
  omap (λ e, match e with EvBackoff d => Some d | _ => None end) trace.

Definition requeued (trace : list Event) : list UploadTask :=
  omap (λ e, match e with EvRequeue t => Some t | _ => None end) trace.

(** A result after which the worker does not send the task back. *)
Definition terminal (r : UploadResult) : bool :=
  Success r || (3 <=? RetryCount (Task r))%Z.

(** The context is not seen cancelled while the task is in the pipeline:
    not when the task is picked up, and not during the backoff. *)
Definition not_cancelled (e : AttemptEnv) : Prop :=
  done_at_pickup e = false ∧ done_at_backoff e = false.

(** Both sends of the iteration complete: the result channel has room or
    a receiver when the result is sent, and so has the task queue when the
    task is sent back; no send parks the worker, gives way to the
    cancellation, or finds its channel closed. *)
Definition sends_complete (e : AttemptEnv) : Prop :=
  publish e = SendTaken ∧ requeue e = SendTaken.

(** Every attempt to upload the file of [task] under its key fails; other
    files may well be uploaded. *)
Definition always_fails (isSep : ascii → bool) (envs : nat → AttemptEnv)
    (task : UploadTask) : Prop :=
  ∀ n t, FilePath t = FilePath task → Key t = Key task →
         Success (processUpload isSep (upload_env (envs n)) t) = false.

Lemma processUpload_FilePath isSep e task :
  FilePath (Task (processUpload isSep e task)) = FilePath task.
Proof.
  unfold processUpload.
  repeat (case_match; simpl; try reflexivity).
Qed.

Lemma processUpload_Key isSep e task :
  Key (Task (processUpload isSep e task)) = Key task.
Proof.
  unfold processUpload.
  repeat (case_match; simpl; try reflexivity).
Qed.

Lemma worker_iteration_retry isSep e task :
  not_cancelled e → sends_complete e →
  Success (processUpload isSep (upload_env e) task) = false →
  (0 ≤ RetryCount task < 3)%Z →
  let result := processUpload isSep (upload_env e) task in
  let task' := set_retry (Task result) (RetryCount task + 1) (time_Now e) in
  worker_iteration isSep e task =
  ([EvAttempt task; EvResult result;
    EvBackoff (2 ^ RetryCount task * Second); EvRequeue task'], Some task').
Proof.
  intros (H1 & H3) (H2 & H4) Hfail Hrc. unfold worker_iteration.
  rewrite H1, H2, H3, H4, Hfail, processUpload_RetryCount. simpl.
  destruct (Z.ltb_spec (RetryCount task) 3); [|lia].
  destruct (Z.ltb_spec (RetryCount task) 0); [lia|].
  rewrite Z.shiftl_1_l. reflexivity.
Qed.

Lemma worker_iteration_terminal isSep e task :
  not_cancelled e → sends_complete e →
  terminal (processUpload isSep (upload_env e) task) = true →
  worker_iteration isSep e task =
  ([EvAttempt task; EvResult (processUpload isSep (upload_env e) task)], None).
Proof.
  intros (H1 & H3) (H2 & H4). unfold terminal, worker_iteration.
  rewrite H1, H2, processUpload_RetryCount.
  destruct (Success _); simpl; [reflexivity|].
  intros Hrc. apply Z.leb_le in Hrc.
  destruct (Z.ltb_spec (RetryCount task) 3); [lia | reflexivity].
Qed.

(** The trace of a task that is not cancelled and whose sends complete:
    rounds of a failed attempt, the result of that attempt, the backoff of
    [2^RetryCount] seconds and the re-queue with the count incremented, in
    this order, and a last round of an attempt and its terminal result. *)
Inductive retry_rounds : UploadTask → list Event → Prop :=
| rounds_last task r :
    RetryCount (Task r) = RetryCount task → terminal r = true →
    retry_rounds task [EvAttempt task; EvResult r]
| rounds_retry task r now task' rest :
    RetryCount (Task r) = RetryCount task → Success r = false →
    (RetryCount task < 3)%Z →
    task' = set_retry (Task r) (RetryCount task + 1) now →
    retry_rounds task' rest →
    retry_rounds task
      (EvAttempt task :: EvResult r
         :: EvBackoff (2 ^ RetryCount task * Second) :: EvRequeue task'
         :: rest).

Lemma task_lifecycle_rounds isSep envs :
  (∀ n, not_cancelled (envs n)) → (∀ n, sends_complete (envs n)) →
  ∀ k n task,
    k = Z.to_nat (3 - RetryCount task) → (0 ≤ RetryCount task)%Z →
    retry_rounds task (task_lifecycle isSep envs n task).
Proof.
  intros Hctx Hsend. induction k as [k IH] using lt_wf_ind.
  intros n task Hk Hrc. rewrite task_lifecycle_unfold.
  set (r := processUpload isSep (upload_env (envs n)) task).
  destruct (terminal r) eqn:Hterm.
  - subst r. rewrite worker_iteration_terminal by auto.
    apply rounds_last; [apply processUpload_RetryCount | exact Hterm].
  - assert (Hfail : Success r = false ∧ (RetryCount task < 3)%Z).
    { unfold terminal in Hterm. apply orb_false_iff in Hterm as [Hs Hlt].
      subst r. rewrite processUpload_RetryCount in Hlt.
      apply Z.leb_gt in Hlt. auto. }
    destruct Hfail as [Hs Hlt]. subst r.
    rewrite worker_iteration_retry by (auto; lia). cbv zeta.
    cbn [app].
    eapply rounds_retry;
      [apply processUpload_RetryCount | exact Hs | exact Hlt | reflexivity |].
    eapply IH; [|reflexivity|]; simpl; lia.
Qed.

(** When the send of the result never becomes ready (the result channel
    is full, nobody receives from it and the context is not cancelled),
    the worker is parked after the attempt: no result is published and the
    task is not sent back. *)
Lemma worker_iteration_parked isSep e task :
  done_at_pickup e = false → publish e = NeverReady →
  worker_iteration isSep e task = ([EvAttempt task; EvParked], None).
Proof.
  intros Hpickup Hpublish. unfold worker_iteration.
  rewrite Hpickup, Hpublish. reflexivity.
Qed.

(** With no receiver, a result channel that holds 100 results and a
    context that is not cancelled leave the [select] of the send one case
    only: the worker is parked. *)
Lemma full_channel_parks {A} (c : chan A) (case : SendCase) :
  closed c = false → cap c ≤ length (buf c) →
  select_send c false case → case = NeverReady.
Proof.
  intros Hopen Hfull Hcase.
  destruct Hcase as [Hclosed | _ Hroom | Hdone | _ _ _];
    [congruence | lia | discriminate | reflexivity].
Qed.

(** C1, as the code has it. A task that enters the pipeline with
    [RetryCount = 0] and whose upload fails on every attempt, the context
    not being cancelled and every send of the worker completing, is
    attempted four times, the first attempt and three retries: the failed
    attempts with retry count 0, 1 and 2 publish their result and put the
    task back after 1, 2 and 4 seconds with the count incremented, and the
    attempt with count 3 ends the trace with a failed result and no
    re-queue. *)
Theorem failing_task_retried_three_times isSep envs task :
  (∀ n, not_cancelled (envs n)) → (∀ n, sends_complete (envs n)) →
  always_fails isSep envs task →
  RetryCount task = 0%Z →
  let trace := task_lifecycle isSep envs 0 task in
  map RetryCount (attempts trace) = [0; 1; 2; 3]%Z
  ∧ backoffs trace = [2 ^ 0 * Second; 2 ^ 1 * Second; 2 ^ 2 * Second]%Z
  ∧ map RetryCount (requeued trace) = [1; 2; 3]%Z
  ∧ map Success (results trace) = [false; false; false; false]
  ∧ (∃ r, last trace = Some (EvResult r)
          ∧ Success r = false ∧ RetryCount (Task r) = 3%Z)
  ∧ retry_rounds task trace.
Proof.
  intros Hctx Hsend Hfail Hrc0 trace. subst trace.
  assert (Hrounds : retry_rounds task (task_lifecycle isSep envs 0 task))
    by (eapply task_lifecycle_rounds; eauto; lia).
  enough (Hlists :
    map RetryCount (attempts (task_lifecycle isSep envs 0 task))
    = [0; 1; 2; 3]%Z
    ∧ backoffs (task_lifecycle isSep envs 0 task)
      = [2 ^ 0 * Second; 2 ^ 1 * Second; 2 ^ 2 * Second]%Z
    ∧ map RetryCount (requeued (task_lifecycle isSep envs 0 task))
      = [1; 2; 3]%Z
    ∧ map Success (results (task_lifecycle isSep envs 0 task))
      = [false; false; false; false]
    ∧ (∃ r, last (task_lifecycle isSep envs 0 task) = Some (EvResult r)
            ∧ Success r = false ∧ RetryCount (Task r) = 3%Z)).
  { destruct Hlists as (L1 & L2 & L3 & L4 & L5). auto 10. }
  clear Hrounds.
  assert (Hstep : ∀ n t, (0 ≤ RetryCount t < 3)%Z →
            FilePath t = FilePath task → Key t = Key task →
            task_lifecycle isSep envs n t =
            [EvAttempt t; EvResult (processUpload isSep (upload_env (envs n)) t);
             EvBackoff (2 ^ RetryCount t * Second);
             EvRequeue (set_retry (Task (processUpload isSep (upload_env (envs n)) t))
                          (RetryCount t + 1) (time_Now (envs n)))]
            ++ task_lifecycle isSep envs (S n)
                 (set_retry (Task (processUpload isSep (upload_env (envs n)) t))
                    (RetryCount t + 1) (time_Now (envs n)))).
  { intros n t Ht Hp Hk. rewrite task_lifecycle_unfold at 1.
    rewrite worker_iteration_retry by auto. reflexivity. }
  set (r0 := processUpload isSep (upload_env (envs 0)) task).
  set (t1 := set_retry (Task r0) (RetryCount task + 1) (time_Now (envs 0))).
  set (r1 := processUpload isSep (upload_env (envs 1)) t1).
  set (t2 := set_retry (Task r1) (RetryCount t1 + 1) (time_Now (envs 1))).
  set (r2 := processUpload isSep (upload_env (envs 2)) t2).
  set (t3 := set_retry (Task r2) (RetryCount t2 + 1) (time_Now (envs 2))).
  set (r3 := processUpload isSep (upload_env (envs 3)) t3).
  assert (H1 : RetryCount t1 = 1%Z) by (subst t1; simpl; lia).
  assert (H2 : RetryCount t2 = 2%Z) by (subst t2; simpl; lia).
  assert (H3 : RetryCount t3 = 3%Z) by (subst t3; simpl; lia).
  assert (Hp1 : FilePath t1 = FilePath task ∧ Key t1 = Key task)
    by (subst t1 r0; simpl;
        rewrite processUpload_FilePath, processUpload_Key; auto).
  assert (Hp2 : FilePath t2 = FilePath task ∧ Key t2 = Key task)
    by (subst t2 r1; simpl;
        rewrite processUpload_FilePath, processUpload_Key; exact Hp1).
  assert (Hp3 : FilePath t3 = FilePath task ∧ Key t3 = Key task)
    by (subst t3 r2; simpl;
        rewrite processUpload_FilePath, processUpload_Key; exact Hp2).
  destruct Hp1 as [Hp1 Hk1], Hp2 as [Hp2 Hk2], Hp3 as [Hp3 Hk3].
  assert (Hr3 : RetryCount (Task r3) = 3%Z)
    by (subst r3; rewrite processUpload_RetryCount; exact H3).
  rewrite (Hstep 0 task) by (auto; lia). fold r0 t1.
  rewrite (Hstep 1 t1) by (auto; lia). fold r1 t2.
  rewrite (Hstep 2 t2) by (auto; lia). fold r2 t3.
  rewrite (task_lifecycle_unfold isSep envs 3 t3).
  rewrite worker_iteration_terminal;
    [|auto | auto | unfold terminal; rewrite processUpload_RetryCount, H3;
                    apply orb_true_r].
  fold r3.
  cbn [app attempts results backoffs requeued omap map list_omap].
  rewrite Hrc0, H1, H2, H3.
  split; [reflexivity|]. split; [reflexivity|]. split; [reflexivity|].
  split.
  - subst r0 r1 r2 r3. rewrite !Hfail by auto. reflexivity.
  - exists r3. repeat split; [|exact Hr3]. subst r3. apply Hfail; auto.
Qed.

(** A host with slash as the path separator. *)
Definition slash_separator (c : ascii) : bool := Ascii.eqb c "/".

(** The file cannot be opened. *)
Definition missing_file_env : UploadEnv :=
  {| os_Open := λ _, Err "no such file or directory";
     sha256_hex := λ body, body;
     format_int := λ _, "";
     format_rfc3339_utc := λ _, "";
     store_UploadFile := λ _ _ _, Ok "v1" |}.

(** The file is there and the store accepts it. *)
Definition present_file_env : UploadEnv :=
  {| os_Open := λ _, Ok {| file_Stat := Ok (mkFileInfo false 2 100);
                           file_body := Ok "hi";
                           file_Seek := None |};
     sha256_hex := λ body, body;
     format_int := λ _, "2";
     format_rfc3339_utc := λ _, "1970-01-01T00:00:00Z";
     store_UploadFile := λ _ _ _, Ok "v1" |}.

(** The file report.txt cannot be opened; every other file is there and
    the store accepts it. *)
Definition report_missing_env : UploadEnv :=
  {| os_Open := λ path,
       if String.eqb path "/data/docs/report.txt"
       then Err "no such file or directory"
       else Ok {| file_Stat := Ok (mkFileInfo false 2 100);
                  file_body := Ok "hi";
                  file_Seek := None |};
     sha256_hex := λ body, body;
     format_int := λ _, "2";
     format_rfc3339_utc := λ _, "1970-01-01T00:00:00Z";
     store_UploadFile := λ _ _ _, Ok "v1" |}.

(** The context is not cancelled and both sends complete. *)
Definition attempt_env (e : UploadEnv) (now : Z) : AttemptEnv :=
  {| upload_env := e; done_at_pickup := false; publish := SendTaken;
     time_Now := now; done_at_backoff := false; requeue := SendTaken |}.

(** Every attempt finds the file missing. *)
Definition failing_envs (n : nat) : AttemptEnv :=
  attempt_env missing_file_env (Z.of_nat n * Second).

(** Every attempt finds report.txt missing. *)
Definition report_missing_envs (n : nat) : AttemptEnv :=
  attempt_env report_missing_env (Z.of_nat n * Second).

(** The file appears after the first attempt. *)
Definition flaky_envs (n : nat) : AttemptEnv :=
  match n with
  | O => attempt_env missing_file_env 0
  | S _ => attempt_env present_file_env (Z.of_nat n * Second)
  end.

Definition fresh_task : UploadTask :=
  {| FilePath := "/data/docs/report.txt"; Key := "report.txt"; FolderID := "";
     Priority := 1; Metadata := Some ∅; RetryCount := 0; LastAttempt := 0 |}.

Definition other_task : UploadTask :=
  {| FilePath := "/data/docs/notes.txt"; Key := "notes.txt"; FolderID := "";
     Priority := 1; Metadata := Some ∅; RetryCount := 0; LastAttempt := 0 |}.

(** On a host where another file is uploaded, the task for the missing
    file is attempted four times. *)
Lemma failing_task_retried_three_times_witness :
  Success (processUpload slash_separator report_missing_env other_task) = true
  ∧ map RetryCount
      (attempts (task_lifecycle slash_separator report_missing_envs 0
                   fresh_task))
    = [0; 1; 2; 3]%Z.
Proof.
  split; [vm_compute; reflexivity|].
  apply (failing_task_retried_three_times slash_separator report_missing_envs
           fresh_task).
  - intros n. split; reflexivity.
  - intros n. split; reflexivity.
  - intros n t Hpath Hkey. unfold processUpload.
    cbn [upload_env report_missing_envs attempt_env os_Open
         report_missing_env].
    rewrite Hpath. reflexivity.
  - reflexivity.
Defined.

(** C1 as stated fails: after three failed uploads the task is attempted a
    fourth time. *)
Lemma fourth_attempt_after_three_failures :
  let trace := task_lifecycle slash_separator failing_envs 0 fresh_task in
  map Success (take 3 (results trace)) = [false; false; false]
  ∧ map RetryCount (drop 3 (attempts trace)) = [3%Z].
Proof. vm_compute. split; reflexivity. Qed.

(** C2 as stated fails: the failed first attempt, which is retried,
    publishes a result of its own before the successful one. *)
Lemma retried_attempt_publishes_result :
  let trace := task_lifecycle slash_separator flaky_envs 0 fresh_task in
  map Success (results trace) = [false; true]
  ∧ map RetryCount (requeued trace) = [1%Z].
Proof. vm_compute. split; reflexivity. Qed.

Lemma omap_app_events {B} (f : Event → option B) (l1 l2 : list Event) :
  omap f (l1 ++ l2) = omap f l1 ++ omap f l2.
Proof. apply omap_app. Qed.

(** C2, as the code has it. While the context is not cancelled and the
    sends of the worker complete, every attempt of a task publishes one
    result, and publishes it before the retry is scheduled: the trace is
    made of rounds of attempt, result, backoff and re-queue, in this
    order, for the failed attempts that are retried, and ends with the
    attempt whose result is terminal (success, or failure with the
    retries used up). *)
Theorem one_result_per_attempt isSep envs n task :
  (∀ n, not_cancelled (envs n)) → (∀ n, sends_complete (envs n)) →
  (0 ≤ RetryCount task)%Z →
  let trace := task_lifecycle isSep envs n task in
  retry_rounds task trace
  ∧ length (results trace) = length (attempts trace)
  ∧ length (results trace) = S (length (requeued trace))
  ∧ (∃ r, last trace = Some (EvResult r) ∧ last (results trace) = Some r
          ∧ terminal r = true)
  ∧ Forall (λ r, terminal r = false) (removelast (results trace)).
Proof.
  intros Hctx Hsend Hrc. cbv zeta.
  split; [eapply task_lifecycle_rounds; eauto|].
  remember (Z.to_nat (3 - RetryCount task)) as k eqn:Hk.
  revert n task Hrc Hk.
  induction k as [k IH] using lt_wf_ind. intros n task Hrc Hk.
  rewrite task_lifecycle_unfold.
  set (r := processUpload isSep (upload_env (envs n)) task).
  destruct (terminal r) eqn:Hterm.
  - subst r. rewrite worker_iteration_terminal by auto. simpl.
    repeat split; eauto.
  - assert (Hfail : Success r = false ∧ (RetryCount task < 3)%Z).
    { unfold terminal in Hterm. apply orb_false_iff in Hterm as [Hs Hlt].
      subst r. rewrite processUpload_RetryCount in Hlt.
      apply Z.leb_gt in Hlt. auto. }
    destruct Hfail as [Hs Hlt]. subst r.
    rewrite worker_iteration_retry by (auto; lia). cbv zeta.
    set (r := processUpload isSep (upload_env (envs n)) task) in *.
    set (task' := set_retry (Task r) (RetryCount task + 1) (time_Now (envs n))).
    assert (Hrc' : RetryCount task' = (RetryCount task + 1)%Z) by reflexivity.
    destruct (IH (Z.to_nat (3 - RetryCount task')) ltac:(lia) (S n) task'
                ltac:(lia) eq_refl) as (IH1 & IH2 & (r' & IH3 & IH4 & IH5) & IH6).
    set (rest := task_lifecycle isSep envs (S n) task') in *.
    unfold results, attempts, requeued in *.
    rewrite !omap_app_events. cbn [omap list_omap app length].
    repeat split.
    + simpl. lia.
    + simpl. lia.
    + exists r'. repeat split; auto.
      * rewrite !last_cons, IH3. reflexivity.
      * change (last (r :: omap (λ e, match e with EvResult r => Some r | _ => None end) rest) = Some r').
        rewrite last_cons, IH4. reflexivity.
    + change (Forall (λ r, terminal r = false)
                (removelast (r :: omap (λ e, match e with EvResult r => Some r | _ => None end) rest))).
      destruct (omap (λ e, match e with EvResult r => Some r | _ => None end) rest)
        as [|r1 rs] eqn:Hres; [discriminate|].
      simpl. constructor; [exact Hterm | exact IH6].
Qed.

Lemma one_result_per_attempt_witness :
  let trace := task_lifecycle slash_separator flaky_envs 0 fresh_task in
  retry_rounds fresh_task trace
  ∧ length (results trace) = length (attempts trace)
  ∧ length (results trace) = S (length (requeued trace))
  ∧ (∃ r, last trace = Some (EvResult r) ∧ last (results trace) = Some r
          ∧ terminal r = true)
  ∧ Forall (λ r, terminal r = false) (removelast (results trace)).
Proof.
  apply (one_result_per_attempt slash_separator flaky_envs 0 fresh_task).
  - intros [|n]; split; reflexivity.
  - intros [|n]; split; reflexivity.
  - simpl. lia.
Defined.

(** The result channel is full and nobody receives: the first attempt of
    the task publishes nothing, and the worker stays parked. *)
Definition parked_envs (n : nat) : AttemptEnv :=
  {| upload_env := missing_file_env; done_at_pickup := false;
     publish := NeverReady; time_Now := Z.of_nat n * Second;
     done_at_backoff := false; requeue := SendTaken |}.

Example parked_worker_publishes_nothing :
  task_lifecycle slash_separator parked_envs 0 fresh_task
  = [EvAttempt fresh_task; EvParked]
  ∧ select_send (Chan.mk (replicate 100 fresh_task) 100 false) false
      NeverReady.
Proof.
  split; [vm_compute; reflexivity|].
  apply select_parks; [reflexivity | simpl; lia | reflexivity].
Qed.

(** ** The throttled reader *)

Lemma wrap64_small z : (MinInt64 ≤ z ≤ MaxInt64)%Z → wrap64 z = z.
Proof.
  unfold wrap64, MinInt64, MaxInt64. intros Hz.
  rewrite Z.mod_small by lia. lia.
Qed.

(** What holds of a throttled reader between calls: the rate is the
    configured one, the counter is within the quota, and the window began no
    later than the last reading of the clock. *)
Definition throttled_inv {R} (N clock : Z) (t : throttledReader R) : Prop :=
  bytesPerSec t = N ∧ (0 ≤ bytesThisSec t ≤ N)%Z ∧ (lastTimestamp t ≤ clock)%Z.

(** The bytes the open window had delivered when each call was made. *)
Fixpoint window_view {R} (cur : Z) (log : list (ReadStep R))
  : list (Z * ReadStep R) :=
  match log with
  | [] => []
  | s :: rest =>
      (cur, s)
        :: window_view ((if step_reset s then 0 else cur) + delivered s)%Z rest
  end.

(** One call under the quota: [before] is the counter at entry. *)
Definition within_quota {R} (N : Z) (entry : Z * ReadStep R) : Prop :=
  let '(before, s) := entry in
  let already := if step_reset s then 0%Z else before in
  (∃ data err, step_result s = Returned (data, err))
  ∧ step_quota s = (N - already)%Z
  ∧ (0 ≤ delivered s ≤ step_quota s)%Z
  ∧ bytesThisSec (step_reader s) = (already + delivered s)%Z
  ∧ ((N ≤ before)%Z → step_reset s = true).

Lemma throttled_Read_step {R} `{Reader R} (N clock : Z)
    (t : throttledReader R) (c : ReadCall) :
  (0 < N ≤ MaxInt64)%Z → throttled_inv N clock t →
  within_quota N (bytesThisSec t, throttled_Read clock t c)
  ∧ throttled_inv N (step_clock (throttled_Read clock t c))
      (step_reader (throttled_Read clock t c)).
Proof.
  intros HN (Hrate & Hcount & Hlast).
  unfold within_quota, throttled_inv, throttled_Read.
  rewrite Hrate.
  set (now := (clock + Z.of_N (tick_entry c))%Z).
  set (elapsed := sat64 (now - lastTimestamp t)).
  assert (Helapsed : (0 ≤ elapsed ≤ MaxInt64)%Z).
  { subst elapsed now. unfold sat64, MinInt64, MaxInt64 in *. lia. }
  assert (Helapsed' : (elapsed ≤ now - lastTimestamp t)%Z).
  { subst elapsed now. unfold sat64, MinInt64, MaxInt64 in *. lia. }
  assert (Hsecond : Second = 1000000000%Z) by reflexivity.
  rewrite (wrap64_small (Second - elapsed))
    by (unfold MinInt64, MaxInt64 in *; lia).
  destruct (Z.leb_spec Second elapsed) as [Hover|Hopen]; cbn [orb].
  - (* the window is over: the counter restarts and nobody sleeps *)
    destruct (Z.leb_spec N 0); [lia|]. cbn [andb].
    rewrite (wrap64_small (N - 0)) by (unfold MinInt64, MaxInt64 in *; lia).
    destruct (Z.leb_spec (N - 0) 0); [lia|].
    set (toRead := if (N - 0 <? Z.of_nat (buf_len c))%Z then (N - 0)%Z
                   else Z.of_nat (buf_len c)).
    assert (HtoRead : (0 ≤ toRead ≤ N - 0)%Z).
    { subst toRead. destruct (Z.ltb_spec (N - 0) (Z.of_nat (buf_len c))); lia. }
    destruct (Z.ltb_spec toRead 0); [lia|].
    pose proof (reader_Read_le (reader t) (Z.to_nat toRead)) as Hle.
    destruct (reader_Read (reader t) (Z.to_nat toRead)) as [r' [data err]].
    simpl in Hle. unfold delivered. simpl.
    rewrite wrap64_small by (unfold MinInt64, MaxInt64 in *; lia).
    repeat split; eauto; try lia.
  - destruct (Z.ltb_spec 0 (Second - elapsed)) as [_|]; [|lia].
    rewrite andb_true_r.
    destruct (Z.leb_spec N (bytesThisSec t)) as [Hquota|Hroom]; cbn [orb].
    + (* the quota is used up: sleep to the end of the window, restart *)
      rewrite (wrap64_small (N - 0)) by (unfold MinInt64, MaxInt64 in *; lia).
      destruct (Z.leb_spec (N - 0) 0); [lia|].
      set (toRead := if (N - 0 <? Z.of_nat (buf_len c))%Z then (N - 0)%Z
                     else Z.of_nat (buf_len c)).
      assert (HtoRead : (0 ≤ toRead ≤ N - 0)%Z).
      { subst toRead.
        destruct (Z.ltb_spec (N - 0) (Z.of_nat (buf_len c))); lia. }
      destruct (Z.ltb_spec toRead 0); [lia|].
      pose proof (reader_Read_le (reader t) (Z.to_nat toRead)) as Hle.
      destruct (reader_Read (reader t) (Z.to_nat toRead)) as [r' [data err]].
      simpl in Hle. unfold delivered. simpl.
      rewrite wrap64_small by (unfold MinInt64, MaxInt64 in *; lia).
      repeat split; eauto; try lia.
    + (* room left in the open window *)
      rewrite (wrap64_small (N - bytesThisSec t))
        by (unfold MinInt64, MaxInt64 in *; lia).
      destruct (Z.leb_spec (N - bytesThisSec t) 0); [lia|].
      set (toRead := if (N - bytesThisSec t <? Z.of_nat (buf_len c))%Z
                     then (N - bytesThisSec t)%Z else Z.of_nat (buf_len c)).
      assert (HtoRead : (0 ≤ toRead ≤ N - bytesThisSec t)%Z).
      { subst toRead.
        destruct (Z.ltb_spec (N - bytesThisSec t) (Z.of_nat (buf_len c))); lia. }
      destruct (Z.ltb_spec toRead 0); [lia|].
      pose proof (reader_Read_le (reader t) (Z.to_nat toRead)) as Hle.
      destruct (reader_Read (reader t) (Z.to_nat toRead)) as [r' [data err]].
      simpl in Hle. unfold delivered. simpl.
      rewrite wrap64_small by (unfold MinInt64, MaxInt64 in *; lia).
      subst now. repeat split; eauto; try lia.
Qed.

Lemma throttled_run_quota {R} `{Reader R} (N : Z) (calls : list ReadCall) :
  (0 < N ≤ MaxInt64)%Z →
  ∀ clock (t : throttledReader R), throttled_inv N clock t →
  Forall (within_quota N)
    (window_view (bytesThisSec t) (throttled_run clock t calls))
  ∧ Forall (λ total, (0 ≤ total ≤ N)%Z)
      (window_totals (bytesThisSec t) (throttled_run clock t calls)).
Proof.
  intros HN. induction calls as [|c rest IH]; intros clock t Hinv.
  - simpl. split; [constructor|].
    constructor; [|constructor]. destruct Hinv as (_ & Hcount & _). exact Hcount.
  - destruct (throttled_Read_step N clock t c HN Hinv) as [Hstep Hinv'].
    cbn [throttled_run window_view window_totals].
    set (s := throttled_Read clock t c) in *.
    destruct (IH (step_clock s) (step_reader s) Hinv') as [IH1 IH2].
    pose proof Hstep as (_ & _ & _ & Hcount' & _). cbv zeta in Hcount'.
    split.
    + constructor; [exact Hstep|]. rewrite <- Hcount'. exact IH1.
    + destruct (step_reset s).
      * constructor; [destruct Hinv as (_ & Hcount & _); exact Hcount|].
        rewrite Z.add_0_l in Hcount'. rewrite <- Hcount'. exact IH2.
      * rewrite <- Hcount'. exact IH2.
Qed.


(** A reader of 5 bytes per second in front of a file of 26 bytes: five
    reads into a buffer of 4 bytes, the third 2 seconds after the second
    and the fifth with the quota used up. *)
Definition example_calls : list ReadCall :=
  [ mkReadCall 4 0 0; mkReadCall 4 1000 0;
    mkReadCall 4 2000000000 0; mkReadCall 4 10 0; mkReadCall 4 10 7 ].


(** ** The exclude matcher *)

Import Filepath Watcher.

(** The pattern matches the path and [filepath.Match] reports no error. *)
Definition matches_cleanly (Match : string → string → bool * option string)
    (path pattern : string) : bool :=
  match Match pattern path with
  | (matched, None) => matched
  | (_, Some _) => false
  end.

(** [filepath.Match] accepts the pattern. *)
Definition compiles (Match : string → string → bool * option string)
    (path pattern : string) : bool :=
  match Match pattern path with
  | (_, None) => true
  | (_, Some _) => false
  end.

Lemma exclude_loop_existsb Match path patterns :
  exclude_loop Match path patterns
  = existsb (matches_cleanly Match path) patterns.
Proof.
  induction patterns as [|pattern rest IH]; [reflexivity|].
  simpl. unfold matches_cleanly at 1.
  destruct (Match pattern path) as [[|] [msg|]]; simpl; auto.
Qed.

Lemma ShouldExclude_existsb Match path patterns :
  ShouldExclude Match path patterns
  = existsb (matches_cleanly Match path) patterns.
Proof.
  unfold ShouldExclude. destruct patterns as [|pattern rest]; [reflexivity|].
  change (length (pattern :: rest) =? 0) with false.
  apply exclude_loop_existsb.
Qed.

(** C8. [ShouldExclude] is a total function to [bool], whatever
    [filepath.Match] returns: it is true exactly when some pattern of the
    list matches the path without error. A pattern that [filepath.Match]
    rejects counts as no match and the patterns after it are still tried:
    the answer is the one for the list without the rejected patterns. *)
Theorem ShouldExclude_skips_invalid_patterns
    (Match : string → string → bool * option string)
    (path : string) (patterns : list string) :
  ShouldExclude Match path patterns
    = existsb (matches_cleanly Match path) patterns
  ∧ ShouldExclude Match path patterns
    = ShouldExclude Match path
        (List.filter (compiles Match path) patterns).
Proof.
  split; [apply ShouldExclude_existsb|].
  rewrite !ShouldExclude_existsb.
  induction patterns as [|pattern rest IH]; [reflexivity|].
  cbn [List.filter existsb].
  assert (Hcases : compiles Match path pattern = true
                   ∨ (compiles Match path pattern = false
                      ∧ matches_cleanly Match path pattern = false)).
  { unfold compiles, matches_cleanly.
    destruct (Match pattern path) as [matched [msg|]]; auto. }
  destruct Hcases as [-> | [-> ->]].
  - cbn [existsb]. rewrite IH. reflexivity.
  - exact IH.
Qed.


(** A stand-in for [filepath.Match] in the examples: an unclosed bracket
    is a bad pattern, a leading star matches any name that ends with the
    rest of the pattern, any other pattern matches itself. *)
Fixpoint ends_with (suffix s : string) : bool :=
  String.eqb suffix s
  || match s with
     | EmptyString => false
     | String _ rest => ends_with suffix rest
     end.

Definition example_Match (pattern name : string) : bool * option string :=
  match pattern with
  | String "[" _ => (false, Some "syntax error in pattern")
  | String "*" suffix => (ends_with suffix name, None)
  | _ => (String.eqb pattern name, None)
  end.

(** The bad pattern neither matches nor hides the pattern after it. *)
Example ShouldExclude_after_bad_pattern :
  ShouldExclude example_Match "b.tmp" ["["; "*.tmp"] = true
  ∧ ShouldExclude example_Match "a.txt" ["["; "*.tmp"] = false
  ∧ ShouldExclude example_Match "a.txt" ["["] = false.
Proof. repeat split; reflexivity. Qed.

(** ** Folder management *)

Import Sync.

Lemma path_registered_spec (fs : gmap string FolderSync) (path : string) :
  path_registered fs path = true
  ↔ ∃ id f, fs !! id = Some f ∧ Path f = path.
Proof.
  unfold path_registered. rewrite existsb_exists. split.
  - intros [[id f] [Hin Heq]]. exists id, f.
    apply list_elem_of_In, elem_of_map_to_list in Hin.
    apply String.eqb_eq in Heq. auto.
  - intros (id & f & Hlook & Heq). exists (id, f). split.
    + apply list_elem_of_In, elem_of_map_to_list. exact Hlook.
    + apply String.eqb_eq. exact Heq.
Qed.

(** The three ways [AddFolder] turns a folder away that the claim names:
    the path does not exist, it is not a directory, or a registered folder
    has it already. *)
Inductive rejected (env : ManagerEnv) (sm : SyncManager) (folder : FolderSync)
  : Prop :=
| rejected_missing msg :
    os_Stat_path env (Path folder) = Err msg → rejected env sm folder
| rejected_not_directory info :
    os_Stat_path env (Path folder) = Ok info → IsDir info = false →
    rejected env sm folder
| rejected_duplicate id f :
    folders sm !! id = Some f → Path f = Path folder →
    rejected env sm folder.

(** C6. [AddFolder] with a path that does not exist, a path that is not a
    directory, or a path some registered folder has already (under a
    different id or not) returns an error and leaves the manager, its
    registry included, exactly as it was. *)
Theorem AddFolder_rejected_registry_unchanged
    (Match : string → string → bool * option string)
    (Rel : string → string → io string)
    (env : ManagerEnv) (sm : SyncManager) (folder : FolderSync) :
  rejected env sm folder →
  is_Some (AddFolder Match Rel env sm folder).2
  ∧ (AddFolder Match Rel env sm folder).1.1 = sm
  ∧ folders (AddFolder Match Rel env sm folder).1.1 = folders sm.
Proof.
  intros Hrej. unfold AddFolder.
  destruct (String.eqb (Path folder) "") eqn:Hempty; [simpl; eauto|].
  destruct (os_Stat_path env (Path folder)) as [info|msg] eqn:Hstat;
    [|simpl; eauto].
  destruct (IsDir info) eqn:Hdir; [|simpl; eauto]. cbn [negb].
  assert (Hdup : path_registered (folders sm)
            (Path (if String.eqb (ID folder) "" then set_ID folder (uuid_New env)
                   else folder)) = true).
  { destruct Hrej as [msg Hmiss | info' Hok Hnot | id f Hlook Hsame].
    - congruence.
    - congruence.
    - apply path_registered_spec. exists id, f. split; [exact Hlook|].
      destruct (String.eqb (ID folder) ""); simpl; exact Hsame. }
  rewrite Hdup. simpl. eauto.
Qed.

(** *** A host for the examples *)

(** A stand-in for [filepath.Rel] on a host with slash as the separator,
    exact for a clean target at or below a clean base, which is all the
    examples use. *)
Definition example_Rel (base targ : string) : io string :=
  if String.eqb base targ then Ok "."
  else
    match strip_prefix (base +:+ "/") targ with
    | Some rest => Ok rest
    | None => Err "Rel: can't make the path relative"
    end.

Definition example_Stat (path : string) : io FileInfo :=
  if String.eqb path "/data/docs" then Ok (mkFileInfo true 0 10)
  else if String.eqb path "/data/photos" then Ok (mkFileInfo true 0 20)
  else if String.eqb path "/data/notes.txt" then Ok (mkFileInfo false 5 30)
  else Err "no such file or directory".

Definition example_watch_env : WatchEnv :=
  {| filepath_Abs := λ path, Ok path;
     Watcher.os_Stat := example_Stat;
     tree_at := λ path, DirNode path 10 None [];
     fsnotify_Add := λ _, None;
     fsnotify_Remove := λ _, None |}.

(** The configuration file can be written. *)
Definition example_env : ManagerEnv :=
  {| os_Stat_path := example_Stat;
     uuid_New := "6ba7b810-9dad-11d1-80b4-00c04fd430c8";
     fsnotify_NewWatcher := None;
     watch_env := example_watch_env;
     config_env := {| Config.config_missing := λ _, true;
                      Config.read_config := λ _, Err "unexpected end of JSON input";
                      Config.write_config := λ _ _, None |} |}.

Definition example_config : Config.Config :=
  {| Config.IntervalMinutes := 15;
     Config.AutoSync := true;
     Config.Folders :=
       {[ "docs" := {| Config.LocalPath := "/data/docs";
                       Config.RemotePath := "docs";
                       Config.ExcludePatterns := ["*.tmp"];
                       Config.Enabled := true |} ]};
     Config.filePath := "/etc/sync-manager/config.json" |}.

(** A manager with the folder "docs" at /data/docs, built from the
    configuration. *)
Definition example_manager : SyncManager :=
  NewSyncManager example_config (Uploader.Start (NewUploader AgentConfig))
    "device-1" 0.

Definition new_folder (id path : string) : FolderSync :=
  {| ID := id; Path := path; ExcludePatterns := []; LastSync := 0;
     TwoWaySync := false; Enabled := true |}.

Lemma example_manager_docs :
  folders example_manager !! "docs"
  = Some {| ID := "docs"; Path := "/data/docs"; ExcludePatterns := ["*.tmp"];
            LastSync := 0; TwoWaySync := false; Enabled := true |}.
Proof. vm_compute. reflexivity. Qed.

(** A missing path, a file, and the path of "docs" under another id are
    turned away with the registry as it was. *)
Lemma AddFolder_rejected_registry_unchanged_witness :
  folders (AddFolder example_Match example_Rel example_env example_manager
             (new_folder "gone" "/data/gone")).1.1 = folders example_manager
  ∧ folders (AddFolder example_Match example_Rel example_env example_manager
               (new_folder "notes" "/data/notes.txt")).1.1
    = folders example_manager
  ∧ folders (AddFolder example_Match example_Rel example_env example_manager
               (new_folder "docs-again" "/data/docs")).1.1
    = folders example_manager.
Proof.
  split; [|split].
  - apply (AddFolder_rejected_registry_unchanged example_Match example_Rel
             example_env example_manager (new_folder "gone" "/data/gone")).
    apply (rejected_missing _ _ _ "no such file or directory"). reflexivity.
  - apply (AddFolder_rejected_registry_unchanged example_Match example_Rel
             example_env example_manager (new_folder "notes" "/data/notes.txt")).
    apply (rejected_not_directory _ _ _ (mkFileInfo false 5 30)); reflexivity.
  - apply (AddFolder_rejected_registry_unchanged example_Match example_Rel
             example_env example_manager (new_folder "docs-again" "/data/docs")).
    eapply (rejected_duplicate _ _ _ "docs");
      [exact example_manager_docs | reflexivity].
Defined.

(** The folder passes the checks of [AddFolder]: a path that is not empty
    and is a directory, and no registered folder with that path. *)
Definition validated (env : ManagerEnv) (sm : SyncManager)
    (folder : FolderSync) : Prop :=
  Path folder ≠ ""
  ∧ (∃ info, os_Stat_path env (Path folder) = Ok info ∧ IsDir info = true)
  ∧ path_registered (folders sm) (Path folder) = false.

(** The folder as [AddFolder] registers it: with a generated id when it
    came without one. *)
Definition with_id (env : ManagerEnv) (folder : FolderSync) : FolderSync :=
  if String.eqb (ID folder) "" then set_ID folder (uuid_New env) else folder.




(** A manager whose configuration has no file path, as [DefaultConfig]
    gives it: saving fails. *)
Definition unsaved_manager : SyncManager :=
  NewSyncManager Config.DefaultConfig (Uploader.Start (NewUploader AgentConfig))
    "device-1" 0.


(** ** Folders loaded from the configuration *)

(** No folder of the registry asks for two-way sync. *)
Definition one_way (fs : gmap string FolderSync) : Prop :=
  ∀ id f, fs !! id = Some f → TwoWaySync f = false.

(** Every two-way folder of [fs'] was a two-way folder of [fs]. *)
Definition no_new_two_way (fs fs' : gmap string FolderSync) : Prop :=
  ∀ id f, fs' !! id = Some f → TwoWaySync f = true →
  ∃ f0, fs !! id = Some f0 ∧ TwoWaySync f0 = true.

Lemma one_way_insert fs id f :
  one_way fs → TwoWaySync f = false → one_way (<[id := f]> fs).
Proof.
  intros Hfs Hf id' f'. rewrite lookup_insert.
  case_decide; [intros [= <-]; exact Hf | apply Hfs].
Qed.

Lemma one_way_delete fs id : one_way fs → one_way (delete id fs).
Proof.
  intros Hfs id' f'. rewrite lookup_delete.
  case_decide; [discriminate | apply Hfs].
Qed.

Lemma no_new_two_way_one_way fs fs' :
  no_new_two_way fs fs' → one_way fs → one_way fs'.
Proof.
  intros Hnew Hfs id f Hlook. destruct (TwoWaySync f) eqn:Htw; [|reflexivity].
  destruct (Hnew id f Hlook Htw) as (f0 & Hlook0 & Htw0).
  rewrite (Hfs id f0 Hlook0) in Htw0. discriminate.
Qed.

Lemma NewSyncManager_one_way cfg u deviceID now :
  one_way (folders (NewSyncManager cfg u deviceID now)).
Proof.
  intros id f. unfold NewSyncManager. cbn [folders].
  rewrite map_lookup_imap.
  destruct (Config.GetAllFolders cfg !! id) as [folder|]; simpl;
    [intros [= <-]; reflexivity | discriminate].
Qed.

Section Reload.

Variable Match : string → string → bool * option string.
Variable Rel : string → string → io string.
Variable IsAbs : string → bool.
Variable env : ManagerEnv.
Variable orig : gmap string FolderSync.

(** What the loops of [ReloadConfiguration] keep true: [existingFolders]
    is part of the registry at entry, and the registry has gained no
    two-way folder. *)
Definition reload_inv (st : reload_state) : Prop :=
  let '(fs, w, existingFolders) := st in
  existingFolders ⊆ orig ∧ no_new_two_way orig fs.

Lemma reload_entry_inv st entry :
  reload_inv st → reload_inv (reload_entry Match Rel IsAbs env st entry).
Proof.
  destruct st as [[fs w] existingFolders]. destruct entry as [id folderConfig].
  intros [Hsub Hnew]. unfold reload_entry.
  destruct (existingFolders !! id) as [existingFolder|] eqn:Hex.
  - assert (Horig : orig !! id = Some existingFolder)
      by (eapply lookup_weaken; eauto).
    match goal with
    | |- context [if ?c then _ else _] => destruct c
    end.
    + simpl. split.
      * etrans; [apply delete_subseteq | exact Hsub].
      * intros id' f'. rewrite lookup_insert. case_decide as Hid.
        -- intros [= <-]. simpl. intros Htw. subst id'. eauto.
        -- apply Hnew.
    + simpl. split; [etrans; [apply delete_subseteq | exact Hsub] | exact Hnew].
  - simpl. split; [exact Hsub|].
    intros id' f'. rewrite lookup_insert. case_decide.
    + intros [= <-]. simpl. discriminate.
    + apply Hnew.
Qed.

Lemma reload_entries_inv entries st :
  reload_inv st →
  reload_inv (foldl (reload_entry Match Rel IsAbs env) st entries).
Proof.
  revert st. induction entries as [|entry rest IH]; intros st Hst;
    [exact Hst|].
  simpl. apply IH, reload_entry_inv, Hst.
Qed.

Lemma reload_drop_inv entries fs w :
  no_new_two_way orig fs →
  no_new_two_way orig (foldl (reload_drop Rel IsAbs env) (fs, w) entries).1.
Proof.
  revert fs w. induction entries as [|[id folder] rest IH]; intros fs w Hfs;
    [exact Hfs|].
  simpl. apply IH. intros id' f'. rewrite lookup_delete.
  case_decide; [discriminate | apply Hfs].
Qed.

End Reload.

(** [ReloadConfiguration] makes no folder two-way. *)
Lemma ReloadConfiguration_no_new_two_way Match Rel IsAbs env sm :
  no_new_two_way (folders sm)
    (folders (ReloadConfiguration Match Rel IsAbs env sm).1).
Proof.
  unfold ReloadConfiguration.
  destruct (Config.LoadConfig (config_env env) "") as [newCfg|msg];
    [|simpl; intros id f Hlook Htw; eauto].
  cbn [folders watcher set_config].
  pose proof (reload_entries_inv Match Rel IsAbs env (folders sm)
                (map_to_list (Config.GetAllFolders newCfg))
                (folders sm, watcher sm, folders sm)) as Hinv.
  destruct (foldl (reload_entry Match Rel IsAbs env)
              (folders sm, watcher sm, folders sm)
              (map_to_list (Config.GetAllFolders newCfg)))
    as [[fs w] existingFolders].
  destruct Hinv as [_ Hnew].
  { split; [reflexivity|]. intros id f Hlook Htw. eauto. }
  pose proof (reload_drop_inv Rel IsAbs env (folders sm)
                (map_to_list existingFolders) fs w Hnew) as Hdrop.
  destruct (foldl (reload_drop Rel IsAbs env) (fs, w)
              (map_to_list existingFolders)) as [fs' w'].
  simpl in Hdrop.
  match goal with
  | |- context [if ?c then _ else _] => destruct c
  end; simpl; exact Hdrop.
Qed.

Section OneWay.

Variable Separator : ascii.
Variable Match : string → string → bool * option string.
Variable Rel : string → string → io string.
Variable Join : string → string → string.
Variable Dir : string → string.
Variable Clean : string → string.
Variable IsAbs : string → bool.

(** A pass over a one-way folder reaches neither the storage backend nor
    the disk, and leaves the registry one-way. *)
Lemma syncFolder_one_way env sm id folder :
  one_way (folders sm) → TwoWaySync folder = false →
  (syncFolder Separator Match Rel Join Dir env sm id folder).1.2 = []
  ∧ one_way (folders (syncFolder Separator Match Rel Join Dir env sm id folder).1.1).
Proof.
  intros Hsm Hf. unfold syncFolder.
  destruct (Walk (scan_visit Separator Match Rel env folder)
              (scan_tree env (Path folder)) (uploader (set_state sm SyncStateSyncing), None))
    as [[u panic] err].
  destruct panic as [msg|]; [simpl; auto|].
  destruct err as [msg|]; [simpl; auto|].
  cbn [TwoWaySync set_LastSync]. rewrite Hf. simpl. split; [reflexivity|].
  apply one_way_insert; [exact Hsm | exact Hf].
Qed.

Lemma sync_folders_one_way env l : ∀ sm,
  one_way (folders sm) → Forall (λ entry, TwoWaySync entry.2 = false) l →
  (sync_folders Separator Match Rel Join Dir env sm l).1.2 = []
  ∧ one_way (folders (sync_folders Separator Match Rel Join Dir env sm l).1.1).
Proof.
  induction l as [|[id folder] rest IH]; intros sm Hsm Hl; [simpl; auto|].
  inversion Hl as [|? ? Hf Hrest]; subst. simpl in Hf.
  destruct (syncFolder_one_way (env id) sm id folder Hsm Hf) as [Hops Hsm'].
  cbn [sync_folders].
  destruct (syncFolder Separator Match Rel Join Dir (env id) sm id folder)
    as [[sm' ops] result].
  simpl in Hops, Hsm'. subst ops.
  destruct result as [[msg|]| |msg].
  - destruct (IH (set_stats sm' (add_error (stats sm'))) Hsm' Hrest) as [H1 H2].
    destruct (sync_folders Separator Match Rel Join Dir env
                (set_stats sm' (add_error (stats sm'))) rest) as [[sm'' ops'] p].
    simpl in *. subst. auto.
  - destruct (IH sm' Hsm' Hrest) as [H1 H2].
    destruct (sync_folders Separator Match Rel Join Dir env sm' rest)
      as [[sm'' ops'] p].
    simpl in *. subst. auto.
  - destruct (IH sm' Hsm' Hrest) as [H1 H2].
    destruct (sync_folders Separator Match Rel Join Dir env sm' rest)
      as [[sm'' ops'] p].
    simpl in *. subst. auto.
  - simpl. auto.
Qed.

Lemma FullSync_one_way env now sm :
  one_way (folders sm) →
  (FullSync Separator Match Rel Join Dir env now sm).1.2 = []
  ∧ one_way (folders (FullSync Separator Match Rel Join Dir env now sm).1.1).
Proof.
  intros Hsm. unfold FullSync.
  set (enabled := filter _ _).
  assert (Hl : Forall (λ entry : string * FolderSync, TwoWaySync entry.2 = false)
                 enabled).
  { apply Forall_forall. intros [id f] Hin. subst enabled.
    apply list_elem_of_filter in Hin as [_ Hin].
    apply elem_of_map_to_list in Hin. simpl. eapply Hsm, Hin. }
  destruct (sync_folders_one_way env enabled (set_state sm SyncStateScanning)
              Hsm Hl) as [Hops Hfs].
  destruct (sync_folders Separator Match Rel Join Dir env
              (set_state sm SyncStateScanning) enabled) as [[sm' ops] panic].
  simpl in Hops, Hfs. subst ops. destruct panic; simpl; auto.
Qed.

Lemma RemoveFolder_one_way env sm folderID :
  one_way (folders sm) →
  one_way (folders (RemoveFolder Rel IsAbs env sm folderID).1).
Proof.
  intros Hsm. unfold RemoveFolder.
  destruct (folders sm !! folderID) as [folder|]; [|exact Hsm].
  destruct (Config.SaveConfig _ _); destruct (Enabled folder); simpl;
    apply one_way_delete, Hsm.
Qed.

Lemma persist_enabled_folders env sm folderID enabled :
  folders (persist_enabled env sm folderID enabled).1 = folders sm.
Proof.
  unfold persist_enabled. destruct (Config.SaveConfig _ _); reflexivity.
Qed.

Lemma EnableFolder_one_way env sm folderID :
  one_way (folders sm) →
  one_way (folders (EnableFolder Match Rel env sm folderID).1).
Proof.
  intros Hsm. unfold EnableFolder.
  destruct (folders sm !! folderID) as [folder|] eqn:Hlook; [|exact Hsm].
  destruct (Enabled folder); [exact Hsm|].
  assert (Hins : one_way (<[folderID := set_Enabled folder true]> (folders sm)))
    by (apply one_way_insert; [exact Hsm | exact (Hsm _ _ Hlook)]).
  cbn [watcher set_folders].
  destruct (watcher sm) as [fw|].
  - destruct (Watcher.AddFolder Match Rel (watch_env env) fw _ _) as [fw' [msg|]].
    + exact Hins.
    + rewrite persist_enabled_folders. exact Hins.
  - rewrite persist_enabled_folders. exact Hins.
Qed.

Lemma DisableFolder_one_way env sm folderID :
  one_way (folders sm) →
  one_way (folders (DisableFolder Rel IsAbs env sm folderID).1).
Proof.
  intros Hsm. unfold DisableFolder.
  destruct (folders sm !! folderID) as [folder|] eqn:Hlook; [|exact Hsm].
  destruct (Enabled folder); [|exact Hsm]. cbn [negb].
  rewrite persist_enabled_folders. simpl.
  apply one_way_insert; [exact Hsm | exact (Hsm _ _ Hlook)].
Qed.

Lemma Start_folders env sm :
  folders (Sync.Start Match Rel env sm).1 = folders sm.
Proof. unfold Sync.Start. destruct (fsnotify_NewWatcher env); reflexivity. Qed.

Lemma handleFileEvent_folders sm now type path :
  folders (handleFileEvent Separator Rel Clean IsAbs sm now type path).1
  = folders sm.
Proof.
  unfold handleFileEvent. destruct (find _ _) as [[id folder]|]; [|reflexivity].
  destruct (String.eqb (Path folder) ""); [reflexivity|].
  destruct type; try reflexivity.
  all: destruct (QueueFile _ _ _ _ _ _); reflexivity.
Qed.

Lemma PauseSync_folders sm : folders (PauseSync sm) = folders sm.
Proof. unfold PauseSync. destruct (state sm); reflexivity. Qed.

Lemma ResumeSync_folders sm : folders (ResumeSync sm) = folders sm.
Proof. unfold ResumeSync. destruct (state sm); reflexivity. Qed.

Lemma SyncFolderByID_one_way env sm folderID :
  one_way (folders sm) →
  (SyncFolderByID Separator Match Rel Join Dir env sm folderID).1.2 = []
  ∧ one_way (folders
      (SyncFolderByID Separator Match Rel Join Dir env sm folderID).1.1).
Proof.
  intros Hsm. unfold SyncFolderByID.
  destruct (folders sm !! folderID) as [folder|] eqn:Hlook; [|simpl; auto].
  apply syncFolder_one_way; [exact Hsm | exact (Hsm _ _ Hlook)].
Qed.

Lemma AddFolder_one_way env sm folder :
  one_way (folders sm) → TwoWaySync folder = false →
  one_way (folders (AddFolder Match Rel env sm folder).1.1).
Proof.
  intros Hsm Hf. unfold AddFolder.
  destruct (String.eqb (Path folder) ""); [exact Hsm|].
  destruct (os_Stat_path env (Path folder)) as [info|msg]; [|exact Hsm].
  destruct (IsDir info); [|exact Hsm]. cbn [negb].
  set (folder' := if String.eqb (ID folder) "" then set_ID folder (uuid_New env)
                  else folder).
  assert (Hf' : TwoWaySync folder' = false)
    by (subst folder'; destruct (String.eqb (ID folder) ""); exact Hf).
  destruct (path_registered (folders sm) (Path folder')); [exact Hsm|].
  assert (Hins : one_way (<[ID folder' := folder']> (folders sm)))
    by (apply one_way_insert; assumption).
  cbn [watcher set_folders].
  destruct (if Enabled folder' then watcher sm else None) as [fw|].
  - destruct (Watcher.AddFolder Match Rel (watch_env env) fw _ _) as [fw' [msg|]];
      [exact Hins|].
    destruct (Config.SaveConfig _ _); exact Hins.
  - destruct (Config.SaveConfig _ _); exact Hins.
Qed.

Lemma UpdateFolder_one_way env sm folderID update :
  one_way (folders sm) → TwoWaySync update = false →
  one_way (folders (UpdateFolder Match Rel IsAbs env sm folderID update).1).
Proof.
  intros Hsm Hu. unfold UpdateFolder.
  destruct (folders sm !! folderID) as [folder|] eqn:Hlook; [|exact Hsm].
  set (sm1 := if Enabled folder then _ else sm).
  assert (Hsm1 : folders sm1 = folders sm)
    by (subst sm1; destruct (Enabled folder); reflexivity).
  set (folder1 := {| ID := ID folder; Path := Path folder;
                     ExcludePatterns := ExcludePatterns update;
                     LastSync := LastSync folder;
                     TwoWaySync := TwoWaySync update;
                     Enabled := Enabled folder |}).
  assert (H1 : one_way (<[folderID := folder1]> (folders sm1)))
    by (rewrite Hsm1; apply one_way_insert; [exact Hsm | exact Hu]).
  match goal with
  | |- context [match ?c with Ok _ => _ | Err _ => _ end] =>
      assert (Hc : ∀ f, c = Ok f → TwoWaySync f = false);
      [|destruct c as [folder2|msg] eqn:Hchecked]
  end.
  { intros f. destruct (_ && _).
    - destruct (os_Stat_path env (Path update)) as [info|msg]; [|discriminate].
      destruct (IsDir info); [|discriminate]. intros [= <-]. exact Hu.
    - intros [= <-]. exact Hu. }
  2: { exact H1. }
  specialize (Hc folder2 eq_refl).
  assert (H2 : one_way (<[folderID := folder2]> (<[folderID := folder1]> (folders sm1))))
    by (apply one_way_insert; assumption).
  cbn [watcher set_folders folders].
  destruct (if Enabled update then watcher sm1 else None) as [fw|].
  - destruct (Watcher.AddFolder Match Rel (watch_env env) fw _ _) as [fw' [msg|]];
      [exact H2|].
    cbn [set_watcher folders set_folders set_config].
    destruct (Config.SaveConfig _ _); cbn [fst folders];
      (apply one_way_insert; [exact H2 | exact Hc]).
  - cbn [set_watcher folders set_folders set_config].
    destruct (Config.SaveConfig _ _); cbn [fst folders];
      (apply one_way_insert; [exact H2 | exact Hc]).
Qed.

(** The managers no caller has asked two-way sync of: built by
    [NewSyncManager] and then driven by any operation, [AddFolder] and
    [UpdateFolder] with the two-way flag off. These two are the only
    operations that take the flag from the caller. *)
Inductive no_two_way_request : SyncManager → Prop :=
| nr_new cfg u deviceID now :
    no_two_way_request (NewSyncManager cfg u deviceID now)
| nr_reload env sm :
    no_two_way_request sm →
    no_two_way_request (ReloadConfiguration Match Rel IsAbs env sm).1
| nr_start env sm :
    no_two_way_request sm → no_two_way_request (Sync.Start Match Rel env sm).1
| nr_add env sm folder :
    no_two_way_request sm → TwoWaySync folder = false →
    no_two_way_request (AddFolder Match Rel env sm folder).1.1
| nr_update env sm folderID update :
    no_two_way_request sm → TwoWaySync update = false →
    no_two_way_request (UpdateFolder Match Rel IsAbs env sm folderID update).1
| nr_remove env sm folderID :
    no_two_way_request sm →
    no_two_way_request (RemoveFolder Rel IsAbs env sm folderID).1
| nr_enable env sm folderID :
    no_two_way_request sm →
    no_two_way_request (EnableFolder Match Rel env sm folderID).1
| nr_disable env sm folderID :
    no_two_way_request sm →
    no_two_way_request (DisableFolder Rel IsAbs env sm folderID).1
| nr_sync_now env now sm folderID :
    no_two_way_request sm →
    no_two_way_request
      (SyncNow Separator Match Rel Join Dir env now sm folderID).1.1
| nr_event sm now type path :
    no_two_way_request sm →
    no_two_way_request
      (handleFileEvent Separator Rel Clean IsAbs sm now type path).1
| nr_pause sm : no_two_way_request sm → no_two_way_request (PauseSync sm)
| nr_resume sm : no_two_way_request sm → no_two_way_request (ResumeSync sm).

Lemma no_two_way_request_one_way sm :
  no_two_way_request sm → one_way (folders sm).
Proof.
  induction 1 as [cfg u deviceID now | env sm _ IH | env sm _ IH
                  | env sm folder _ IH Hf | env sm folderID update _ IH Hu
                  | env sm folderID _ IH | env sm folderID _ IH
                  | env sm folderID _ IH | env now sm folderID _ IH
                  | sm now type path _ IH | sm _ IH | sm _ IH].
  - apply NewSyncManager_one_way.
  - eapply no_new_two_way_one_way;
      [apply ReloadConfiguration_no_new_two_way | exact IH].
  - rewrite Start_folders. exact IH.
  - apply AddFolder_one_way; assumption.
  - apply UpdateFolder_one_way; assumption.
  - apply RemoveFolder_one_way, IH.
  - apply EnableFolder_one_way, IH.
  - apply DisableFolder_one_way, IH.
  - unfold SyncNow. destruct (negb _).
    + apply SyncFolderByID_one_way, IH.
    + apply FullSync_one_way, IH.
  - rewrite handleFileEvent_folders. exact IH.
  - rewrite PauseSync_folders. exact IH.
  - rewrite ResumeSync_folders. exact IH.
Qed.

End OneWay.

(** C9, as the code has it. Whatever the configuration holds, the
    folders [NewSyncManager] builds from it are one-way, and so is a folder
    that [ReloadConfiguration] adds under an id the registry did not have.
    As long as no [AddFolder] or [UpdateFolder] call asks for two-way sync,
    every folder stays one-way under every operation and a full sync calls
    neither the storage backend nor the disk: the trace of [ListFiles],
    downloads and file writes is empty. *)
Theorem config_folders_are_one_way
    (Separator : ascii)
    (Match : string → string → bool * option string)
    (Rel : string → string → io string)
    (Join : string → string → string)
    (Dir Clean : string → string)
    (IsAbs : string → bool) :
  (∀ cfg u deviceID now id f,
     folders (NewSyncManager cfg u deviceID now) !! id = Some f →
     TwoWaySync f = false)
  ∧ (∀ env sm id f,
       folders sm !! id = None →
       folders (ReloadConfiguration Match Rel IsAbs env sm).1 !! id = Some f →
       TwoWaySync f = false)
  ∧ (∀ sm,
       no_two_way_request Separator Match Rel Join Dir Clean IsAbs sm →
       one_way (folders sm)
       ∧ ∀ env now,
           (FullSync Separator Match Rel Join Dir env now sm).1.2 = []).
Proof.
  split; [|split].
  - intros cfg u deviceID now. apply NewSyncManager_one_way.
  - intros env sm id f Hnone Hsome.
    destruct (TwoWaySync f) eqn:Htw; [|reflexivity].
    destruct (ReloadConfiguration_no_new_two_way Match Rel IsAbs env sm
                id f Hsome Htw) as (f0 & Hlook & _).
    congruence.
  - intros sm Hsm.
    pose proof (no_two_way_request_one_way _ _ _ _ _ _ _ sm Hsm) as Hone.
    split; [exact Hone|]. intros env now.
    apply FullSync_one_way, Hone.
Qed.

(** ** The storage key of a queued file *)

Lemma string_length_append (a b : string) :
  String.length (a +:+ b) = String.length a + String.length b.
Proof. induction a as [|c a IH]; simpl; [reflexivity | rewrite IH; reflexivity]. Qed.

(** The key [QueueFile] gives a task is the folder-relative path with
    slashes, and nothing else: [QueueFile] is not told the namespace. *)
Lemma QueueFile_key Separator Rel u upload_time filePath folderPath u' :
  QueueFile Separator Rel u upload_time filePath folderPath
    = (u', Returned None) →
  ∃ relPath task,
    Rel folderPath filePath = Ok relPath
    ∧ buf (taskQueue u') = buf (taskQueue u) ++ [task]
    ∧ Key task = ToSlash Separator relPath
    ∧ ∀ namespace, Key task ≠ namespace +:+ "/" +:+ ToSlash Separator relPath.
Proof.
  unfold QueueFile. destruct (running u); [|discriminate]. cbn [negb].
  destruct (Rel folderPath filePath) as [relPath|msg]; [|discriminate].
  unfold QueueUpload.
  destruct (try_send (taskQueue u) _) as [q| |] eqn:Hsend; try discriminate.
  intros [= <-]. apply try_send_keeps in Hsend as (_ & _ & Hbuf & _).
  eexists relPath, _. repeat split; [exact Hbuf | reflexivity |].
  intros namespace Heq. simpl in Heq.
  apply (f_equal String.length) in Heq.
  rewrite !string_length_append in Heq. simpl in Heq. lia.
Qed.

(** Whatever the host separator (other than the slash itself), the key has
    none left. *)
Lemma ToSlash_no_separator Separator path :
  Separator ≠ "/"%char →
  has_separator (λ c, Ascii.eqb c Separator) (ToSlash Separator path) = false.
Proof.
  intros Hsep. induction path as [|c rest IH]; [reflexivity|].
  simpl. rewrite IH, orb_false_r.
  destruct (Ascii.eqb_spec c Separator) as [->|Hc].
  - apply Ascii.eqb_neq. congruence.
  - apply Ascii.eqb_neq. exact Hc.
Qed.

(** *** A folder with three files *)

Definition example_Join (base rel : string) : string := base +:+ "/" +:+ rel.

(** The part of a path before its last slash. *)
Fixpoint before_last_slash (path : string) : option string :=
  match path with
  | EmptyString => None
  | String c rest =>
      match before_last_slash rest with
      | Some dir => Some (String c dir)
      | None => if Ascii.eqb c "/" then Some EmptyString else None
      end
  end.

Definition example_Dir (path : string) : string :=
  match before_last_slash path with
  | Some EmptyString => "/"
  | Some dir => dir
  | None => "."
  end.

Definition example_IsAbs (path : string) : bool :=
  match path with
  | String "/" _ => true
  | _ => false
  end.

(** /data/docs holds a.txt (2 bytes), b.tmp (3 bytes) and sub/c.txt, all
    modified at time 300. *)
Definition example_tree : Tree :=
  DirNode "/data/docs" 300 None
    [ FileNode "/data/docs/a.txt" 2 300;
      FileNode "/data/docs/b.tmp" 3 300;
      DirNode "/data/docs/sub" 300 None
        [ FileNode "/data/docs/sub/c.txt" 4 300 ] ].

(** The remote namespace "docs" holds older copies of a.txt and b.tmp,
    last modified at time 100. *)
Definition example_remote : list RemoteFile :=
  [ {| RemoteKey := "docs/a.txt"; RemoteSize := 2; LastModified := 100;
       ETag := "e1" |};
    {| RemoteKey := "docs/b.tmp"; RemoteSize := 3; LastModified := 100;
       ETag := "e2" |} ].

Definition example_sync_env : SyncEnv :=
  {| scan_tree := λ _, example_tree;
     upload_time := λ _, "2024-05-01T12:00:00Z";
     time_now := 400;
     storage_ListFiles := λ _, Ok example_remote;
     local_tree := λ _, example_tree;
     ctx_Done := λ _, false;
     os_MkdirAll := λ _, None;
     os_Create := λ _, None;
     storage_DownloadFile := λ _, ("old", None);
     os_Chtimes := λ _ _, None |}.

(** C4 fails on the code: for the folder "docs" at /data/docs, whose
    remote namespace is "docs", a full scan queues a.txt and sub/c.txt
    under the keys "a.txt" and "sub/c.txt", and a create event for a.txt
    queues it under "a.txt": the namespace is not part of the key. *)
Theorem queued_key_lacks_namespace :
  map Key
    (buf (taskQueue (uploader
       (FullSync "/" example_Match example_Rel example_Join example_Dir
          (λ _, example_sync_env) 500 example_manager).1.1)))
  = ["a.txt"; "sub/c.txt"]
  ∧ map Key
      (buf (taskQueue (uploader
         (handleFileEvent "/" example_Rel (λ path, path) example_IsAbs
            example_manager "2024-05-01T12:00:00Z" EventCreate
            "/data/docs/a.txt").1)))
    = ["a.txt"]
  ∧ Config.RemotePath
      <$> Config.GetSyncFolder (config example_manager) "docs" = Some "docs".
Proof. vm_compute. repeat split; reflexivity. Qed.

(** C9 as stated fails: the folder "docs" was built from the
    configuration; once [UpdateFolder] has set its two-way flag, the full
    sync runs the reconciliation for it and lists the remote namespace. *)
Lemma updated_config_folder_downloads :
  TwoWaySync <$> folders example_manager !! "docs" = Some false
  ∧ (FullSync "/" example_Match example_Rel example_Join example_Dir
       (λ _, example_sync_env) 500
       (UpdateFolder example_Match example_Rel example_IsAbs example_env
          example_manager "docs"
          {| ID := "docs"; Path := "/data/docs"; ExcludePatterns := [];
             LastSync := 0; TwoWaySync := true; Enabled := true |}).1).1.2
    = [ OpListFiles "docs" ].
Proof. vm_compute. split; reflexivity. Qed.

(** ** Reconciliation with the remote listing *)

(** A property of the state that every call of the [WalkFunc] keeps holds
    after the walk. *)
Lemma walk_invariant {S} (fn : S → string → option FileInfo → option string
                               → S * Verdict) (P : S → Prop) :
  (∀ s path info err, P s → P (fn s path info err).1) →
  ∀ t s, P s → P (walk fn t s).1.
Proof.
  intros Hfn. fix IH 1.
  intros [path size modTime | path err | path modTime readErr entries] s Hs.
  - simpl. apply Hfn, Hs.
  - simpl. apply Hfn, Hs.
  - simpl.
    pose proof (Hfn s path (Some (mkFileInfo true 0 modTime)) readErr Hs) as Hs1.
    destruct (fn s path (Some (mkFileInfo true 0 modTime)) readErr) as [s1 v].
    simpl in Hs1.
    destruct readErr as [msg|]; [exact Hs1|].
    destruct v; try exact Hs1.
    revert s1 Hs1. induction entries as [|child rest IHrest]; intros s1 Hs1.
    + exact Hs1.
    + pose proof (IH child s1 Hs1) as Hs2.
      destruct (walk fn child s1) as [s2 v2]. simpl in Hs2.
      destruct child, v2; try exact Hs2; apply IHrest, Hs2.
Qed.

(** The table of local files never holds an excluded path. *)
Lemma local_table_skips_excluded Match Rel folder tree relPath modTime :
  (Walk (local_visit Match Rel folder) tree ∅).1 !! relPath = Some modTime →
  ShouldExclude Match relPath (ExcludePatterns folder) = false.
Proof.
  set (P := λ table : gmap string Z, ∀ relPath modTime,
         table !! relPath = Some modTime →
         ShouldExclude Match relPath (ExcludePatterns folder) = false).
  assert (Hfn : ∀ s path info err,
            P s → P (local_visit Match Rel folder s path info err).1).
  { intros s path info err Hs. unfold local_visit.
    destruct err as [msg|]; [exact Hs|].
    destruct info as [info|]; [|exact Hs].
    destruct (IsDir info); [exact Hs|]. cbn [negb].
    destruct (Rel (Path folder) path) as [rel|msg]; [|exact Hs].
    destruct (ShouldExclude Match rel (ExcludePatterns folder)) eqn:Hex;
      [exact Hs|].
    simpl. intros rel' modTime'. rewrite lookup_insert.
    case_decide; [intros _; subst; exact Hex | apply Hs]. }
  assert (Hempty : P ∅).
  { intros rel' modTime'. rewrite lookup_empty. discriminate. }
  pose proof (walk_invariant (local_visit Match Rel folder) P Hfn tree ∅ Hempty)
    as Hwalk.
  unfold Walk. destruct (walk (local_visit Match Rel folder) tree ∅) as [table v].
  simpl in *. apply Hwalk.
Qed.

(** A remote object whose folder-relative path an exclude pattern matches
    is always taken for download, whatever the disk holds at that path. *)
Lemma excluded_remote_always_wanted Match Rel folder tree remotePath remoteFile :
  ShouldExclude Match remotePath (ExcludePatterns folder) = true →
  wants_download (Walk (local_visit Match Rel folder) tree ∅).1
    remotePath remoteFile = true.
Proof.
  intros Hex. unfold wants_download.
  destruct ((Walk (local_visit Match Rel folder) tree ∅).1 !! remotePath)
    as [modTime|] eqn:Hlook; [|reflexivity].
  apply local_table_skips_excluded in Hlook. congruence.
Qed.

(** The folder "docs" with two-way sync on. *)
Definition two_way_docs : FolderSync :=
  {| ID := "docs"; Path := "/data/docs"; ExcludePatterns := ["*.tmp"];
     LastSync := 0; TwoWaySync := true; Enabled := true |}.

(** C5 fails on the code: b.tmp exists in /data/docs and is newer
    (modified at 300) than the remote object docs/b.tmp (modified at
    100), yet the pass downloads the object over it and sets the time
    back to 100, because the table of local files leaves out what the
    exclude patterns match; a.txt, as new and not excluded, is left
    alone. *)
Theorem excluded_local_file_overwritten :
  downloadFromRemote example_Match example_Rel example_Join example_Dir
    example_sync_env two_way_docs (stats example_manager)
  = (add_download (stats example_manager) 3,
     [ OpListFiles "docs";
       OpMkdirAll "/data/docs";
       OpCreate "/data/docs/b.tmp";
       OpDownload "docs/b.tmp" "/data/docs/b.tmp" "old" None;
       OpChtimes "/data/docs/b.tmp" 100 ],
     None).
Proof. vm_compute. reflexivity. Qed.

(** ** The model on small inputs *)

Example detectContentType_examples :
  detectContentType slash_separator "/data/docs/report.txt" = "text/plain"
  ∧ detectContentType slash_separator "/data/v1.2/README" = "application/octet-stream"
  ∧ detectContentType slash_separator "/data/photo.jpeg" = "image/jpeg".
Proof. repeat split; reflexivity. Qed.

(** A rate of zero leaves the file unthrottled. *)
Example upload_reader_examples :
  upload_reader 0 7 (mkFileReader "hi") = Direct (mkFileReader "hi")
  ∧ upload_reader 1024 7 (mkFileReader "hi")
    = Throttled (mkThrottled (mkFileReader "hi") 1024 0 7).
Proof. split; reflexivity. Qed.

(** A stopped uploader panics on [QueueUpload]; [QueueFile] refuses
    first. *)
Example stopped_uploader_examples :
  (QueueUpload (Uploader.Stop (Uploader.Start (NewUploader AgentConfig))).1
     (example_task 0)).2 = Panicked "send on closed channel"
  ∧ (QueueFile "/" example_Rel
       (Uploader.Stop (Uploader.Start (NewUploader AgentConfig))).1
       "2024-05-01T12:00:00Z" "/data/docs/a.txt" "/data/docs").2
    = Returned (Some "uploader is not running").
Proof. split; reflexivity. Qed.

(** Watching /data/docs with the pattern *.tmp leaves out the directory
    cache.tmp and what is below it. *)
Example WatchPath_prunes_excluded :
  elements (watchedPaths
    (WatchPath example_Match example_Rel
       {| filepath_Abs := λ path, Ok path;
          Watcher.os_Stat := example_Stat;
          tree_at := λ _,
            DirNode "/data/docs" 300 None
              [ FileNode "/data/docs/a.txt" 2 300;
                DirNode "/data/docs/cache.tmp" 300 None
                  [ DirNode "/data/docs/cache.tmp/deep" 300 None [] ];
                DirNode "/data/docs/sub" 300 None [] ];
          fsnotify_Add := λ _, None;
          fsnotify_Remove := λ _, None |}
       NewFileWatcher "/data/docs" true ["*.tmp"]).1)
  = ["/data/docs/sub"; "/data/docs"].
Proof. vm_compute. reflexivity. Qed.

(** The watch registration fails after the folder was registered: the
    watcher cannot make the path absolute. *)
Example AddFolder_watch_failure :
  let env :=
    {| os_Stat_path := example_Stat;
       uuid_New := "6ba7b810-9dad-11d1-80b4-00c04fd430c8";
       fsnotify_NewWatcher := None;
       watch_env :=
         {| filepath_Abs := λ _, Err "getwd: no such file or directory";
            Watcher.os_Stat := example_Stat;
            tree_at := λ path, DirNode path 10 None [];
            fsnotify_Add := λ _, None;
            fsnotify_Remove := λ _, None |};
       config_env := config_env example_env |} in
  let started := (Sync.Start example_Match example_Rel example_env
                    example_manager).1 in
  let result := AddFolder example_Match example_Rel env started
                  (new_folder "photos" "/data/photos") in
  result.2 = Some ("failed to watch folder: failed to get absolute path: "
                   +:+ "getwd: no such file or directory")
  ∧ folders result.1.1 !! "photos" = Some (new_folder "photos" "/data/photos").
Proof. vm_compute. split; reflexivity. Qed.

(** [ReloadConfiguration] loads the configuration from the empty path;
    when no file is found there it gets the default configuration, which
    has no folder, and the registry is emptied. *)
Example ReloadConfiguration_missing_file :
  map_to_list
    (folders (ReloadConfiguration example_Match example_Rel example_IsAbs
                example_env example_manager).1) = [].
Proof. vm_compute. reflexivity. Qed.

(** * Further properties of the code *)

(** ** The uploader *)

(** The task [QueueFile] builds for a file. *)
Definition queued_task (Separator : ascii) (upload_time filePath folderPath
    relPath : string) : UploadTask :=
  {| FilePath := filePath;
     Key := ToSlash Separator relPath;
     FolderID := "";
     Priority := 1;
     Metadata := Some (<["upload_time" := upload_time]>
                      (<["source_folder" := folderPath]> ∅));
     RetryCount := 0;
     LastAttempt := 0 |}.

(** [QueueFile] either appends exactly one task, the one for the file, to
    the queue of a running uploader and returns nil, or leaves the
    uploader exactly as it was: when the uploader is not running, when the
    relative path cannot be computed, when the queue is full, and when the
    send panics. *)
Theorem QueueFile_appends_one_or_nothing
    (Separator : ascii) (Rel : string → string → io string)
    (u : Uploader) (upload_time filePath folderPath : string) :
  let r := QueueFile Separator Rel u upload_time filePath folderPath in
  (r.2 = Returned None
   ∧ running u = true
   ∧ ∃ relPath,
       Rel folderPath filePath = Ok relPath
       ∧ r.1 = set_taskQueue u
                 (Chan.mk (buf (taskQueue u)
                             ++ [queued_task Separator upload_time filePath
                                   folderPath relPath])
                          (cap (taskQueue u)) false))
  ∨ (r.1 = u ∧ ∃ failure, r.2 = failure ∧ failure ≠ Returned None).
Proof.
  cbv zeta. unfold QueueFile.
  destruct (running u) eqn:Hrun; cbn [negb];
    [|right; split; [reflexivity|eexists; split; [reflexivity|discriminate]]].
  destruct (Rel folderPath filePath) as [relPath|msg] eqn:Hrel;
    [|right; split; [reflexivity|eexists; split; [reflexivity|discriminate]]].
  unfold QueueUpload. fold (queued_task Separator upload_time filePath folderPath relPath).
  destruct (try_send (taskQueue u) _) as [q| |] eqn:Hsend.
  - left. cbn [fst snd]. repeat split. exists relPath. split; [reflexivity|].
    unfold try_send in Hsend. destruct (closed (taskQueue u)); [discriminate|].
    destruct (_ <? _); [|discriminate]. injection Hsend as <-. reflexivity.
  - right. split; [reflexivity|eexists; split; [reflexivity|discriminate]].
  - right. split; [reflexivity|eexists; split; [reflexivity|discriminate]].
Qed.



(** The four keys [processUpload] writes into the metadata. *)
Definition upload_keys : list string :=
  ["content_type"; "hash_sha256"; "size"; "modified_time"].

(** What a result of [processUpload] says. The result carries an error
    exactly when it is not a success, and the task in it keeps its path,
    key, folder, priority and retry count. A success means the file was
    opened, is no directory, was read and rewound, and the store accepted
    its bytes under the task's key: the hash is that of the bytes, the size
    the one [Stat] gave, the version the one the store returned, and the
    metadata handed to the store holds the four computed entries over the
    entries the caller supplied. *)
Theorem processUpload_result (IsPathSeparator : ascii → bool)
    (e : UploadEnv) (task : UploadTask) :
  let r := processUpload IsPathSeparator e task in
  (Success r = true ↔ Error r = None)
  ∧ FilePath (Task r) = FilePath task ∧ Key (Task r) = Key task
  ∧ FolderID (Task r) = FolderID task ∧ Priority (Task r) = Priority task
  ∧ RetryCount (Task r) = RetryCount task
  ∧ (Success r = true →
       ∃ file fileInfo body metadata,
         os_Open e (FilePath task) = Ok file
         ∧ file_Stat file = Ok fileInfo ∧ IsDir fileInfo = false
         ∧ file_body file = Ok body ∧ file_Seek file = None
         ∧ store_UploadFile e (Key task) body metadata = Ok (VersionID r)
         ∧ Hash r = sha256_hex e body ∧ Size r = FileSize fileInfo
         ∧ metadata !! "content_type"
           = Some (detectContentType IsPathSeparator (FilePath task))
         ∧ metadata !! "hash_sha256" = Some (Hash r)
         ∧ metadata !! "size" = Some (format_int e (Size r))
         ∧ metadata !! "modified_time"
           = Some (format_rfc3339_utc e (ModTime fileInfo))
         ∧ (∀ key, key ∉ upload_keys →
              metadata !! key = default ∅ (Metadata task) !! key)
         ∧ (Metadata task ≠ None → Metadata (Task r) = Some metadata)
         ∧ (Metadata task = None → Metadata (Task r) = None)).
Proof.
  cbv zeta. unfold processUpload.
  destruct (os_Open e (FilePath task)) as [file|msg] eqn:Hopen;
    [|simpl; repeat split; intros; discriminate].
  destruct (file_Stat file) as [fileInfo|msg] eqn:Hstat;
    [|simpl; repeat split; intros; discriminate].
  destruct (IsDir fileInfo) eqn:Hdir;
    [simpl; repeat split; intros; discriminate|].
  destruct (file_body file) as [body|msg] eqn:Hbody;
    [|simpl; repeat split; intros; discriminate].
  destruct (file_Seek file) as [msg|] eqn:Hseek;
    [simpl; repeat split; intros; discriminate|].
  set (metadata := <["modified_time" := _]> _).
  destruct (store_UploadFile e (Key task) body metadata) as [versionID|msg]
    eqn:Hstore.
  2: { destruct (Metadata task); simpl; repeat split; intros; discriminate. }
  assert (Hfields :
    ∀ task', task' = match Metadata task with
                     | Some _ => set_Metadata task (Some metadata)
                     | None => task
                     end →
    FilePath task' = FilePath task ∧ Key task' = Key task
    ∧ FolderID task' = FolderID task ∧ Priority task' = Priority task
    ∧ RetryCount task' = RetryCount task
    ∧ (Metadata task ≠ None → Metadata task' = Some metadata)
    ∧ (Metadata task = None → Metadata task' = None)).
  { intros task' ->. destruct (Metadata task) eqn:Hmd; simpl;
      repeat split; auto; try congruence. }
  destruct (Hfields _ eq_refl) as (H1 & H2 & H3 & H4 & H5 & H6 & H7).
  cbn [Task Success Error VersionID Hash Size].
  split; [split; reflexivity|].
  repeat (split; [assumption|]).
  intros _. exists file, fileInfo, body, metadata.
  repeat (split; [first [assumption | reflexivity]|]).
  subst metadata. repeat split; try assumption.
  - rewrite lookup_insert_ne by discriminate.
    rewrite lookup_insert_ne by discriminate.
    rewrite lookup_insert_ne by discriminate.
    apply lookup_insert_eq.
  - rewrite lookup_insert_ne by discriminate.
    rewrite lookup_insert_ne by discriminate.
    apply lookup_insert_eq.
  - rewrite lookup_insert_ne by discriminate. apply lookup_insert_eq.
  - apply lookup_insert_eq.
  - intros key Hkey. unfold upload_keys in Hkey.
    rewrite !lookup_insert_ne; [reflexivity|..];
      intros Heq; apply Hkey; rewrite <- Heq;
      apply list_elem_of_In; simpl; tauto.
Qed.

(** ** The throttled reader, continued *)

(** A call sleeps at most to the end of the one-second window, and only
    when it found the quota used up. *)
Definition bounded_sleep {R} (N : Z) (entry : Z * ReadStep R) : Prop :=
  let '(before, s) := entry in
  (0 ≤ step_slept s ≤ Second)%Z ∧ ((before < N)%Z → step_slept s = 0%Z).

Lemma throttled_Read_sleep {R} `{Reader R} (N clock : Z)
    (t : throttledReader R) (c : ReadCall) :
  (0 < N ≤ MaxInt64)%Z → throttled_inv N clock t →
  bounded_sleep N (bytesThisSec t, throttled_Read clock t c).
Proof.
  intros HN (Hrate & Hcount & Hlast).
  unfold bounded_sleep, throttled_Read. rewrite Hrate.
  set (now := (clock + Z.of_N (tick_entry c))%Z).
  set (elapsed := sat64 (now - lastTimestamp t)).
  assert (Helapsed : (0 ≤ elapsed ≤ MaxInt64)%Z).
  { subst elapsed now. unfold sat64, MinInt64, MaxInt64 in *. lia. }
  assert (Hsecond : Second = 1000000000%Z) by reflexivity.
  rewrite (wrap64_small (Second - elapsed))
    by (unfold MinInt64, MaxInt64 in *; lia).
  set (count := if (Second <=? elapsed)%Z then 0%Z else bytesThisSec t).
  assert (Hc : (count ≤ bytesThisSec t)%Z)
    by (subst count; destruct (Second <=? elapsed)%Z; lia).
  set (sleeps := (N <=? count)%Z && (0 <? Second - elapsed)%Z).
  assert (Hslept : (0 ≤ (if sleeps then Second - elapsed else 0) ≤ Second)%Z
                   ∧ ((bytesThisSec t < N)%Z →
                      (if sleeps then (Second - elapsed)%Z else 0%Z) = 0%Z)).
  { subst sleeps. destruct (Z.leb_spec N count); cbn [andb].
    - destruct (Z.ltb_spec 0 (Second - elapsed)); split; lia.
    - split; [lia | reflexivity]. }
  match goal with
  | |- context [if ?test then mkReadStep _ _ _ _ _ _ else _] => destruct test
  end.
  - exact Hslept.
  - destruct (reader_Read _ _) as [r' [data err]]. exact Hslept.
Qed.

Lemma throttled_run_sleep {R} `{Reader R} (N : Z) (calls : list ReadCall) :
  (0 < N ≤ MaxInt64)%Z →
  ∀ clock (t : throttledReader R), throttled_inv N clock t →
  Forall (bounded_sleep N)
    (window_view (bytesThisSec t) (throttled_run clock t calls)).
Proof.
  intros HN. induction calls as [|c rest IH]; intros clock t Hinv;
    [constructor|].
  destruct (throttled_Read_step N clock t c HN Hinv) as [Hstep Hinv'].
  pose proof (throttled_Read_sleep N clock t c HN Hinv) as Hsleep.
  cbn [throttled_run window_view].
  set (s := throttled_Read clock t c) in *.
  pose proof Hstep as (_ & _ & _ & Hcount' & _). cbv zeta in Hcount'.
  constructor; [exact Hsleep|]. rewrite <- Hcount'. apply IH, Hinv'.
Qed.

(** Whatever the reader behind it, the calls and the clock, a throttled
    reader with a positive rate never sleeps longer than one second in a
    call, and a call that finds room in the quota does not sleep at all. *)
Theorem throttled_reader_sleeps_within_window {R} `{Reader R} (N : Z) (r : R)
    (start : Z) (calls : list ReadCall) :
  (0 < N ≤ MaxInt64)%Z →
  Forall (bounded_sleep N)
    (window_view 0
       (throttled_run start (newThrottledReader r N start) calls)).
Proof.
  intros HN.
  apply (throttled_run_sleep N calls HN start (newThrottledReader r N start)).
  unfold throttled_inv, newThrottledReader. simpl. lia.
Qed.

Lemma throttled_reader_sleeps_within_window_witness :
  map step_slept
    (throttled_run 0
       (newThrottledReader (mkFileReader "abcdefghijklmnopqrstuvwxyz") 5 0)
       example_calls)
  = [0; 0; 0; 0; 999999980]%Z
  ∧ Forall (bounded_sleep 5)
      (window_view 0
         (throttled_run 0
            (newThrottledReader (mkFileReader "abcdefghijklmnopqrstuvwxyz") 5 0)
            example_calls)).
Proof.
  split; [vm_compute; reflexivity|].
  apply (throttled_reader_sleeps_within_window 5
           (mkFileReader "abcdefghijklmnopqrstuvwxyz") 0 example_calls).
  unfold MaxInt64. lia.
Defined.

(** The bytes a sequence of calls delivered, in order, and the reader the
    sequence leaves. *)
Fixpoint delivered_data {R} (log : list (ReadStep R)) : string :=
  match log with
  | [] => EmptyString
  | s :: rest =>
      match step_result s with
      | Returned (data, _) => data +:+ delivered_data rest
      | _ => delivered_data rest
      end
  end.

Fixpoint last_reader {R} (t : throttledReader R) (log : list (ReadStep R))
  : throttledReader R :=
  match log with
  | [] => t
  | s :: rest => last_reader (step_reader s) rest
  end.

Lemma take_bytes_append k s :
  (take_bytes k s).1 +:+ (take_bytes k s).2 = s.
Proof.
  revert s. induction k as [|k IH]; intros [|c rest]; simpl; try reflexivity.
  specialize (IH rest). destruct (take_bytes k rest) as [front back].
  simpl in *. change (String c (front +:+ back) = String c rest).
  rewrite IH. reflexivity.
Qed.

Lemma file_Read_keeps_content f k :
  (file_Read f k).2.1 +:+ unread (file_Read f k).1 = unread f.
Proof.
  unfold file_Read. destruct k as [|k]; [reflexivity|].
  destruct (unread f) as [|c rest] eqn:E; [simpl; rewrite E; reflexivity|].
  pose proof (take_bytes_append (S k) (String c rest)) as Happ.
  destruct (take_bytes (S k) (String c rest)) as [front back]. exact Happ.
Qed.

Lemma string_append_assoc (a b c : string) : (a +:+ b) +:+ c = a +:+ (b +:+ c).
Proof.
  induction a as [|x a IH]; [reflexivity|].
  change (String x ((a +:+ b) +:+ c) = String x (a +:+ (b +:+ c))).
  rewrite IH. reflexivity.
Qed.

Lemma throttled_file_Read_keeps_content (N clock : Z)
    (t : throttledReader FileReader) (c : ReadCall) :
  (0 < N ≤ MaxInt64)%Z → throttled_inv N clock t →
  ∃ data err,
    step_result (throttled_Read clock t c) = Returned (data, err)
    ∧ data +:+ unread (reader (step_reader (throttled_Read clock t c)))
      = unread (reader t).
Proof.
  intros HN Hinv.
  destruct (throttled_Read_step N clock t c HN Hinv)
    as [((data & err & Hres) & _) _].
  revert Hres. unfold throttled_Read.
  match goal with
  | |- context [if ?test then mkReadStep _ _ _ _ _ _ else _] => destruct test
  end; [discriminate|].
  match goal with
  | |- context [reader_Read (reader t) ?k] =>
      pose proof (file_Read_keeps_content (reader t) k) as Hkeep;
      change (reader_Read (reader t) k) with (file_Read (reader t) k)
  end.
  destruct (file_Read (reader t) _) as [r' [data' err']].
  simpl in *. intros [= <- <-]. eauto.
Qed.

Lemma throttled_run_keeps_content (N : Z) (calls : list ReadCall) :
  (0 < N ≤ MaxInt64)%Z →
  ∀ clock (t : throttledReader FileReader), throttled_inv N clock t →
  delivered_data (throttled_run clock t calls)
    +:+ unread (reader (last_reader t (throttled_run clock t calls)))
  = unread (reader t).
Proof.
  intros HN. induction calls as [|c rest IH]; intros clock t Hinv;
    [reflexivity|].
  destruct (throttled_Read_step N clock t c HN Hinv) as [_ Hinv'].
  destruct (throttled_file_Read_keeps_content N clock t c HN Hinv)
    as (data & err & Hres & Hkeep).
  cbn [throttled_run delivered_data last_reader].
  rewrite Hres, string_append_assoc, (IH _ _ Hinv'). exact Hkeep.
Qed.

(** Throttling only delays. Over a file, whatever the calls and the clock,
    the bytes a throttled reader with a positive rate has delivered,
    followed by the bytes still unread, are the content of the file: no
    byte is lost, repeated or reordered, and no call panics. *)
Theorem throttled_reader_keeps_content (N : Z) (content : string)
    (start : Z) (calls : list ReadCall) :
  (0 < N ≤ MaxInt64)%Z →
  let t := newThrottledReader (mkFileReader content) N start in
  let log := throttled_run start t calls in
  delivered_data log +:+ unread (reader (last_reader t log)) = content
  ∧ Forall (λ s, ∃ data err, step_result s = Returned (data, err)) log.
Proof.
  intros HN t log. subst t log. split.
  - apply (throttled_run_keeps_content N calls HN start).
    unfold throttled_inv, newThrottledReader. simpl. lia.
  - pose proof (@throttled_run_quota FileReader _ N calls HN start
                  (newThrottledReader (mkFileReader content) N start))
      as Hquota.
    destruct Hquota as [Hq _].
    { unfold throttled_inv, newThrottledReader. simpl. lia. }
    simpl in Hq. revert Hq.
    generalize (throttled_run start
                  (newThrottledReader (mkFileReader content) N start) calls).
    intros l. generalize 0%Z.
    induction l as [|s rest IHl]; intros cur Hq; [constructor|].
    cbn [window_view] in Hq. inversion Hq as [|? ? Hs Hrest]; subst.
    constructor; [destruct Hs as (Hres & _); exact Hres | eapply IHl, Hrest].
Qed.

Lemma throttled_reader_keeps_content_witness :
  delivered_data
    (throttled_run 0
       (newThrottledReader (mkFileReader "abcdefghijklmnopqrstuvwxyz") 5 0)
       example_calls) = "abcdefghijklmn"
  ∧ delivered_data
      (throttled_run 0
         (newThrottledReader (mkFileReader "abcdefghijklmnopqrstuvwxyz") 5 0)
         example_calls)
    +:+ unread (reader (last_reader
         (newThrottledReader (mkFileReader "abcdefghijklmnopqrstuvwxyz") 5 0)
         (throttled_run 0
            (newThrottledReader (mkFileReader "abcdefghijklmnopqrstuvwxyz") 5 0)
            example_calls)))
    = "abcdefghijklmnopqrstuvwxyz".
Proof.
  split; [vm_compute; reflexivity|].
  apply (throttled_reader_keeps_content 5 "abcdefghijklmnopqrstuvwxyz" 0
           example_calls).
  unfold MaxInt64. lia.
Defined.

(** ** The worker, continued *)

Definition total (l : list Z) : Z := foldr Z.add 0%Z l.

Lemma total_app l1 l2 : total (l1 ++ l2) = (total l1 + total l2)%Z.
Proof. induction l1 as [|x l1 IH]; simpl; [reflexivity | rewrite IH; lia]. Qed.

(** One iteration makes at most one attempt, publishes no more results
    than attempts, and waits only before a retry, for [2^RetryCount]
    seconds. *)
Lemma worker_iteration_bounds isSep e task :
  (0 ≤ RetryCount task)%Z →
  let '(evs, next) := worker_iteration isSep e task in
  length (attempts evs) ≤ 1
  ∧ length (results evs) ≤ length (attempts evs)
  ∧ (total (backoffs evs) = 0%Z
     ∨ (RetryCount task < 3)%Z
       ∧ total (backoffs evs) = (2 ^ RetryCount task * Second)%Z)
  ∧ (next = None
     ∨ ∃ task', next = Some task'
                ∧ (RetryCount task < 3)%Z
                ∧ RetryCount task' = (RetryCount task + 1)%Z).
Proof.
  intros Hrc. unfold worker_iteration.
  destruct (done_at_pickup e); [simpl; auto 10|].
  destruct (publish e); try (simpl; auto 10).
  rewrite processUpload_RetryCount.
  destruct (negb _ && _) eqn:Hretry; [|simpl; auto 10].
  apply andb_true_iff in Hretry as [_ Hlt]. apply Z.ltb_lt in Hlt.
  destruct (Z.ltb_spec (RetryCount task) 0); [lia|].
  rewrite Z.shiftl_1_l.
  destruct (done_at_backoff e); [simpl; auto 10|].
  destruct (requeue e).
  - simpl. repeat split; auto.
    + right. split; [exact Hlt | lia].
    + right. eexists. repeat split; auto.
  - simpl. repeat split; auto. right. split; [exact Hlt | lia].
  - simpl. repeat split; auto. right. split; [exact Hlt | lia].
  - simpl. repeat split; auto. right. split; [exact Hlt | lia].
Qed.

(** The longest a task with the given retry count can still wait between
    attempts: [2^RetryCount + ... + 2^2] seconds. *)
Definition wait_bound (retryCount : Z) : Z :=
  if (retryCount <? 3)%Z then ((2 ^ 3 - 2 ^ retryCount) * Second)%Z else 0%Z.

Lemma wait_bound_step retryCount :
  (0 ≤ retryCount < 3)%Z →
  (2 ^ retryCount * Second + wait_bound (retryCount + 1))%Z
  = wait_bound retryCount
  ∧ (0 ≤ 2 ^ retryCount * Second)%Z.
Proof.
  intros Hrc.
  assert (Hcases : (retryCount = 0 ∨ retryCount = 1 ∨ retryCount = 2)%Z) by lia.
  destruct Hcases as [-> | [-> | ->]]; vm_compute; split; congruence.
Qed.

Lemma wait_bound_nonneg retryCount :
  (0 ≤ retryCount)%Z → (0 ≤ wait_bound retryCount)%Z.
Proof.
  intros Hrc. unfold wait_bound.
  destruct (Z.ltb_spec retryCount 3); [|lia].
  assert (Hcases : (retryCount = 0 ∨ retryCount = 1 ∨ retryCount = 2)%Z) by lia.
  destruct Hcases as [-> | [-> | ->]]; vm_compute; congruence.
Qed.

Lemma task_lifecycle_bounds isSep envs : ∀ k n task,
  k = Z.to_nat (3 - RetryCount task) → (0 ≤ RetryCount task)%Z →
  let trace := task_lifecycle isSep envs n task in
  length (attempts trace) ≤ S k
  ∧ length (results trace) ≤ length (attempts trace)
  ∧ (0 ≤ total (backoffs trace) ≤ wait_bound (RetryCount task))%Z.
Proof.
  induction k as [k IH] using lt_wf_ind. intros n task Hk Hrc. cbv zeta.
  rewrite task_lifecycle_unfold.
  pose proof (worker_iteration_bounds isSep (envs n) task Hrc) as Hiter.
  destruct (worker_iteration isSep (envs n) task) as [evs next].
  destruct Hiter as (Hatt & Hres & Hwait & Hnext).
  pose proof (wait_bound_nonneg (RetryCount task) Hrc) as Hnonneg.
  destruct Hnext as [-> | (task' & -> & Hlt & Hrc')].
  - destruct Hwait as [Hz | [Hlt Hw]].
    + rewrite Hz. repeat split; lia.
    + destruct (wait_bound_step (RetryCount task) ltac:(lia)) as [Hstep Hpos].
      pose proof (wait_bound_nonneg (RetryCount task + 1) ltac:(lia)).
      rewrite Hw. repeat split; lia.
  - destruct (IH (Z.to_nat (3 - RetryCount task')) ltac:(lia) (S n) task'
                eq_refl ltac:(lia)) as (IH1 & IH2 & IH3).
    destruct (wait_bound_step (RetryCount task) ltac:(lia)) as [Hstep Hpos].
    rewrite Hrc' in IH3.
    unfold attempts, results, backoffs in *.
    rewrite !omap_app_events, !length_app, total_app.
    destruct Hwait as [Hz | [_ Hw]]; [rewrite Hz | rewrite Hw];
      repeat split; lia.
Qed.

(** Whatever the uploads do and whenever the context is cancelled, a task
    that enters with [RetryCount = 0] is attempted at most four times,
    publishes at most one result per attempt, and spends at most seven
    seconds waiting between its attempts. *)
Theorem task_retries_are_bounded isSep envs n task :
  RetryCount task = 0%Z →
  let trace := task_lifecycle isSep envs n task in
  length (attempts trace) ≤ 4
  ∧ length (results trace) ≤ length (attempts trace)
  ∧ (0 ≤ total (backoffs trace) ≤ 7 * Second)%Z.
Proof.
  intros Hrc trace. subst trace.
  destruct (task_lifecycle_bounds isSep envs (Z.to_nat (3 - RetryCount task))
              n task eq_refl ltac:(lia)) as (H1 & H2 & H3).
  rewrite Hrc in *. change (wait_bound 0) with (7 * Second)%Z in H3.
  simpl in H1. repeat split; try lia; exact H2.
Qed.

(** The context is cancelled while the second attempt waits to retry. *)
Definition cancelled_envs (n : nat) : AttemptEnv :=
  match n with
  | 1 => {| upload_env := missing_file_env; done_at_pickup := false;
            publish := SendTaken; time_Now := Second;
            done_at_backoff := true; requeue := SendTaken |}
  | _ => attempt_env missing_file_env 0
  end.

Lemma task_retries_are_bounded_witness :
  length (attempts (task_lifecycle slash_separator cancelled_envs 0 fresh_task))
    = 2
  ∧ length (attempts (task_lifecycle slash_separator cancelled_envs 0 fresh_task))
    ≤ 4.
Proof.
  split; [vm_compute; reflexivity|].
  apply (task_retries_are_bounded slash_separator cancelled_envs 0 fresh_task).
  reflexivity.
Defined.

(** ** The exclude matcher, continued *)

(** [ShouldExclude] depends on the patterns as a set: no pattern excludes
    nothing, the patterns of two lists exclude what either list excludes,
    and the order of the patterns does not matter. *)
Theorem ShouldExclude_is_a_union
    (Match : string → string → bool * option string) (path : string) :
  ShouldExclude Match path [] = false
  ∧ (∀ l1 l2,
       ShouldExclude Match path (l1 ++ l2)
       = ShouldExclude Match path l1 || ShouldExclude Match path l2)
  ∧ (∀ l1 l2, l1 ≡ₚ l2 →
       ShouldExclude Match path l1 = ShouldExclude Match path l2).
Proof.
  split; [reflexivity|]. split.
  - intros l1 l2. rewrite !ShouldExclude_existsb. apply existsb_app.
  - intros l1 l2 Hperm. rewrite !ShouldExclude_existsb.
    induction Hperm as [|x l l' _ IH|x y l|l l' l'' _ IH1 _ IH2]; simpl.
    + reflexivity.
    + rewrite IH. reflexivity.
    + destruct (matches_cleanly Match path x),
               (matches_cleanly Match path y); reflexivity.
    + congruence.
Qed.

(** ** The watcher *)

Lemma watch_visit_excludes Match Rel env absPath fw walkPath info err :
  excludes (watch_visit Match Rel env absPath fw walkPath info err).1
  = excludes fw.
Proof.
  unfold watch_visit. destruct err, info as [info|]; try reflexivity.
  destruct (IsDir info); [|reflexivity]. cbn [negb].
  destruct (shouldExclude _ _ _ _ _); [reflexivity|].
  destruct (fsnotify_Add env walkPath); reflexivity.
Qed.

Lemma shouldExclude_excludes Match Rel fw fw' rootPath path :
  excludes fw' = excludes fw →
  shouldExclude Match Rel fw' rootPath path
  = shouldExclude Match Rel fw rootPath path.
Proof. intros Heq. unfold shouldExclude. rewrite Heq. reflexivity. Qed.

(** What the walk of [WatchPath] keeps true: the exclude patterns stay as
    they are, and whatever joins the watch set is a directory that the
    patterns of the root do not exclude. *)
Definition watch_inv (Match : string → string → bool * option string)
    (Rel : string → string → io string) (absPath : string)
    (fw0 fw : FileWatcher) : Prop :=
  excludes fw = excludes fw0
  ∧ ∀ p, p ∈ watchedPaths fw →
         p ∈ watchedPaths fw0 ∨ shouldExclude Match Rel fw0 absPath p = false.

Lemma watch_visit_inv Match Rel env absPath fw0 fw walkPath info err :
  watch_inv Match Rel absPath fw0 fw →
  watch_inv Match Rel absPath fw0
    (watch_visit Match Rel env absPath fw walkPath info err).1.
Proof.
  intros [Hex Hw]. unfold watch_visit.
  destruct err, info as [info|]; try (split; assumption).
  destruct (IsDir info); [|split; assumption]. cbn [negb].
  destruct (shouldExclude Match Rel fw absPath walkPath) eqn:Hexcl;
    [split; assumption|].
  destruct (fsnotify_Add env walkPath); [split; assumption|].
  split; [exact Hex|]. simpl. intros p Hp.
  apply elem_of_union in Hp as [Hp|Hp]; [|apply Hw, Hp].
  apply elem_of_singleton in Hp. subst p. right.
  rewrite <- Hexcl. symmetry. apply shouldExclude_excludes, Hex.
Qed.

(** A walk whose [WalkFunc] never returns an error other than
    [filepath.SkipDir] returns none either. *)
Lemma walk_no_abort {S} (fn : S → string → option FileInfo → option string
                              → S * Verdict) :
  (∀ s path info err msg, (fn s path info err).2 ≠ Abort msg) →
  ∀ t s msg, (walk fn t s).2 ≠ Abort msg.
Proof.
  intros Hfn. fix IH 1.
  intros [path size modTime | path err | path modTime readErr entries] s msg.
  - simpl. apply Hfn.
  - simpl. apply Hfn.
  - simpl.
    pose proof (Hfn s path (Some (mkFileInfo true 0 modTime)) readErr msg) as Hv.
    destruct (fn s path (Some (mkFileInfo true 0 modTime)) readErr) as [s1 v].
    simpl in Hv.
    destruct readErr as [e|]; [exact Hv|].
    destruct v; try exact Hv.
    clear Hv. revert s1. induction entries as [|child rest IHrest]; intros s1.
    + discriminate.
    + pose proof (IH child s1) as Hchild.
      destruct (walk fn child s1) as [s2 v2]. simpl in Hchild.
      destruct v2 as [| |m].
      * destruct child; apply IHrest.
      * destruct child; try apply IHrest. discriminate.
      * exfalso. exact (Hchild m eq_refl).
Qed.

Lemma watch_visit_no_abort Match Rel env absPath fw walkPath info err msg :
  (watch_visit Match Rel env absPath fw walkPath info err).2 ≠ Abort msg.
Proof.
  unfold watch_visit. destruct err, info as [info|]; try discriminate.
  destruct (IsDir info); [|discriminate]. cbn [negb].
  destruct (shouldExclude _ _ _ _ _); [discriminate|].
  destruct (fsnotify_Add env walkPath); discriminate.
Qed.

(** [WatchPath] on a directory, recursively, cannot fail once the path is
    made absolute and found: registration failures below are skipped.
    Every path it adds to the watch set is one the exclude patterns stored
    for the root do not match, and the patterns stored are the ones passed,
    or the ones the root had when none is passed. *)
Theorem WatchPath_adds_no_excluded_path
    (Match : string → string → bool * option string)
    (Rel : string → string → io string)
    (env : WatchEnv) (fw : FileWatcher) (path absPath : string)
    (fileInfo : FileInfo) (excludePatterns : list string) :
  filepath_Abs env path = Ok absPath →
  Watcher.os_Stat env absPath = Ok fileInfo → IsDir fileInfo = true →
  let fw' := (WatchPath Match Rel env fw path true excludePatterns).1 in
  (WatchPath Match Rel env fw path true excludePatterns).2 = None
  ∧ excludes fw'
    = (if 0 <? length excludePatterns
       then <[absPath := excludePatterns]> (excludes fw) else excludes fw)
  ∧ ∀ p, p ∈ watchedPaths fw' → p ∉ watchedPaths fw →
         shouldExclude Match Rel fw' absPath p = false.
Proof.
  intros Habs Hstat Hdir. cbv zeta. unfold WatchPath.
  rewrite Habs, Hstat, Hdir. cbn [andb].
  set (fw1 := if 0 <? length excludePatterns then _ else fw).
  assert (Hw1 : watchedPaths fw1 = watchedPaths fw)
    by (subst fw1; destruct (0 <? length excludePatterns); reflexivity).
  assert (Hex1 : excludes fw1
                 = (if 0 <? length excludePatterns
                    then <[absPath := excludePatterns]> (excludes fw)
                    else excludes fw))
    by (subst fw1; destruct (0 <? length excludePatterns); reflexivity).
  pose proof (walk_invariant (watch_visit Match Rel env absPath)
                (watch_inv Match Rel absPath fw1)
                (λ s p info err, watch_visit_inv Match Rel env absPath fw1 s p info err)
                (tree_at env absPath) fw1
                (conj eq_refl (λ p Hp, or_introl Hp))) as [Hex Hw].
  pose proof (walk_no_abort (watch_visit Match Rel env absPath)
                (watch_visit_no_abort Match Rel env absPath)
                (tree_at env absPath) fw1) as Hno.
  unfold Walk.
  destruct (walk (watch_visit Match Rel env absPath) (tree_at env absPath) fw1)
    as [fw' v].
  simpl in Hex, Hw, Hno.
  assert (Hv : match v with Abort err => Some err | _ => None end = None).
  { destruct v as [| |m]; try reflexivity. exfalso. exact (Hno m eq_refl). }
  rewrite Hv. cbn [fst snd].
  split; [reflexivity|]. split; [rewrite Hex; exact Hex1|].
  intros p Hp Hnew.
  destruct (Hw p Hp) as [Hold | Hexcl]; [rewrite Hw1 in Hold; contradiction|].
  rewrite <- Hexcl. apply shouldExclude_excludes, Hex.
Qed.

(** A host where /data/docs holds a file, a directory the patterns exclude
    and one they do not. *)
Definition tree_watch_env : WatchEnv :=
  {| filepath_Abs := λ path, Ok path;
     Watcher.os_Stat := example_Stat;
     tree_at := λ _,
       DirNode "/data/docs" 300 None
         [ FileNode "/data/docs/a.txt" 2 300;
           DirNode "/data/docs/cache.tmp" 300 None
             [ DirNode "/data/docs/cache.tmp/deep" 300 None [] ];
           DirNode "/data/docs/sub" 300 None [] ];
     fsnotify_Add := λ _, None;
     fsnotify_Remove := λ _, None |}.

Lemma WatchPath_adds_no_excluded_path_witness :
  let result := WatchPath example_Match example_Rel tree_watch_env
                  NewFileWatcher "/data/docs" true ["*.tmp"] in
  result.2 = None
  ∧ excludes result.1 = {[ "/data/docs" := ["*.tmp"] ]}
  ∧ ∀ p, p ∈ watchedPaths result.1 → p ∉ watchedPaths NewFileWatcher →
         shouldExclude example_Match example_Rel result.1 "/data/docs" p
         = false.
Proof.
  apply (WatchPath_adds_no_excluded_path example_Match example_Rel
           tree_watch_env NewFileWatcher "/data/docs" "/data/docs"
           (mkFileInfo true 0 10) ["*.tmp"]); reflexivity.
Defined.

(** ** The watch loop *)

(** Whether the range over the roots finds one the created directory is
    below and whose patterns do not exclude it. *)
Definition root_found (Match : string → string → bool * option string)
    (Rel : string → string → io string) (IsAbs : string → bool)
    (fw : FileWatcher) (name : string) (roots : list string) : bool :=
  existsb (λ rootPath, isSubdirectory Rel IsAbs name rootPath
                       && negb (shouldExclude Match Rel fw rootPath name))
    roots.

Lemma watch_created_found Match Rel IsAbs env fw name roots :
  watch_created Match Rel IsAbs env fw name roots
  = if root_found Match Rel IsAbs fw name roots
    then match fsnotify_Add env name with
         | None => add_watched fw name
         | Some _ => fw
         end
    else fw.
Proof.
  induction roots as [|rootPath rest IH]; [reflexivity|].
  simpl. destruct (isSubdirectory Rel IsAbs name rootPath
                   && negb (shouldExclude Match Rel fw rootPath name));
    [reflexivity | exact IH].
Qed.

Lemma root_found_perm Match Rel IsAbs fw name roots roots' :
  roots ≡ₚ roots' →
  root_found Match Rel IsAbs fw name roots
  = root_found Match Rel IsAbs fw name roots'.
Proof.
  intros Hperm. unfold root_found. apply eq_true_iff_eq.
  rewrite !existsb_exists.
  split; intros (r & Hin & Hr); exists r; split; try exact Hr.
  - eapply Permutation_in; [exact Hperm | exact Hin].
  - eapply Permutation_in; [symmetry; exact Hperm | exact Hin].
Qed.

(** Go ranges over [fw.excludes] in an order of its own. The loop of
    [watch] stops at the first root that fits, and what it then does is
    the same for every root: whatever the order, the watcher after the
    event and the event handed on are the same. *)
Theorem watch_event_any_range_order
    (Match : string → string → bool * option string)
    (Rel : string → string → io string) (IsAbs : string → bool)
    (env : WatchEnv) (roots roots' : list string) (fw : FileWatcher)
    (event : Fsnotify.Event) :
  roots ≡ₚ roots' →
  watch_event Match Rel IsAbs env roots fw event
  = watch_event Match Rel IsAbs env roots' fw event.
Proof.
  intros Hperm. unfold watch_event.
  rewrite !watch_created_found.
  rewrite (root_found_perm Match Rel IsAbs fw _ roots roots' Hperm).
  reflexivity.
Qed.

(** A watcher with patterns for two roots. *)
Definition two_root_watcher : FileWatcher :=
  {| watchedPaths := {[ "/data/docs"; "/data/photos" ]};
     excludes := {[ "/data/docs" := ["*.tmp"]; "/data/photos" := ["raw"] ]} |}.

Definition created_docs_new : Fsnotify.Event :=
  {| Fsnotify.Name := "/data/docs/new"; Fsnotify.Op := Fsnotify.Create |}.

(** [os.Stat] finds the directory just created. *)
Definition created_env : WatchEnv :=
  {| filepath_Abs := λ path, Ok path;
     Watcher.os_Stat := λ path,
       if String.eqb path "/data/docs/new" then Ok (mkFileInfo true 0 40)
       else example_Stat path;
     tree_at := λ path, DirNode path 10 None [];
     fsnotify_Add := λ _, None;
     fsnotify_Remove := λ _, None |}.

Lemma watch_event_any_range_order_witness :
  watch_event example_Match example_Rel example_IsAbs created_env
    ["/data/docs"; "/data/photos"] two_root_watcher created_docs_new
  = watch_event example_Match example_Rel example_IsAbs created_env
      ["/data/photos"; "/data/docs"] two_root_watcher created_docs_new.
Proof.
  apply (watch_event_any_range_order example_Match example_Rel
           example_IsAbs created_env
           ["/data/docs"; "/data/photos"] ["/data/photos"; "/data/docs"]
           two_root_watcher created_docs_new).
  apply perm_swap.
Defined.

(** The loop of [watch] looks for the root of a created directory among
    the roots that have exclude patterns stored, and nowhere else. A path
    joins the watch set through an event only when it is the name of a
    Create event and lies below a root with stored patterns that do not
    exclude it; when no root has patterns, no event adds a path. *)
Theorem created_directory_needs_patterned_root
    (Match : string → string → bool * option string)
    (Rel : string → string → io string) (IsAbs : string → bool)
    (env : WatchEnv) (roots : list string) (fw : FileWatcher)
    (event : Fsnotify.Event) :
  roots ≡ₚ (map_to_list (excludes fw)).*1 →
  let fw' := (watch_event Match Rel IsAbs env roots fw event).1 in
  excludes fw' = excludes fw
  ∧ (∀ p, p ∈ watchedPaths fw' →
          p ∈ watchedPaths fw
          ∨ (p = Fsnotify.Name event
             ∧ Z.land (Fsnotify.Op event) Fsnotify.Create = Fsnotify.Create
             ∧ fsnotify_Add env p = None
             ∧ ∃ rootPath patterns,
                 excludes fw !! rootPath = Some patterns
                 ∧ isSubdirectory Rel IsAbs p rootPath = true
                 ∧ shouldExclude Match Rel fw rootPath p = false))
  ∧ (excludes fw = ∅ → watchedPaths fw' ⊆ watchedPaths fw).
Proof.
  intros Hperm. cbv zeta.
  assert (Hmain :
    excludes (watch_event Match Rel IsAbs env roots fw event).1 = excludes fw
    ∧ ∀ p, p ∈ watchedPaths (watch_event Match Rel IsAbs env roots fw event).1 →
          p ∈ watchedPaths fw
          ∨ (p = Fsnotify.Name event
             ∧ Z.land (Fsnotify.Op event) Fsnotify.Create = Fsnotify.Create
             ∧ fsnotify_Add env p = None
             ∧ ∃ rootPath patterns,
                 excludes fw !! rootPath = Some patterns
                 ∧ isSubdirectory Rel IsAbs p rootPath = true
                 ∧ shouldExclude Match Rel fw rootPath p = false)).
  { unfold watch_event.
    destruct (Z.eqb_spec (Z.land (Fsnotify.Op event) Fsnotify.Create)
                Fsnotify.Create) as [Hcreate|_].
    - cbn [fst]. rewrite watch_created_found.
      destruct (Watcher.os_Stat env (Fsnotify.Name event)) as [info|msg];
        [|split; [reflexivity|intros p Hp; left; exact Hp]].
      destruct (IsDir info); [|split; [reflexivity|intros p Hp; left; exact Hp]].
      destruct (root_found Match Rel IsAbs fw (Fsnotify.Name event) roots)
        eqn:Hfound; [|split; [reflexivity|intros p Hp; left; exact Hp]].
      destruct (fsnotify_Add env (Fsnotify.Name event)) eqn:Hadd;
        [split; [reflexivity|intros p Hp; left; exact Hp]|].
      split; [reflexivity|]. intros p Hp. simpl in Hp.
      apply elem_of_union in Hp as [Hp|Hp]; [|left; exact Hp].
      apply elem_of_singleton in Hp. subst p. right.
      split; [reflexivity|]. split; [exact Hcreate|]. split; [exact Hadd|].
      unfold root_found in Hfound. apply existsb_exists in Hfound
        as (rootPath & Hin & Hroot).
      apply andb_true_iff in Hroot as [Hsub Hexcl].
      apply negb_true_iff in Hexcl.
      assert (Hkey : rootPath ∈ (map_to_list (excludes fw)).*1).
      { rewrite <- Hperm. apply list_elem_of_In. exact Hin. }
      apply list_elem_of_fmap in Hkey as ([r patterns] & -> & Hentry).
      apply elem_of_map_to_list in Hentry.
      exists r, patterns. auto.
    - destruct (_ =? _)%Z;
        [split; [reflexivity|intros p Hp; left; exact Hp]|].
      destruct (_ =? _)%Z;
        [split; [reflexivity|]; intros p Hp; left; simpl in Hp;
         apply elem_of_difference in Hp as [Hp _]; exact Hp|].
      destruct (_ =? _)%Z;
        [split; [reflexivity|]; intros p Hp; left; simpl in Hp;
         apply elem_of_difference in Hp as [Hp _]; exact Hp|].
      split; [reflexivity|intros p Hp; left; exact Hp]. }
  destruct Hmain as [Hex Hw]. split; [exact Hex|]. split; [exact Hw|].
  intros Hempty p Hp.
  destruct (Hw p Hp) as [Hold | (_ & _ & _ & rootPath & patterns & Hlook & _)];
    [exact Hold|].
  rewrite Hempty, lookup_empty in Hlook. discriminate.
Qed.

Lemma created_directory_needs_patterned_root_witness :
  let fw' := (watch_event example_Match example_Rel example_IsAbs
                created_env ["/data/docs"; "/data/photos"] two_root_watcher
                created_docs_new).1 in
  excludes fw' = excludes two_root_watcher
  ∧ (∀ p, p ∈ watchedPaths fw' →
          p ∈ watchedPaths two_root_watcher
          ∨ (p = Fsnotify.Name created_docs_new
             ∧ Z.land (Fsnotify.Op created_docs_new) Fsnotify.Create
               = Fsnotify.Create
             ∧ fsnotify_Add created_env p = None
             ∧ ∃ rootPath patterns,
                 excludes two_root_watcher !! rootPath = Some patterns
                 ∧ isSubdirectory example_Rel example_IsAbs p rootPath
                   = true
                 ∧ shouldExclude example_Match example_Rel two_root_watcher
                     rootPath p = false))
  ∧ (excludes two_root_watcher = ∅ →
     watchedPaths fw' ⊆ watchedPaths two_root_watcher).
Proof.
  apply (created_directory_needs_patterned_root example_Match example_Rel
           example_IsAbs created_env ["/data/docs"; "/data/photos"]
           two_root_watcher created_docs_new).
  vm_compute. reflexivity.
Defined.

(** The test [op&bit == bit] of the loop, for the bit at position [k]. *)
Lemma land_bit (op k : Z) :
  (0 ≤ k)%Z → (Z.land op (2 ^ k) =? 2 ^ k)%Z = Z.testbit op k.
Proof.
  intros Hk. destruct (Z.testbit op k) eqn:Hb.
  - apply Z.eqb_eq, Z.bits_inj'. intros n Hn.
    rewrite Z.land_spec, Z.pow2_bits_eqb by lia.
    destruct (Z.eqb_spec k n) as [->|_];
      [rewrite Hb; reflexivity | apply andb_false_r].
  - apply Z.eqb_neq. intros Heq.
    assert (Hbit : Z.testbit (Z.land op (2 ^ k)) k = true)
      by (rewrite Heq; apply Z.pow2_bits_true; lia).
    rewrite Z.land_spec, Hb in Hbit. discriminate.
Qed.

Lemma land_15 (op : Z) :
  Z.land op 15 = 0%Z
  ↔ Z.testbit op 0 = false ∧ Z.testbit op 1 = false
    ∧ Z.testbit op 2 = false ∧ Z.testbit op 3 = false.
Proof.
  change 15%Z with (Z.ones 4). split.
  - intros Hzero.
    assert (Hlow : ∀ k, (0 ≤ k < 4)%Z → Z.testbit op k = false).
    { intros k Hk.
      assert (Hbit : Z.testbit (Z.land op (Z.ones 4)) k = false)
        by (rewrite Hzero; apply Z.bits_0).
      rewrite Z.land_spec, Z.ones_spec_low, andb_true_r in Hbit by lia.
      exact Hbit. }
    repeat split; apply Hlow; lia.
  - intros (H0 & H1 & H2 & H3). apply Z.bits_inj'. intros n Hn.
    rewrite Z.land_spec, Z.bits_0.
    destruct (Z.lt_ge_cases n 4) as [Hlt|Hge].
    + assert (Hcases : n = 0%Z ∨ n = 1%Z ∨ n = 2%Z ∨ n = 3%Z) by lia.
      destruct Hcases as [-> | [-> | [-> | ->]]];
        [rewrite H0 | rewrite H1 | rewrite H2 | rewrite H3]; reflexivity.
    + rewrite Z.ones_spec_high by lia. apply andb_false_r.
Qed.

(** Which events of fsnotify the loop of [watch] hands to the handlers.
    An event is dropped exactly when none of its Create, Write, Remove and
    Rename bits is set, so an event that is a Chmod only is dropped. The
    type handed on is that of the lowest of these bits, with the name of
    the event as the path. An event with the Write bit and no Create bit
    leaves the watcher as it was, whatever its other bits. *)
Theorem watch_event_dispatch
    (Match : string → string → bool * option string)
    (Rel : string → string → io string) (IsAbs : string → bool)
    (env : WatchEnv) (roots : list string) (fw : FileWatcher)
    (event : Fsnotify.Event) :
  let op := Fsnotify.Op event in
  let out := (watch_event Match Rel IsAbs env roots fw event).2 in
  (out = None ↔ Z.land op 15 = 0%Z)
  ∧ (Z.land op 15 = 0%Z →
     watch_event Match Rel IsAbs env roots fw event = (fw, None))
  ∧ (∀ type path, out = Some (type, path) →
       path = Fsnotify.Name event
       ∧ type = if Z.testbit op 0 then Watcher.EventCreate
                else if Z.testbit op 1 then Watcher.EventUpdate
                else if Z.testbit op 2 then Watcher.EventDelete
                else Watcher.EventRename)
  ∧ (Z.testbit op 0 = false → Z.testbit op 1 = true →
     watch_event Match Rel IsAbs env roots fw event
     = (fw, Some (Watcher.EventUpdate, Fsnotify.Name event))).
Proof.
  cbv zeta. unfold watch_event.
  change Fsnotify.Create with (2 ^ 0)%Z. change Fsnotify.Write with (2 ^ 1)%Z.
  change Fsnotify.Remove with (2 ^ 2)%Z. change Fsnotify.Rename with (2 ^ 3)%Z.
  rewrite !land_bit by lia. rewrite land_15.
  destruct (Z.testbit (Fsnotify.Op event) 0),
           (Z.testbit (Fsnotify.Op event) 1),
           (Z.testbit (Fsnotify.Op event) 2),
           (Z.testbit (Fsnotify.Op event) 3); cbn [snd];
    (split; [split; [intros Hout; try discriminate Hout; repeat split
                    |intros (H0 & H1 & H2 & H3);
                     try discriminate; reflexivity]|]);
    (split; [intros (H0 & H1 & H2 & H3); try discriminate; reflexivity|]);
    (split; [intros type path Hout; try discriminate Hout;
             injection Hout as <- <-; split; reflexivity|]);
    intros H0 H1; try discriminate; reflexivity.
Qed.

(** ** The state of the manager *)

(** Pausing stops nothing. [PauseSync] only sets the state; [FullSync]
    overwrites it when it starts, does on a paused manager exactly what it
    does on the manager not paused, and leaves the state idle, so that the
    pause is gone when it returns. A file event on a paused manager queues
    the same upload. *)
Theorem PauseSync_stops_nothing
    (Separator : ascii)
    (Match : string → string → bool * option string)
    (Rel : string → string → io string)
    (Join : string → string → string) (Dir Clean : string → string)
    (IsAbs : string → bool)
    (env : string → SyncEnv) (now : Z) (sm : SyncManager)
    (now_rfc3339 : string) (type : EventType) (path : string) :
  FullSync Separator Match Rel Join Dir env now (PauseSync sm)
  = FullSync Separator Match Rel Join Dir env now sm
  ∧ state (FullSync Separator Match Rel Join Dir env now sm).1.1
    = SyncStateIdle
  ∧ SyncNow Separator Match Rel Join Dir env now (PauseSync sm) ""
    = SyncNow Separator Match Rel Join Dir env now sm ""
  ∧ uploader (handleFileEvent Separator Rel Clean IsAbs (PauseSync sm)
                now_rfc3339 type path).1
    = uploader (handleFileEvent Separator Rel Clean IsAbs sm now_rfc3339
                  type path).1
  ∧ (handleFileEvent Separator Rel Clean IsAbs (PauseSync sm) now_rfc3339
       type path).2
    = (handleFileEvent Separator Rel Clean IsAbs sm now_rfc3339 type path).2.
Proof.
  assert (Hfull : FullSync Separator Match Rel Join Dir env now (PauseSync sm)
                  = FullSync Separator Match Rel Join Dir env now sm)
    by (unfold FullSync, PauseSync; destruct (state sm); reflexivity).
  split; [exact Hfull|]. split.
  { unfold FullSync.
    destruct (sync_folders _ _ _ _ _ _ _ _) as [[sm' ops] [msg|]]; reflexivity. }
  split; [unfold SyncNow; simpl; exact Hfull|].
  assert (Hfolders : folders (PauseSync sm) = folders sm)
    by (unfold PauseSync; destruct (state sm); reflexivity).
  assert (Hup : uploader (PauseSync sm) = uploader sm)
    by (unfold PauseSync; destruct (state sm); reflexivity).
  unfold handleFileEvent. rewrite Hfolders, Hup.
  destruct (find _ _) as [[id folder]|]; [|split; [exact Hup|reflexivity]].
  destruct (String.eqb (Path folder) ""); [split; [exact Hup|reflexivity]|].
  destruct type; try (split; [exact Hup|reflexivity]);
    destruct (QueueFile _ _ _ _ _ _) as [u r]; split; reflexivity.
Qed.

(** [syncFolder] sets the state to syncing and never resets it: after a
    synchronisation of one folder by its id the manager stays in the state
    syncing, whether the pass succeeded, failed or panicked. *)
Theorem SyncFolderByID_leaves_state_syncing
    (Separator : ascii)
    (Match : string → string → bool * option string)
    (Rel : string → string → io string)
    (Join : string → string → string) (Dir : string → string)
    (env : SyncEnv) (sm : SyncManager) (folderID : string) :
  is_Some (folders sm !! folderID) →
  state (SyncFolderByID Separator Match Rel Join Dir env sm folderID).1.1
  = SyncStateSyncing.
Proof.
  intros [folder Hfolder]. unfold SyncFolderByID. rewrite Hfolder.
  unfold syncFolder.
  destruct (Walk _ _ _) as [[u panic] err].
  destruct panic as [msg|]; [reflexivity|].
  destruct err as [msg|]; [reflexivity|].
  destruct (TwoWaySync _); [|reflexivity].
  destruct (downloadFromRemote _ _ _ _ _ _ _) as [[st ops] [msg|]];
    reflexivity.
Qed.

Lemma SyncFolderByID_leaves_state_syncing_witness :
  state (SyncFolderByID "/" example_Match example_Rel example_Join example_Dir
           example_sync_env example_manager "docs").1.1
  = SyncStateSyncing.
Proof.
  apply (SyncFolderByID_leaves_state_syncing "/" example_Match example_Rel
           example_Join example_Dir example_sync_env example_manager "docs").
  rewrite example_manager_docs. eexists. reflexivity.
Defined.


(** ** Reloading the configuration *)

(** [ReloadConfiguration] loads the configuration from the empty path.
    Either loading fails and the manager is as it was, or the manager
    holds the configuration loaded, whose file path is empty: saving it
    fails, and so does saving it after a folder entry is set, so
    [RemoveFolder] on the reloaded manager always returns the error of
    the save, after the folder was dropped from the registry. *)
Theorem reloaded_config_cannot_be_saved
    (Match : string → string → bool * option string)
    (Rel : string → string → io string) (IsAbs : string → bool)
    (env : ManagerEnv) (sm : SyncManager) :
  let result := ReloadConfiguration Match Rel IsAbs env sm in
  (∃ msg, result = (sm, Some ("failed to reload configuration: " +:+ msg)))
  ∨ (result.2 = None
     ∧ Config.LoadConfig (config_env env) "" = Ok (config result.1)
     ∧ Config.filePath (config result.1) = ""
     ∧ (∀ cenv, Config.SaveConfig cenv (config result.1)
                = Some "config file path not set")
     ∧ (∀ cenv id folder,
          Config.SaveConfig cenv
            (Config.SetSyncFolder (config result.1) id folder)
          = Some "config file path not set")
     ∧ (∀ env' folderID,
          is_Some (folders result.1 !! folderID) →
          (RemoveFolder Rel IsAbs env' result.1 folderID).2
          = Some "failed to save config: config file path not set"
          ∧ folders (RemoveFolder Rel IsAbs env' result.1 folderID).1
            = delete folderID (folders result.1))).
Proof.
  cbv zeta.
  assert (Hshape :
    (∃ msg, Config.LoadConfig (config_env env) "" = Err msg
            ∧ ReloadConfiguration Match Rel IsAbs env sm
              = (sm, Some ("failed to reload configuration: " +:+ msg)))
    ∨ (∃ newCfg, Config.LoadConfig (config_env env) "" = Ok newCfg
                 ∧ (ReloadConfiguration Match Rel IsAbs env sm).2 = None
                 ∧ config (ReloadConfiguration Match Rel IsAbs env sm).1
                   = newCfg)).
  { unfold ReloadConfiguration.
    destruct (Config.LoadConfig (config_env env) "") as [newCfg|msg];
      [right; exists newCfg | left; exists msg; split; reflexivity].
    destruct (foldl (reload_entry Match Rel IsAbs env) _ _)
      as [[fs w] existingFolders].
    destruct (foldl (reload_drop Rel IsAbs env) _ _) as [fs' w'].
    split; [reflexivity|]. split; [reflexivity|].
    cbn [fst]. destruct (negb _); reflexivity. }
  destruct Hshape as [(msg & _ & Hres) | (newCfg & Hload & Hnone & Hcfg)];
    [left; exists msg; exact Hres|].
  right. set (sm' := (ReloadConfiguration Match Rel IsAbs env sm).1) in *.
  assert (Hpath : Config.filePath newCfg = "").
  { unfold Config.LoadConfig in Hload.
    destruct (Config.config_missing (config_env env) "");
      [injection Hload as <-; reflexivity|].
    destruct (Config.read_config (config_env env) "") as [cfg|];
      [injection Hload as <-; reflexivity | discriminate]. }
  rewrite Hcfg.
  split; [exact Hnone|]. split; [exact Hload|]. split; [exact Hpath|].
  split; [intros cenv; unfold Config.SaveConfig; rewrite Hpath; reflexivity|].
  split.
  { intros cenv id folder. unfold Config.SaveConfig. simpl.
    rewrite Hpath. reflexivity. }
  intros env' folderID [folder Hfolder]. unfold RemoveFolder.
  rewrite Hfolder.
  assert (Hc : ∀ (b : bool) (x : SyncManager) y,
             config (if b then set_watcher x y else x) = config x)
    by (intros [] ? ?; reflexivity).
  assert (Hf : ∀ (b : bool) (x : SyncManager) y,
             folders (if b then set_watcher x y else x) = folders x)
    by (intros [] ? ?; reflexivity).
  unfold Config.SaveConfig.
  cbn [Config.filePath Config.RemoveSyncFolder config set_folders set_config].
  rewrite Hc, Hcfg, Hpath. cbn. rewrite Hf. split; reflexivity.
Qed.








(** ** Enabling and disabling a folder *)

Lemma EnableFolder_folders Match Rel env sm folderID folder :
  folders sm !! folderID = Some folder →
  folders (EnableFolder Match Rel env sm folderID).1
  = <[folderID := set_Enabled folder true]> (folders sm).
Proof.
  intros Hfolder. unfold EnableFolder. rewrite Hfolder.
  destruct (Enabled folder) eqn:Hen.
  - simpl. symmetry. apply insert_id. rewrite Hfolder.
    destruct folder; simpl in *; subst; reflexivity.
  - cbn [watcher set_folders].
    destruct (watcher sm) as [fw|].
    + destruct (Watcher.AddFolder _ _ _ _ _ _) as [fw' [msg|]];
        [reflexivity|]. apply persist_enabled_folders.
    + apply persist_enabled_folders.
Qed.

Lemma DisableFolder_folders Rel IsAbs env sm folderID folder :
  folders sm !! folderID = Some folder →
  folders (DisableFolder Rel IsAbs env sm folderID).1
  = <[folderID := set_Enabled folder false]> (folders sm).
Proof.
  intros Hfolder. unfold DisableFolder. rewrite Hfolder.
  destruct (Enabled folder) eqn:Hen; cbn [negb].
  - apply persist_enabled_folders.
  - simpl. symmetry. apply insert_id. rewrite Hfolder.
    destruct folder; simpl in *; subst; reflexivity.
Qed.

(** [EnableFolder] and [DisableFolder] set the flag in the registry before
    they touch the watcher and the configuration, so the registry after
    them does not depend on whether they fail. Hence a failed call cannot
    be repeated: the second call finds the flag set, does nothing and
    returns nil. Disabling an enabled folder and enabling it again gives
    the registry back. *)
Theorem EnableFolder_sets_flag_first
    (Match : string → string → bool * option string)
    (Rel : string → string → io string) (IsAbs : string → bool)
    (env env' : ManagerEnv) (sm : SyncManager) (folderID : string)
    (folder : FolderSync) :
  folders sm !! folderID = Some folder →
  let enabled := (EnableFolder Match Rel env sm folderID).1 in
  let disabled := (DisableFolder Rel IsAbs env sm folderID).1 in
  folders enabled = <[folderID := set_Enabled folder true]> (folders sm)
  ∧ EnableFolder Match Rel env' enabled folderID = (enabled, None)
  ∧ folders disabled = <[folderID := set_Enabled folder false]> (folders sm)
  ∧ DisableFolder Rel IsAbs env' disabled folderID = (disabled, None)
  ∧ (Enabled folder = true →
     folders (EnableFolder Match Rel env' disabled folderID).1 = folders sm).
Proof.
  intros Hfolder. cbv zeta.
  pose proof (EnableFolder_folders Match Rel env sm folderID folder Hfolder)
    as Hen.
  pose proof (DisableFolder_folders Rel IsAbs env sm folderID folder Hfolder)
    as Hdis.
  split; [exact Hen|]. split.
  { unfold EnableFolder at 1. rewrite Hen, lookup_insert_eq. reflexivity. }
  split; [exact Hdis|]. split.
  { unfold DisableFolder at 1. rewrite Hdis, lookup_insert_eq. reflexivity. }
  intros Htrue.
  rewrite (EnableFolder_folders Match Rel env' _ folderID
             (set_Enabled folder false))
    by (rewrite Hdis; apply lookup_insert_eq).
  rewrite Hdis, insert_insert_eq. apply insert_id. rewrite Hfolder.
  destruct folder; simpl in *; subst; reflexivity.
Qed.

(** The folder cannot be watched: the watcher cannot make its path
    absolute. *)
Definition unwatchable_env : ManagerEnv :=
  {| os_Stat_path := example_Stat;
     uuid_New := "6ba7b810-9dad-11d1-80b4-00c04fd430c8";
     fsnotify_NewWatcher := None;
     watch_env :=
       {| filepath_Abs := λ _, Err "getwd: no such file or directory";
          Watcher.os_Stat := example_Stat;
          tree_at := λ path, DirNode path 10 None [];
          fsnotify_Add := λ _, None;
          fsnotify_Remove := λ _, None |};
     config_env := config_env example_env |}.

(** A started manager whose folder docs is disabled. *)
Definition disabled_docs_manager : SyncManager :=
  (DisableFolder example_Rel example_IsAbs example_env
     (Sync.Start example_Match example_Rel example_env example_manager).1
     "docs").1.

Lemma EnableFolder_sets_flag_first_witness :
  let failed := EnableFolder example_Match example_Rel unwatchable_env
                  disabled_docs_manager "docs" in
  is_Some failed.2
  ∧ EnableFolder example_Match example_Rel unwatchable_env failed.1 "docs"
    = (failed.1, None).
Proof.
  split; [vm_compute; eexists; reflexivity|].
  apply (EnableFolder_sets_flag_first example_Match example_Rel example_IsAbs
           unwatchable_env unwatchable_env disabled_docs_manager "docs"
           {| ID := "docs"; Path := "/data/docs"; ExcludePatterns := ["*.tmp"];
              LastSync := 0; TwoWaySync := false; Enabled := false |}).
  vm_compute. reflexivity.
Defined.

(** ** Adding and removing a folder *)

Lemma AddFolder_validated_folders Match Rel env sm folder :
  validated env sm folder →
  folders (AddFolder Match Rel env sm folder).1.1
  = <[ID (with_id env folder) := with_id env folder]> (folders sm)
  ∧ (AddFolder Match Rel env sm folder).1.2 = with_id env folder.
Proof.
  intros (Hpath & (info & Hstat & Hdir) & Hfree). unfold AddFolder.
  destruct (String.eqb_spec (Path folder) ""); [contradiction|].
  rewrite Hstat, Hdir. cbn [negb]. fold (with_id env folder).
  assert (Hsame : Path (with_id env folder) = Path folder)
    by (unfold with_id; destruct (String.eqb (ID folder) ""); reflexivity).
  rewrite Hsame, Hfree. cbn [watcher set_folders].
  destruct (if Enabled (with_id env folder) then watcher sm else None)
    as [fw|].
  - destruct (Watcher.AddFolder _ _ _ _ _ _) as [fw' [msg|]];
      [split; reflexivity|].
    destruct (Config.SaveConfig _ _); split; reflexivity.
  - destruct (Config.SaveConfig _ _); split; reflexivity.
Qed.



Lemma RemoveFolder_registered Rel IsAbs env sm folderID folder :
  folders sm !! folderID = Some folder →
  folders (RemoveFolder Rel IsAbs env sm folderID).1
  = delete folderID (folders sm)
  ∧ Config.Folders (config (RemoveFolder Rel IsAbs env sm folderID).1)
    = delete folderID (Config.Folders (config sm)).
Proof.
  intros Hfolder. unfold RemoveFolder. rewrite Hfolder.
  assert (Hc : ∀ (b : bool) (x : SyncManager) y,
             config (if b then set_watcher x y else x) = config x)
    by (intros [] ? ?; reflexivity).
  assert (Hf : ∀ (b : bool) (x : SyncManager) y,
             folders (if b then set_watcher x y else x) = folders x)
    by (intros [] ? ?; reflexivity).
  destruct (Config.SaveConfig _ _); cbn [fst folders config set_folders
    set_config Config.Folders Config.RemoveSyncFolder];
    rewrite ?Hc, ?Hf; split; reflexivity.
Qed.

(** [RemoveFolder] undoes the registration of [AddFolder]. For a folder
    that passes the checks of [AddFolder] and whose id is free, removing
    the id [AddFolder] gave it leaves the registry as it was before the
    folder was added, and no entry for the id in the configuration; this
    holds too when [AddFolder] returned the error of the watcher or of the
    save, and when the save of [RemoveFolder] fails. *)
Theorem RemoveFolder_undoes_AddFolder
    (Match : string → string → bool * option string)
    (Rel : string → string → io string) (IsAbs : string → bool)
    (env env' : ManagerEnv) (sm : SyncManager) (folder : FolderSync) :
  validated env sm folder →
  folders sm !! ID (with_id env folder) = None →
  let added := AddFolder Match Rel env sm folder in
  let removed := RemoveFolder Rel IsAbs env' added.1.1 (ID added.1.2) in
  folders added.1.1 !! ID added.1.2 = Some added.1.2
  ∧ folders removed.1 = folders sm
  ∧ Config.Folders (config removed.1) !! ID added.1.2 = None.
Proof.
  intros Hvalid Hfree. cbv zeta.
  destruct (AddFolder_validated_folders Match Rel env sm folder Hvalid)
    as [Hreg Hobj].
  rewrite Hobj.
  assert (Hlook : folders (AddFolder Match Rel env sm folder).1.1
                    !! ID (with_id env folder) = Some (with_id env folder))
    by (rewrite Hreg; apply lookup_insert_eq).
  destruct (RemoveFolder_registered Rel IsAbs env' _ _ _ Hlook) as [Hf Hc].
  split; [exact Hlook|]. split.
  - rewrite Hf, Hreg. apply delete_insert_id. exact Hfree.
  - rewrite Hc. apply lookup_delete_eq.
Qed.

Lemma RemoveFolder_undoes_AddFolder_witness :
  folders (RemoveFolder example_Rel example_IsAbs example_env
             (AddFolder example_Match example_Rel example_env unsaved_manager
                (new_folder "photos" "/data/photos")).1.1 "photos").1
  = folders unsaved_manager.
Proof.
  apply (RemoveFolder_undoes_AddFolder example_Match example_Rel example_IsAbs
           example_env example_env unsaved_manager
           (new_folder "photos" "/data/photos")).
  - split; [discriminate|]. split; [|vm_compute; reflexivity].
    exists (mkFileInfo true 0 20). split; reflexivity.
  - vm_compute. reflexivity.
Defined.

(** ** What a synchronisation pass queues *)

Lemma QueueFile_buf Separator Rel u upload_time filePath folderPath :
  buf (taskQueue (QueueFile Separator Rel u upload_time filePath
                    folderPath).1)
  = buf (taskQueue u)
  ∨ ∃ relPath,
      Rel folderPath filePath = Ok relPath
      ∧ buf (taskQueue (QueueFile Separator Rel u upload_time filePath
                          folderPath).1)
        = buf (taskQueue u)
          ++ [queued_task Separator upload_time filePath folderPath relPath].
Proof.
  unfold QueueFile.
  destruct (running u); cbn [negb]; [|left; reflexivity].
  destruct (Rel folderPath filePath) as [relPath|msg]; [|left; reflexivity].
  unfold QueueUpload, try_send.
  destruct (closed (taskQueue u)); [left; reflexivity|].
  destruct (_ <? _); [|left; reflexivity].
  right. exists relPath. split; reflexivity.
Qed.

(** A task the scan of [syncFolder] may queue for a folder: the task
    [QueueFile] builds for a file whose path relative to the folder the
    exclude patterns of the folder do not match. *)
Definition scanned_task (Separator : ascii)
    (Match : string → string → bool * option string)
    (Rel : string → string → io string) (env : SyncEnv)
    (folder : FolderSync) (task : UploadTask) : Prop :=
  ∃ relPath,
    Rel (Path folder) (FilePath task) = Ok relPath
    ∧ ShouldExclude Match relPath (ExcludePatterns folder) = false
    ∧ task = queued_task Separator (upload_time env (FilePath task))
               (FilePath task) (Path folder) relPath.

(** The queue of [u] is that of [u0] with tasks of the scan appended. *)
Definition scan_inv (Separator : ascii)
    (Match : string → string → bool * option string)
    (Rel : string → string → io string) (env : SyncEnv)
    (folder : FolderSync) (u0 : Uploader) (st : Uploader * option string)
  : Prop :=
  ∃ added,
    buf (taskQueue st.1) = buf (taskQueue u0) ++ added
    ∧ Forall (scanned_task Separator Match Rel env folder) added.

Lemma scan_visit_inv Separator Match Rel env folder u0 st path info err :
  scan_inv Separator Match Rel env folder u0 st →
  scan_inv Separator Match Rel env folder u0
    (scan_visit Separator Match Rel env folder st path info err).1.
Proof.
  destruct st as [u panic]. intros (added & Hbuf & Hall). unfold scan_visit.
  destruct err as [msg|]; [exists added; auto|].
  destruct info as [info|]; [|exists added; auto].
  destruct (IsDir info); [exists added; auto|].
  destruct (Rel (Path folder) path) as [relPath|msg] eqn:Hrel;
    [|exists added; auto].
  destruct (ShouldExclude Match relPath (ExcludePatterns folder)) eqn:Hexcl;
    [exists added; auto|].
  pose proof (QueueFile_buf Separator Rel u (upload_time env path) path
                (Path folder)) as Hq.
  destruct (QueueFile Separator Rel u (upload_time env path) path
              (Path folder)) as [u' r].
  simpl in Hq, Hbuf.
  assert (Hinv : ∃ added',
             buf (taskQueue u') = buf (taskQueue u0) ++ added'
             ∧ Forall (scanned_task Separator Match Rel env folder) added').
  { destruct Hq as [Hsame | (relPath' & Hrel' & Happ)].
    - exists added. rewrite Hsame. auto.
    - exists (added ++ [queued_task Separator (upload_time env path) path
                          (Path folder) relPath']).
      rewrite Happ, Hbuf, app_assoc. split; [reflexivity|].
      apply Forall_app. split; [exact Hall|].
      apply Forall_singleton. exists relPath'. simpl.
      split; [exact Hrel'|]. split; [congruence | reflexivity]. }
  destruct r; exact Hinv.
Qed.

(** A pass of [syncFolder] only appends to the upload queue, and every
    task it appends is the one [QueueFile] builds for a file below the
    folder that the exclude patterns of the folder do not match: no
    excluded file is queued, whatever the tree holds and however the pass
    ends. *)
Theorem syncFolder_queues_no_excluded_file
    (Separator : ascii)
    (Match : string → string → bool * option string)
    (Rel : string → string → io string)
    (Join : string → string → string) (Dir : string → string)
    (env : SyncEnv) (sm : SyncManager) (id : string) (folder : FolderSync) :
  ∃ added,
    buf (taskQueue (uploader (syncFolder Separator Match Rel Join Dir env sm
                                id folder).1.1))
    = buf (taskQueue (uploader sm)) ++ added
    ∧ Forall (λ task,
                ∃ relPath,
                  Rel (Path folder) (FilePath task) = Ok relPath
                  ∧ ShouldExclude Match relPath (ExcludePatterns folder)
                    = false
                  ∧ Key task = ToSlash Separator relPath
                  ∧ RetryCount task = 0%Z)
        added.
Proof.
  pose proof (walk_invariant (scan_visit Separator Match Rel env folder)
                (scan_inv Separator Match Rel env folder (uploader sm))
                (λ s p info err,
                   scan_visit_inv Separator Match Rel env folder (uploader sm)
                     s p info err)
                (scan_tree env (Path folder)) (uploader sm, None)
                (ex_intro _ [] (conj (eq_sym (app_nil_r _)) (Forall_nil_2 _))))
    as (added & Hbuf & Hall).
  exists added. split.
  - unfold syncFolder, Walk. cbn [uploader set_state].
    destruct (walk _ _ _) as [[u panic] v]. simpl in Hbuf.
    destruct panic as [msg|]; [exact Hbuf|].
    destruct (match v with Abort e => Some e | _ => None end) as [msg|];
      [exact Hbuf|].
    destruct (TwoWaySync _); [|exact Hbuf].
    destruct (downloadFromRemote _ _ _ _ _ _ _) as [[st ops] [msg|]];
      exact Hbuf.
  - eapply Forall_impl; [exact Hall|].
    intros task (relPath & Hrel & Hexcl & Htask). exists relPath.
    split; [exact Hrel|]. split; [exact Hexcl|].
    rewrite Htask. split; reflexivity.
Qed.

(** ** File events *)

Definition set_ExcludePatterns (folder : FolderSync) (patterns : list string)
  : FolderSync :=
  {| ID := ID folder; Path := Path folder; ExcludePatterns := patterns;
     LastSync := LastSync folder; TwoWaySync := TwoWaySync folder;
     Enabled := Enabled folder |}.

Lemma find_fmap {A B} (g : A → B) (P : B → bool) (l : list A) :
  find P (g <$> l) = g <$> find (λ x, P (g x)) l.
Proof.
  induction l as [|x l IH]; [reflexivity|].
  simpl. destruct (P (g x)); [reflexivity | exact IH].
Qed.

(** [handleFileEvent] never looks at the exclude patterns: with the
    patterns of every folder replaced by any others, the same event queues
    the same upload and returns the same. So a file the patterns of its
    folder exclude is uploaded when it is created or written, though the
    scan of [syncFolder] leaves it out. An event of a removal or a
    renaming changes nothing. *)
Theorem handleFileEvent_ignores_exclude_patterns
    (Separator : ascii) (Rel : string → string → io string)
    (Clean : string → string) (IsAbs : string → bool)
    (sm : SyncManager) (patterns : FolderSync → list string)
    (now_rfc3339 : string) (type : EventType) (path : string) :
  let sm' :=
    set_folders sm
      ((λ folder, set_ExcludePatterns folder (patterns folder))
         <$> folders sm) in
  uploader (handleFileEvent Separator Rel Clean IsAbs sm' now_rfc3339 type
              path).1
  = uploader (handleFileEvent Separator Rel Clean IsAbs sm now_rfc3339 type
                path).1
  ∧ (handleFileEvent Separator Rel Clean IsAbs sm' now_rfc3339 type path).2
    = (handleFileEvent Separator Rel Clean IsAbs sm now_rfc3339 type path).2
  ∧ handleFileEvent Separator Rel Clean IsAbs sm now_rfc3339 EventDelete path
    = (sm, Returned None)
  ∧ handleFileEvent Separator Rel Clean IsAbs sm now_rfc3339 EventRename path
    = (sm, Returned None).
Proof.
  cbv zeta.
  assert (Hquiet : ∀ type', type' = EventDelete ∨ type' = EventRename →
            handleFileEvent Separator Rel Clean IsAbs sm now_rfc3339 type' path
            = (sm, Returned None)).
  { intros type' Htype. unfold handleFileEvent.
    destruct (find _ _) as [[id folder]|]; [|reflexivity].
    destruct (String.eqb (Path folder) ""); [reflexivity|].
    destruct Htype as [-> | ->]; reflexivity. }
  assert (Hsame :
    uploader (handleFileEvent Separator Rel Clean IsAbs
                (set_folders sm
                   ((λ folder, set_ExcludePatterns folder (patterns folder))
                      <$> folders sm)) now_rfc3339 type path).1
    = uploader (handleFileEvent Separator Rel Clean IsAbs sm now_rfc3339 type
                  path).1
    ∧ (handleFileEvent Separator Rel Clean IsAbs
         (set_folders sm
            ((λ folder, set_ExcludePatterns folder (patterns folder))
               <$> folders sm)) now_rfc3339 type path).2
      = (handleFileEvent Separator Rel Clean IsAbs sm now_rfc3339 type
           path).2).
  { unfold handleFileEvent. cbn [folders set_folders uploader].
    rewrite map_to_list_fmap, find_fmap. cbn [prod_map snd fst id].
    destruct (find _ (map_to_list (folders sm))) as [[id folder]|];
      [|split; reflexivity].
    cbn [fmap option_fmap option_map prod_map fst snd Path
         set_ExcludePatterns].
    destruct (String.eqb (Path folder) ""); [split; reflexivity|].
    destruct type; try (split; reflexivity);
      destruct (QueueFile _ _ _ _ _ _) as [u r]; split; reflexivity. }
  destruct Hsame as [Hu Hr].
  split; [exact Hu|]. split; [exact Hr|].
  split; apply Hquiet; auto.
Qed.

(** ** Statistics of the downloads *)

Definition is_download (op : SyncOp) : bool :=
  match op with
  | OpDownload _ _ _ None => true
  | _ => false
  end.

Definition is_mkdir (op : SyncOp) : bool :=
  match op with
  | OpMkdirAll _ => true
  | _ => false
  end.

Definition count_ops (f : SyncOp → bool) (ops : list SyncOp) : Z :=
  Z.of_nat (length (List.filter f ops)).

Lemma count_ops_app f ops ops' :
  count_ops f (ops ++ ops') = (count_ops f ops + count_ops f ops')%Z.
Proof.
  unfold count_ops. rewrite List.filter_app, length_app. lia.
Qed.

(** What the download loop keeps of the statistics. *)
Definition download_counts (st : SyncStats) (result : SyncStats * list SyncOp)
  : Prop :=
  FilesDownloaded result.1
  = (FilesDownloaded st + count_ops is_download result.2)%Z
  ∧ Errors result.1
    = (Errors st + (count_ops is_mkdir result.2
                    - count_ops is_download result.2))%Z
  ∧ TotalFiles result.1 = TotalFiles st
  ∧ FilesUploaded result.1 = FilesUploaded st
  ∧ BytesUploaded result.1 = BytesUploaded st
  ∧ LastSyncTime result.1 = LastSyncTime st.

Lemma download_counts_step st st1 ops result :
  FilesDownloaded st1 = (FilesDownloaded st + count_ops is_download ops)%Z →
  Errors st1
  = (Errors st + (count_ops is_mkdir ops - count_ops is_download ops))%Z →
  TotalFiles st1 = TotalFiles st → FilesUploaded st1 = FilesUploaded st →
  BytesUploaded st1 = BytesUploaded st → LastSyncTime st1 = LastSyncTime st →
  download_counts st1 result →
  download_counts st (result.1, ops ++ result.2).
Proof.
  intros Hd He Ht Hu Hb Hl (Hd' & He' & Ht' & Hu' & Hb' & Hl').
  unfold download_counts. cbn [fst snd]. rewrite !count_ops_app.
  repeat split; try congruence; lia.
Qed.

Lemma download_loop_counts Join Dir env folder localFiles remoteFiles :
  ∀ i st,
    download_counts st
      (download_loop Join Dir env folder localFiles i remoteFiles st).1.
Proof.
  induction remoteFiles as [|remoteFile rest IH]; intros i st.
  - simpl. unfold download_counts, count_ops. simpl. repeat split; lia.
  - cbn [download_loop].
    destruct (ctx_Done env i);
      [unfold download_counts, count_ops; simpl; repeat split; lia|].
    assert (Hcont : ∀ st1 ops,
      FilesDownloaded st1 = (FilesDownloaded st + count_ops is_download ops)%Z →
      Errors st1
      = (Errors st + (count_ops is_mkdir ops - count_ops is_download ops))%Z →
      TotalFiles st1 = TotalFiles st → FilesUploaded st1 = FilesUploaded st →
      BytesUploaded st1 = BytesUploaded st →
      LastSyncTime st1 = LastSyncTime st →
      download_counts st
        (let '(st', ops', err) :=
           download_loop Join Dir env folder localFiles (S i) rest st1 in
         (st', ops ++ ops', err)).1).
    { intros st1 ops Hd He Ht Hu Hb Hl.
      pose proof (download_counts_step st st1 ops _ Hd He Ht Hu Hb Hl
                    (IH (S i) st1)) as Hstep.
      destruct (download_loop Join Dir env folder localFiles (S i) rest st1)
        as [[st' ops'] err]. exact Hstep. }
    destruct (wants_download _ _ _);
      [|apply Hcont; unfold count_ops; simpl; lia].
    destruct (os_MkdirAll env _);
      [apply Hcont; unfold count_ops; simpl; lia|].
    destruct (os_Create env _);
      [apply Hcont; unfold count_ops; simpl; lia|].
    destruct (storage_DownloadFile env _) as [data [msg|]];
      [apply Hcont; unfold count_ops; simpl; lia|].
    destruct (os_Chtimes env _ _);
      apply Hcont; unfold count_ops; simpl; lia.
Qed.

(** The statistics after [downloadFromRemote]. The count of downloaded
    files grows by the number of downloads that succeeded, and the count
    of errors by the number of files whose directory was made and that
    were not downloaded (the file could not be created, or the download
    failed); a directory that cannot be made is not counted as an error.
    The counts of uploads are not touched. *)
Theorem downloadFromRemote_counts
    (Match : string → string → bool * option string)
    (Rel : string → string → io string)
    (Join : string → string → string) (Dir : string → string)
    (env : SyncEnv) (folder : FolderSync) (st : SyncStats) :
  let result := downloadFromRemote Match Rel Join Dir env folder st in
  FilesDownloaded result.1.1
  = (FilesDownloaded st + count_ops is_download result.1.2)%Z
  ∧ Errors result.1.1
    = (Errors st + (count_ops is_mkdir result.1.2
                    - count_ops is_download result.1.2))%Z
  ∧ TotalFiles result.1.1 = TotalFiles st
  ∧ FilesUploaded result.1.1 = FilesUploaded st
  ∧ BytesUploaded result.1.1 = BytesUploaded st.
Proof.
  cbv zeta. unfold downloadFromRemote.
  destruct (storage_ListFiles env (ID folder)) as [remoteFiles|msg].
  - pose proof (download_loop_counts Join Dir env folder
                  (Walk (local_visit Match Rel folder)
                     (local_tree env (Path folder)) ∅).1
                  remoteFiles 0 st) as Hloop.
    destruct (download_loop _ _ _ _ _ _ _ _) as [[st' ops] err].
    destruct Hloop as (Hd & He & Ht & Hu & Hb & _). cbn [fst snd] in *.
    change (OpListFiles (ID folder) :: ops)
      with ([OpListFiles (ID folder)] ++ ops).
    rewrite !count_ops_app. unfold count_ops at 1 3 4. simpl.
    repeat split; try assumption; lia.
  - unfold count_ops. simpl. repeat split; lia.
Qed.

(** ** Statistics of a full synchronisation *)

(** The counts of uploads, and the time of the last synchronisation, are
    the same in both. *)
Definition uploads_kept (st st' : SyncStats) : Prop :=
  TotalFiles st' = TotalFiles st
  ∧ FilesUploaded st' = FilesUploaded st
  ∧ BytesUploaded st' = BytesUploaded st
  ∧ LastSyncTime st' = LastSyncTime st.

Lemma syncFolder_uploads_kept Separator Match Rel Join Dir env sm id folder :
  uploads_kept (stats sm)
    (stats (syncFolder Separator Match Rel Join Dir env sm id folder).1.1).
Proof.
  unfold syncFolder.
  destruct (Walk _ _ _) as [[u panic] err].
  destruct panic as [msg|]; [repeat split|].
  destruct err as [msg|]; [repeat split|].
  destruct (TwoWaySync _); [|repeat split].
  cbn [stats set_folders set_uploader set_state].
  unfold downloadFromRemote.
  destruct (storage_ListFiles env _) as [remoteFiles|msg];
    [|repeat split].
  match goal with
  | |- context [download_loop Join Dir env ?f ?lf 0 remoteFiles (stats sm)] =>
      pose proof (download_loop_counts Join Dir env f lf remoteFiles 0
                    (stats sm)) as Hloop;
      destruct (download_loop Join Dir env f lf 0 remoteFiles (stats sm))
        as [[st' ops] err]
  end.
  destruct Hloop as (_ & _ & Ht & Hu & Hb & Hl). cbn [fst snd] in *.
  destruct err; repeat split; assumption.
Qed.

Lemma sync_folders_uploads_kept Separator Match Rel Join Dir env l :
  ∀ sm,
    uploads_kept (stats sm)
      (stats (sync_folders Separator Match Rel Join Dir env sm l).1.1).
Proof.
  induction l as [|[id folder] rest IH]; intros sm; [repeat split|].
  cbn [sync_folders].
  pose proof (syncFolder_uploads_kept Separator Match Rel Join Dir (env id)
                sm id folder) as Hone.
  destruct (syncFolder Separator Match Rel Join Dir (env id) sm id folder)
    as [[sm' ops] result].
  cbn [fst] in Hone. destruct Hone as (Ht & Hu & Hb & Hl).
  assert (Hrest : ∀ sm1, uploads_kept (stats sm') (stats sm1) →
            uploads_kept (stats sm)
              (stats (let '(sm2, ops', panic) :=
                        sync_folders Separator Match Rel Join Dir env sm1 rest
                      in (sm2, ops ++ ops', panic)).1.1)).
  { intros sm1 (Ht1 & Hu1 & Hb1 & Hl1).
    destruct (IH sm1) as (Ht2 & Hu2 & Hb2 & Hl2).
    destruct (sync_folders Separator Match Rel Join Dir env sm1 rest)
      as [[sm2 ops'] panic].
    cbn [fst] in *. repeat split; congruence. }
  destruct result as [[msg|]| |msg].
  - apply Hrest. repeat split.
  - apply Hrest. repeat split.
  - apply Hrest. repeat split.
  - repeat split; assumption.
Qed.

(** [FullSync] never counts an upload: the total of files and the files
    and bytes uploaded are after it what they were before, whatever was
    queued. When it returns, it returns nil and the time of the last
    synchronisation is the time of the return; when a panic unwinds it,
    that time is left as it was. *)
Theorem FullSync_never_counts_uploads
    (Separator : ascii)
    (Match : string → string → bool * option string)
    (Rel : string → string → io string)
    (Join : string → string → string) (Dir : string → string)
    (env : string → SyncEnv) (now : Z) (sm : SyncManager) :
  let result := FullSync Separator Match Rel Join Dir env now sm in
  TotalFiles (stats result.1.1) = TotalFiles (stats sm)
  ∧ FilesUploaded (stats result.1.1) = FilesUploaded (stats sm)
  ∧ BytesUploaded (stats result.1.1) = BytesUploaded (stats sm)
  ∧ ((result.2 = Returned None ∧ LastSyncTime (stats result.1.1) = now)
     ∨ (∃ msg, result.2 = Panicked msg)
       ∧ LastSyncTime (stats result.1.1) = LastSyncTime (stats sm)).
Proof.
  cbv zeta. unfold FullSync.
  pose proof (sync_folders_uploads_kept Separator Match Rel Join Dir env
                (filter (λ entry : string * FolderSync, Enabled entry.2 = true)
                   (map_to_list (folders (set_state sm SyncStateScanning))))
                (set_state sm SyncStateScanning)) as Hkept.
  destruct (sync_folders _ _ _ _ _ _ _ _) as [[sm' ops] [msg|]];
    destruct Hkept as (Ht & Hu & Hb & Hl); cbn [fst snd stats set_state] in *.
  - repeat split; try assumption. right. split; [eauto | assumption].
  - repeat split; try assumption. left. split; reflexivity.
Qed.

(** ** Updating a folder *)

(** [UpdateFolder] with a new path that [os.Stat] does not find returns
    the error with the update half applied: the folder, when enabled, has
    been taken off the watcher and is not put back, and its registry entry
    has the patterns and the direction of the update already, with its old
    path and its flag; the configuration is not touched. *)
Theorem UpdateFolder_bad_path_half_applied
    (Match : string → string → bool * option string)
    (Rel : string → string → io string) (IsAbs : string → bool)
    (env : ManagerEnv) (sm : SyncManager) (folderID : string)
    (folder update : FolderSync) (msg : string) :
  folders sm !! folderID = Some folder →
  Path update ≠ "" → Path update ≠ Path folder →
  os_Stat_path env (Path update) = Err msg →
  let result := UpdateFolder Match Rel IsAbs env sm folderID update in
  result.2 = Some ("folder path error: " +:+ msg)
  ∧ folders result.1
    = <[folderID := {| ID := ID folder; Path := Path folder;
                       ExcludePatterns := ExcludePatterns update;
                       LastSync := LastSync folder;
                       TwoWaySync := TwoWaySync update;
                       Enabled := Enabled folder |}]> (folders sm)
  ∧ watcher result.1
    = (if Enabled folder
       then unwatch Rel IsAbs env (watcher sm) (Path folder)
       else watcher sm)
  ∧ config result.1 = config sm.
Proof.
  intros Hfolder Hnonempty Hdiff Hstat. cbv zeta.
  unfold UpdateFolder. rewrite Hfolder. cbn [Path].
  destruct (String.eqb_spec (Path update) ""); [contradiction|].
  destruct (String.eqb_spec (Path update) (Path folder)); [contradiction|].
  cbn [negb andb]. rewrite Hstat. cbn [fst snd].
  destruct (Enabled folder); repeat split; reflexivity.
Qed.

Lemma UpdateFolder_bad_path_half_applied_witness :
  let result := UpdateFolder example_Match example_Rel example_IsAbs
                  example_env
                  (Sync.Start example_Match example_Rel example_env
                     example_manager).1
                  "docs" (new_folder "docs" "/data/gone") in
  result.2 = Some "folder path error: no such file or directory"
  ∧ (∃ fw, watcher result.1 = Some fw ∧ "/data/docs" ∉ watchedPaths fw)
  ∧ (∃ entry, folders result.1 !! "docs" = Some entry
              ∧ Enabled entry = true ∧ ExcludePatterns entry = []).
Proof.
  destruct (UpdateFolder_bad_path_half_applied example_Match example_Rel
              example_IsAbs example_env
              (Sync.Start example_Match example_Rel example_env
                 example_manager).1
              "docs"
              {| ID := "docs"; Path := "/data/docs";
                 ExcludePatterns := ["*.tmp"];
                 LastSync := 0; TwoWaySync := false; Enabled := true |}
              (new_folder "docs" "/data/gone")
              "no such file or directory")
    as (Herr & Hreg & Hw & _).
  - vm_compute. reflexivity.
  - discriminate.
  - discriminate.
  - reflexivity.
  - cbv zeta. split; [exact Herr|]. split.
    + eexists. split; [rewrite Hw; vm_compute; reflexivity|].
      vm_compute. intros Hin. discriminate Hin.
    + eexists. split; [rewrite Hreg; apply lookup_insert_eq|].
      split; reflexivity.
Defined.

(** ** Paths that are not below the root *)

(** [isSubdirectory] rejects a path only when [filepath.Rel] fails, or
    gives the parent directory itself or an absolute path. For a sibling of
    the root, [filepath.Rel] gives a path that starts with the parent
    directory and goes down again, and such a path is taken for one below
    the root. So [RemovePath] stops watching every watched path that
    [filepath.Rel] can reach from the root other than by the parent
    directory alone, provided fsnotify removes it: siblings included. *)
Theorem RemovePath_drops_paths_outside_the_root
    (Rel : string → string → io string) (IsAbs : string → bool)
    (env : WatchEnv) (fw : FileWatcher) (path absPath watched rel : string) :
  filepath_Abs env path = Ok absPath →
  Rel absPath watched = Ok rel →
  rel ≠ ".." → IsAbs rel = false →
  fsnotify_Remove env watched = None →
  isSubdirectory Rel IsAbs watched absPath = true
  ∧ (watched ∉ watchedPaths (RemovePath Rel IsAbs env fw path).1)
  ∧ (RemovePath Rel IsAbs env fw path).2 = None.
Proof.
  intros Habs Hrel Hne Hrelative Hremove.
  assert (Hsub : isSubdirectory Rel IsAbs watched absPath = true).
  { unfold isSubdirectory. rewrite Hrel, Hrelative.
    destruct (String.eqb_spec rel ".."); [contradiction | reflexivity]. }
  split; [exact Hsub|].
  unfold RemovePath. rewrite Habs. cbn [fst snd]. split; [|reflexivity].
  intros Hin. apply elem_of_filter in Hin as [Hkeep _].
  rewrite Hsub, orb_true_r, Hremove in Hkeep.
  rewrite bool_decide_eq_true_2 in Hkeep by reflexivity.
  discriminate Hkeep.
Qed.

(** [filepath.Rel] on a host with slash as the separator, for the two
    sibling directories of the examples as well. *)
Definition sibling_Rel (base targ : string) : io string :=
  if String.eqb base "/data/docs" && String.eqb targ "/data/photos"
  then Ok "../photos"
  else example_Rel base targ.

Lemma RemovePath_drops_paths_outside_the_root_witness :
  isSubdirectory sibling_Rel example_IsAbs "/data/photos" "/data/docs" = true
  ∧ ("/data/photos"
       ∉ watchedPaths
           (RemovePath sibling_Rel example_IsAbs example_watch_env
              two_root_watcher "/data/docs").1)
  ∧ (RemovePath sibling_Rel example_IsAbs example_watch_env
       two_root_watcher "/data/docs").2 = None.
Proof.
  apply (RemovePath_drops_paths_outside_the_root sibling_Rel example_IsAbs
           example_watch_env two_root_watcher "/data/docs" "/data/docs"
           "/data/photos" "../photos");
    [reflexivity | reflexivity | discriminate | reflexivity | reflexivity].
Defined.

(** [isSubPath] has the test of [isSubdirectory]. An event for a path
    that [filepath.Rel] reaches from an enabled folder other than by the
    parent directory alone, a file in a sibling directory for one, is not
    dropped as foreign: [handleFileEvent] finds an enabled folder for it
    and, on a creation or a write, hands the path to [QueueFile] with the
    path of that folder. *)
Theorem handleFileEvent_adopts_paths_outside_the_folder
    (Separator : ascii) (Rel : string → string → io string)
    (Clean : string → string) (IsAbs : string → bool)
    (sm : SyncManager) (id : string) (folder : FolderSync)
    (now_rfc3339 path rel : string) (type : EventType) :
  folders sm !! id = Some folder → Enabled folder = true →
  path ≠ "" →
  Rel (Clean (Path folder)) (Clean path) = Ok rel →
  rel ≠ ".." → IsAbs rel = false →
  type = EventCreate ∨ type = EventUpdate →
  isSubPath Rel Clean IsAbs (Path folder) path = true
  ∧ ∃ id' owner,
      folders sm !! id' = Some owner ∧ Enabled owner = true
      ∧ isSubPath Rel Clean IsAbs (Path owner) path = true
      ∧ handleFileEvent Separator Rel Clean IsAbs sm now_rfc3339 type path
        = if String.eqb (Path owner) "" then (sm, Returned None)
          else
            (set_uploader sm
               (QueueFile Separator Rel (uploader sm) now_rfc3339 path
                  (Path owner)).1,
             (QueueFile Separator Rel (uploader sm) now_rfc3339 path
                (Path owner)).2).
Proof.
  intros Hfolder Henabled Hpath Hrel Hne Hrelative Htype.
  assert (Hsub : isSubPath Rel Clean IsAbs (Path folder) path = true).
  { unfold isSubPath. rewrite Hrel, Hrelative.
    destruct (String.eqb_spec rel ".."); [contradiction | reflexivity]. }
  split; [exact Hsub|].
  unfold handleFileEvent.
  destruct (find _ _) as [[id' owner]|] eqn:Hfind.
  - apply find_some in Hfind as [Hin Howner]. simpl in Howner.
    apply andb_true_iff in Howner as [Howner Hen].
    apply andb_true_iff in Howner as [_ Hsub'].
    apply list_elem_of_In, elem_of_map_to_list in Hin.
    exists id', owner. split; [exact Hin|]. split; [exact Hen|].
    split; [exact Hsub'|].
    destruct (String.eqb (Path owner) ""); [reflexivity|].
    destruct Htype as [-> | ->];
      destruct (QueueFile _ _ _ _ _ _) as [u r]; reflexivity.
  - exfalso.
    assert (Hin : In (id, folder) (map_to_list (folders sm)))
      by (apply list_elem_of_In, elem_of_map_to_list; exact Hfolder).
    pose proof (find_none _ _ Hfind _ Hin) as Hnone. simpl in Hnone.
    rewrite Hsub, Henabled in Hnone.
    destruct (String.eqb_spec path ""); [contradiction | discriminate].
Qed.

(** [filepath.Rel] on a host with slash as the separator, for a file in
    the sibling directory of the examples as well. *)
Definition outside_Rel (base targ : string) : io string :=
  if String.eqb base "/data/docs" && String.eqb targ "/data/photos/x.jpg"
  then Ok "../photos/x.jpg"
  else example_Rel base targ.

Lemma handleFileEvent_adopts_paths_outside_the_folder_witness :
  isSubPath outside_Rel (λ path, path) example_IsAbs "/data/docs"
    "/data/photos/x.jpg" = true
  ∧ ∃ id' owner,
      folders example_manager !! id' = Some owner ∧ Enabled owner = true
      ∧ isSubPath outside_Rel (λ path, path) example_IsAbs (Path owner)
          "/data/photos/x.jpg" = true
      ∧ handleFileEvent "/" outside_Rel (λ path, path) example_IsAbs
          example_manager "2024-05-01T12:00:00Z" EventCreate
          "/data/photos/x.jpg"
        = if String.eqb (Path owner) "" then (example_manager, Returned None)
          else
            (set_uploader example_manager
               (QueueFile "/" outside_Rel (uploader example_manager)
                  "2024-05-01T12:00:00Z" "/data/photos/x.jpg"
                  (Path owner)).1,
             (QueueFile "/" outside_Rel (uploader example_manager)
                "2024-05-01T12:00:00Z" "/data/photos/x.jpg" (Path owner)).2).
Proof.
  apply (handleFileEvent_adopts_paths_outside_the_folder "/" outside_Rel
           (λ path, path) example_IsAbs example_manager "docs"
           {| ID := "docs"; Path := "/data/docs"; ExcludePatterns := ["*.tmp"];
              LastSync := 0; TwoWaySync := false; Enabled := true |}
           "2024-05-01T12:00:00Z" "/data/photos/x.jpg" "../photos/x.jpg"
           EventCreate);
    [vm_compute; reflexivity | reflexivity | discriminate | reflexivity
    | discriminate | reflexivity | left; reflexivity].
Defined.

(** On that host the event of a file created beside the folder docs queues
    the file under a key that leaves the folder. *)
Example outside_file_is_queued :
  map Key
    (buf (taskQueue (uploader
       (handleFileEvent "/" outside_Rel (λ path, path) example_IsAbs
          example_manager "2024-05-01T12:00:00Z" EventCreate
          "/data/photos/x.jpg").1)))
  = ["../photos/x.jpg"].
Proof. vm_compute. reflexivity. Qed.

(** ** What is downloaded *)

(** A call that writes to the disk or fetches an object, made for the
    remote file [remoteFile] of a folder. *)
Definition op_for (Join : string → string → string) (Dir : string → string)
    (folder : FolderSync) (remoteFile : RemoteFile) (op : SyncOp) : Prop :=
  let localPath :=
    Join (Path folder)
      (TrimPrefix (RemoteKey remoteFile) (ID folder +:+ "/")) in
  match op with
  | OpListFiles _ => False
  | OpMkdirAll dir => dir = Dir localPath
  | OpCreate path => path = localPath
  | OpDownload key path _ _ => key = RemoteKey remoteFile ∧ path = localPath
  | OpChtimes path t => path = localPath ∧ t = LastModified remoteFile
  end.

Lemma download_loop_wanted Join Dir env folder localFiles remoteFiles :
  ∀ i st,
    Forall (λ op,
              ∃ remoteFile,
                remoteFile ∈ remoteFiles
                ∧ wants_download localFiles
                    (TrimPrefix (RemoteKey remoteFile) (ID folder +:+ "/"))
                    remoteFile = true
                ∧ op_for Join Dir folder remoteFile op)
      (download_loop Join Dir env folder localFiles i remoteFiles st).1.2.
Proof.
  induction remoteFiles as [|remoteFile rest IH]; intros i st;
    [apply Forall_nil_2|].
  cbn [download_loop].
  destruct (ctx_Done env i); [apply Forall_nil_2|].
  assert (Hcont : ∀ st1 ops,
    Forall (λ op,
              wants_download localFiles
                (TrimPrefix (RemoteKey remoteFile) (ID folder +:+ "/"))
                remoteFile = true
              ∧ op_for Join Dir folder remoteFile op) ops →
    Forall (λ op,
              ∃ remoteFile',
                remoteFile' ∈ remoteFile :: rest
                ∧ wants_download localFiles
                    (TrimPrefix (RemoteKey remoteFile') (ID folder +:+ "/"))
                    remoteFile' = true
                ∧ op_for Join Dir folder remoteFile' op)
      (let '(st', ops', err) :=
         download_loop Join Dir env folder localFiles (S i) rest st1 in
       (st', ops ++ ops', err)).1.2).
  { intros st1 ops Hops. specialize (IH (S i) st1).
    destruct (download_loop Join Dir env folder localFiles (S i) rest st1)
      as [[st' ops'] err].
    cbn [fst snd] in *. apply Forall_app. split.
    - eapply Forall_impl; [exact Hops|].
      intros op [Hwant Hop]. exists remoteFile.
      split; [left | split; assumption].
    - eapply Forall_impl; [exact IH|].
      intros op (r & Hin & Hwant & Hop). exists r.
      split; [right; exact Hin | split; assumption]. }
  destruct (wants_download _ _ _) eqn:Hwant;
    [|apply Hcont; apply Forall_nil_2].
  destruct (os_MkdirAll env _); [apply Hcont; apply Forall_nil_2|].
  destruct (os_Create env _);
    [apply Hcont; repeat constructor; exact Hwant|].
  destruct (storage_DownloadFile env _) as [data [msg|]];
    [apply Hcont; repeat constructor; exact Hwant|].
  destruct (os_Chtimes env _ _);
    apply Hcont; repeat constructor; exact Hwant.
Qed.

(** [downloadFromRemote] touches the disk and fetches objects only for
    remote files it wants: files whose path, the key without the id of the
    folder in front, is missing from the table of local files or is there
    with an older time. Every directory made, file created, object fetched
    and time set is the one of such a remote file, at the path joined from
    the folder and that path. A remote file with an equal or older time
    than a local file in the table is left alone. *)
Theorem downloadFromRemote_only_wanted
    (Match : string → string → bool * option string)
    (Rel : string → string → io string)
    (Join : string → string → string) (Dir : string → string)
    (env : SyncEnv) (folder : FolderSync) (st : SyncStats) :
  let localFiles :=
    (Walk (local_visit Match Rel folder) (local_tree env (Path folder)) ∅).1 in
  Forall (λ op,
            op = OpListFiles (ID folder)
            ∨ ∃ remoteFiles remoteFile,
                storage_ListFiles env (ID folder) = Ok remoteFiles
                ∧ remoteFile ∈ remoteFiles
                ∧ op_for Join Dir folder remoteFile op
                ∧ match localFiles
                          !! TrimPrefix (RemoteKey remoteFile)
                               (ID folder +:+ "/") with
                  | None => True
                  | Some localModTime =>
                      (localModTime < LastModified remoteFile)%Z
                  end)
    (downloadFromRemote Match Rel Join Dir env folder st).1.2.
Proof.
  cbv zeta. unfold downloadFromRemote.
  destruct (storage_ListFiles env (ID folder)) as [remoteFiles|msg];
    [|apply Forall_singleton; left; reflexivity].
  pose proof (download_loop_wanted Join Dir env folder
                (Walk (local_visit Match Rel folder)
                   (local_tree env (Path folder)) ∅).1
                remoteFiles 0 st) as Hloop.
  destruct (download_loop _ _ _ _ _ _ _ _) as [[st' ops] err].
  cbn [fst snd] in *.
  apply Forall_cons. split; [left; reflexivity|].
  eapply Forall_impl; [exact Hloop|].
  intros op (remoteFile & Hin & Hwant & Hfor). right.
  exists remoteFiles, remoteFile.
  split; [reflexivity|]. split; [exact Hin|]. split; [exact Hfor|].
  unfold wants_download in Hwant.
  destruct (_ !! _) as [localModTime|]; [|exact I].
  apply Z.ltb_lt. exact Hwant.
Qed.

(** ** Pausing and resuming *)

(** [ResumeSync] after [PauseSync] does not give the state back: a
    manager paused while scanning or syncing resumes as idle. A manager in
    the state error is neither paused nor resumed. Pausing twice is
    pausing once, and so for resuming; nothing but the state changes. *)
Theorem ResumeSync_after_PauseSync (sm : SyncManager) :
  ResumeSync (PauseSync sm)
  = match state sm with
    | SyncStateError => sm
    | _ => set_state sm SyncStateIdle
    end
  ∧ PauseSync (PauseSync sm) = PauseSync sm
  ∧ ResumeSync (ResumeSync sm) = ResumeSync sm
  ∧ PauseSync sm = set_state sm (state (PauseSync sm))
  ∧ ResumeSync sm = set_state sm (state (ResumeSync sm)).
Proof.
  unfold ResumeSync, PauseSync.
  destruct sm as [u w c st s d i fs]. destruct s; repeat split.
Qed.

(** ** Folders watched without patterns *)

Lemma WatchPath_without_patterns Match Rel env fw path recursive :
  excludes (WatchPath Match Rel env fw path recursive []).1 = excludes fw.
Proof.
  unfold WatchPath.
  destruct (filepath_Abs env path) as [absPath|msg]; [|reflexivity].
  destruct (Watcher.os_Stat env absPath) as [fileInfo|msg]; [|reflexivity].
  cbn [length Nat.ltb Nat.leb].
  destruct (IsDir fileInfo && recursive).
  - pose proof (walk_invariant (watch_visit Match Rel env absPath)
                  (λ fw', excludes fw' = excludes fw)
                  (λ s p info err Hs,
                     eq_trans
                       (watch_visit_excludes Match Rel env absPath s p info err)
                       Hs)
                  (tree_at env absPath) fw eq_refl) as Hwalk.
    unfold Walk.
    destruct (walk _ _ _) as [fw' v]. simpl in Hwalk.
    destruct v; exact Hwalk.
  - destruct (fsnotify_Add env absPath); reflexivity.
Qed.

Lemma watch_event_no_roots Match Rel IsAbs env fw event :
  watchedPaths (watch_event Match Rel IsAbs env [] fw event).1
  ⊆ watchedPaths fw.
Proof.
  unfold watch_event.
  destruct (_ =? _)%Z.
  { cbn [fst watch_created].
    destruct (Watcher.os_Stat env _) as [info|]; [|reflexivity].
    destruct (IsDir info); reflexivity. }
  destruct (_ =? _)%Z; [reflexivity|].
  destruct (_ =? _)%Z;
    [intros p Hp; apply elem_of_difference in Hp as [Hp _]; exact Hp|].
  destruct (_ =? _)%Z;
    [intros p Hp; apply elem_of_difference in Hp as [Hp _]; exact Hp|].
  reflexivity.
Qed.

(** When no registered folder has exclude patterns, the watcher [Start]
    creates stores no patterns, for no root; the loop of [watch] then finds
    no root for a directory created later, and no event adds a path to the
    watch set: the directories [Start] found are all that is ever
    watched. *)
Theorem Start_without_patterns_misses_new_directories
    (Match : string → string → bool * option string)
    (Rel : string → string → io string) (IsAbs : string → bool)
    (env : ManagerEnv) (sm : SyncManager) :
  (∀ id folder, folders sm !! id = Some folder → ExcludePatterns folder = []) →
  fsnotify_NewWatcher env = None →
  (Sync.Start Match Rel env sm).2 = None
  ∧ folders (Sync.Start Match Rel env sm).1 = folders sm
  ∧ ∃ fw,
      watcher (Sync.Start Match Rel env sm).1 = Some fw
      ∧ excludes fw = ∅
      ∧ ∀ env' event,
          watchedPaths (watch_event Match Rel IsAbs env' [] fw event).1
          ⊆ watchedPaths fw.
Proof.
  intros Hnone Hnew. unfold Sync.Start. rewrite Hnew.
  split; [reflexivity|]. split; [reflexivity|].
  eexists. split; [reflexivity|].
  assert (Hall : Forall (λ entry : string * FolderSync,
                           ExcludePatterns entry.2 = [])
                   (map_to_list (folders sm))).
  { apply Forall_forall. intros [id folder] Hin.
    apply elem_of_map_to_list in Hin. exact (Hnone id folder Hin). }
  assert (Hempty : ∀ entries fw0,
            Forall (λ entry : string * FolderSync,
                      ExcludePatterns entry.2 = []) entries →
            excludes fw0 = ∅ →
            excludes
              (foldl (λ fw (entry : string * FolderSync),
                        if Enabled entry.2
                        then (WatchPath Match Rel (watch_env env) fw
                                (Path entry.2) true
                                (ExcludePatterns entry.2)).1
                        else fw) fw0 entries) = ∅).
  { induction entries as [|entry rest IH]; intros fw0 Hrest Hfw0;
      [exact Hfw0|].
    apply Forall_cons in Hrest as [Hentry Hrest].
    cbn [foldl]. apply IH; [exact Hrest|].
    destruct (Enabled entry.2); [|exact Hfw0].
    rewrite Hentry, WatchPath_without_patterns. exact Hfw0. }
  split; [apply Hempty; [exact Hall | reflexivity]|].
  intros env' event. apply watch_event_no_roots.
Qed.

(** A manager for the folder /data/photos, registered without patterns. *)
Definition photos_manager : SyncManager :=
  NewSyncManager
    {| Config.IntervalMinutes := 15;
       Config.AutoSync := true;
       Config.Folders :=
         {[ "photos" := {| Config.LocalPath := "/data/photos";
                           Config.RemotePath := "photos";
                           Config.ExcludePatterns := [];
                           Config.Enabled := true |} ]};
       Config.filePath := "/home/user/.cloudsync/config.json" |}
    (Uploader.Start (NewUploader AgentConfig)) "device-1" 0.

Lemma Start_without_patterns_misses_new_directories_witness :
  (Sync.Start example_Match example_Rel example_env photos_manager).2 = None
  ∧ folders (Sync.Start example_Match example_Rel example_env
               photos_manager).1
    = folders photos_manager
  ∧ ∃ fw,
      watcher (Sync.Start example_Match example_Rel example_env
                 photos_manager).1 = Some fw
      ∧ excludes fw = ∅
      ∧ ∀ env' event,
          watchedPaths (watch_event example_Match example_Rel example_IsAbs
                          env' [] fw event).1
          ⊆ watchedPaths fw.
Proof.
  apply (Start_without_patterns_misses_new_directories example_Match
           example_Rel example_IsAbs example_env photos_manager).
  - intros id folder Hfolder.
    destruct (decide (id = "photos")) as [->|Hne].
    + vm_compute in Hfolder. injection Hfolder as <-. reflexivity.
    + unfold photos_manager, NewSyncManager in Hfolder.
      cbn [folders] in Hfolder.
      rewrite map_lookup_imap in Hfolder.
      unfold Config.GetAllFolders in Hfolder. cbn [Config.Folders] in Hfolder.
      rewrite lookup_singleton_ne in Hfolder by congruence.
      discriminate Hfolder.
  - reflexivity.
Defined.
